(** * Outfit Vault (app.js): a shallow embedding and its checked properties

    The development follows the layout of [src/app.js] (latest revision,
    lines 693-2011): helpers, image normalizer, record store, catalog view
    model, bulk controller and backup codec.

    Conventions of the embedding.
    - A JavaScript number is a [JsNum]: a finite value carried as an exact
      rational, or one of NaN, +Infinity, -Infinity.  Signed zero is not
      tracked (no function modelled here can return -0 to its caller).
      Where the program divides, multiplies non-integers or counts
      without bound, the result is rounded to double precision
      ([Num.round53]); the other sums, differences and products are on
      integers far below 2^53 and are exact.
    - A JavaScript string is a [string] of 8-bit code units, read as the
      code points U+0000..U+00FF.
    - Values whose type is only known at run time (a parsed backup
      document, the argument of [clampRating]) are [JsVal]s.
    - Browser services the program only calls (number/string conversion,
      image decoding and encoding, FileReader, fetch, the collation of
      [localeCompare], the clock and the random source) are the fields of
      the class [Host]; every theorem holds for every host.
    - An [async] function is a state transformer over [World] that either
      completes or throws.  Every request to IndexedDB may fail, as the
      host decides ([storeFails]); a failed request rejects the promise
      the program awaits and writes nothing. *)

From Stdlib Require Import ZArith QArith Qround Qminmax Qabs Qpower Lia Lqa String Ascii List Bool.
From Stdlib Require Qcanon.
From stdpp Require Import base option list strings gmap pretty sorting.

Local Open Scope Z_scope.
Local Open Scope string_scope.
Local Open Scope list_scope.

(* ===================================================================== *)
(** ** JavaScript numbers *)
(* ===================================================================== *)

Inductive JsNum : Type :=
| Fin (q : Q)
| NaN
| PosInf
| NegInf.

Definition num_of_Z (z : Z) : JsNum := Fin (inject_Z z).

Module Num.

(** [Number.isFinite] *)
Definition isFinite (x : JsNum) : bool :=
  match x with Fin _ => true | _ => false end.

(** Truthiness of a number: everything but 0 and NaN. *)
Definition truthy (x : JsNum) : bool :=
  match x with
  | Fin q => negb (Qeq_bool q 0)
  | NaN => false
  | PosInf | NegInf => true
  end.

(** [Math.round]: nearest integer, ties towards +Infinity. *)
Definition round (x : JsNum) : JsNum :=
  match x with
  | Fin q => Fin (inject_Z (Qfloor (q + (1 # 2))))
  | other => other
  end.

(** The binade of a positive rational [q]: the [e] with
    [2^e <= q < 2^(e+1)]. *)
Definition binade (q : Q) : Z :=
  let k := Z.log2 (Qnum q) - Z.log2 (Zpos (Qden q)) in
  if Qle_bool (2 ^ k) q then k else k - 1.

(** The nearest integer, ties to the even one. *)
Definition roundEven (q : Q) : Z :=
  let f := Qfloor q in
  match (q - inject_Z f ?= 1 # 2)%Q with
  | Lt => f
  | Gt => f + 1
  | Eq => if Z.even f then f else f + 1
  end.

(** The double nearest to [q]: 53 significant bits, ties to even.  The
    range of the exponent is not modelled (no value rounded here is
    below 2^-1022 or above 2^1023 in magnitude). *)
Definition round53 (q : Q) : Q :=
  let a := Qabs q in
  let e := binade a - 52 in
  let r := (inject_Z (roundEven (a / 2 ^ e)) * 2 ^ e)%Q in
  match Qnum q with
  | Z0 => 0%Q
  | Zpos _ => Qred r
  | Zneg _ => Qred (- r)
  end.

(** [Math.max] and [Math.min] of two arguments. *)
Definition max (a b : JsNum) : JsNum :=
  match a, b with
  | NaN, _ | _, NaN => NaN
  | PosInf, _ | _, PosInf => PosInf
  | NegInf, y => y
  | x, NegInf => x
  | Fin p, Fin q => if Qle_bool p q then Fin q else Fin p
  end.

Definition min (a b : JsNum) : JsNum :=
  match a, b with
  | NaN, _ | _, NaN => NaN
  | NegInf, _ | _, NegInf => NegInf
  | PosInf, y => y
  | x, PosInf => x
  | Fin p, Fin q => if Qle_bool p q then Fin p else Fin q
  end.

(** Sign of a finite value, used by the arithmetic on infinities. *)
Definition sgn (q : Q) : Z := Z.sgn (Qnum q).

Definition neg (x : JsNum) : JsNum :=
  match x with
  | Fin q => Fin (- q)
  | NaN => NaN
  | PosInf => NegInf
  | NegInf => PosInf
  end.

Definition add (a b : JsNum) : JsNum :=
  match a, b with
  | NaN, _ | _, NaN => NaN
  | PosInf, NegInf | NegInf, PosInf => NaN
  | PosInf, _ | _, PosInf => PosInf
  | NegInf, _ | _, NegInf => NegInf
  | Fin p, Fin q => Fin (p + q)
  end.

Definition sub (a b : JsNum) : JsNum := add a (neg b).

(** [a + b] in double precision. *)
Definition plus (a b : JsNum) : JsNum :=
  match add a b with
  | Fin q => Fin (round53 q)
  | other => other
  end.

Definition signed_inf (s : Z) : JsNum :=
  match s with
  | Z0 => NaN
  | Zpos _ => PosInf
  | Zneg _ => NegInf
  end.

Definition mul (a b : JsNum) : JsNum :=
  match a, b with
  | NaN, _ | _, NaN => NaN
  | Fin p, Fin q => Fin (p * q)
  | Fin p, PosInf | PosInf, Fin p => signed_inf (sgn p)
  | Fin p, NegInf | NegInf, Fin p => signed_inf (- sgn p)
  | PosInf, PosInf | NegInf, NegInf => PosInf
  | PosInf, NegInf | NegInf, PosInf => NegInf
  end.

(** The relational operators [<] and [>=]; any comparison with NaN is
    false. *)
Definition ltb (a b : JsNum) : bool :=
  match a, b with
  | NaN, _ | _, NaN => false
  | Fin p, Fin q => negb (Qle_bool q p)
  | NegInf, NegInf => false
  | NegInf, _ => true
  | _, NegInf => false
  | PosInf, _ => false
  | Fin _, PosInf => true
  end.

Definition gtb (a b : JsNum) : bool := ltb b a.

Definition geb (a b : JsNum) : bool :=
  match a, b with
  | NaN, _ | _, NaN => false
  | _, _ => negb (ltb a b)
  end.

(** Strict equality [===] on numbers. *)
Definition eqb (a b : JsNum) : bool :=
  match a, b with
  | Fin p, Fin q => Qeq_bool p q
  | PosInf, PosInf | NegInf, NegInf => true
  | _, _ => false
  end.

(** [x || d] for a number [x]. *)
Definition or (x d : JsNum) : JsNum := if truthy x then x else d.

End Num.

(* ===================================================================== *)
(** ** Run-time typed values and the host *)
(* ===================================================================== *)

#[warnings="-register-all"]
Inductive JsVal : Type :=
| VUndefined
| VNull
| VBool (b : bool)
| VNum (x : JsNum)
| VStr (s : string)
| VArr (elems : list JsVal)
| VObj (props : list (string * JsVal)).

(** A binary payload ([Blob] or [File]): its bytes and its MIME type. *)
Record Blob : Type := mkBlob { blob_bytes : list Byte.byte; blob_type : string }.

(** A decoded image ([ImageBitmap] or a loaded [Image]); both dimensions
    are at least one pixel. *)
Record Bitmap : Type := mkBitmap { width : positive; height : positive }.

(** What [ctx.drawImage] was asked to paint: source rectangle and
    destination rectangle. *)
Record DrawOp : Type := mkDraw {
  src_x : Z; src_y : Z; src_w : Z; src_h : Z;
  dst_x : Z; dst_y : Z; dst_w : Z; dst_h : Z
}.

(** A canvas after one [drawImage] call. *)
Record Canvas : Type := mkCanvas {
  cv_width : Z;
  cv_height : Z;
  cv_source : Bitmap;
  cv_draw : DrawOp
}.

Class Host : Type := {
  (** ECMAScript [StringToNumber] and [Number::toString] *)
  StringToNumber : string -> JsNum;
  NumberToString : JsNum -> string;
  (** [String.prototype.localeCompare] in the host's locale *)
  localeCompare : string -> string -> JsNum;
  (** ["createImageBitmap" in window] and the call itself ([None]: it
      rejects) *)
  hasCreateImageBitmap : bool;
  createImageBitmap : Blob -> option Bitmap;
  (** [FileReader.readAsDataURL] ([None]: [onerror]) *)
  readAsDataURL : Blob -> option string;
  (** [new Image()] with [src] set to a data URL ([None]: [onerror]) *)
  loadImage : string -> option Bitmap;
  (** [canvas.toBlob(cb, "image/jpeg", quality)] ([None]: the callback
      receives null) *)
  canvasToBlob : Canvas -> Q -> option Blob;
  (** [fetch(url)] followed by [res.blob()] ([None]: it rejects) *)
  fetchBlob : JsVal -> option Blob;
  (** the reading the clock gives at the n-th query ([Date.now()],
      [new Date()]), its ISO-8601 rendering, and the hexadecimal fraction
      [Math.random().toString(16).slice(2)] drawn at the n-th query *)
  dateNow : nat -> Z;
  toISOString : Z -> string;
  randomHex : nat -> string;
  (** whether the n-th request made to the object store fails: the open
      request, the request itself or its transaction reports an error, the
      wrapper's promise rejects (app.js 785, 795-796, 819, 829) and the
      store is left as it was *)
  storeFails : nat -> bool
}.

Module Js.
Section WithHost.
Context `{Host}.

(** ToBoolean *)
Definition truthy (v : JsVal) : bool :=
  match v with
  | VUndefined | VNull => false
  | VBool b => b
  | VNum x => Num.truthy x
  | VStr s => negb (String.eqb s "")
  | VArr _ | VObj _ => true
  end.

(** [a || b] where the right operand has already been evaluated. *)
Definition or (a b : JsVal) : JsVal := if truthy a then a else b.

(** ToString.  An array prints as its elements joined by commas, where
    undefined and null elements print as the empty string. *)
Fixpoint ToString (v : JsVal) : string :=
  match v with
  | VUndefined => "undefined"
  | VNull => "null"
  | VBool true => "true"
  | VBool false => "false"
  | VNum x => NumberToString x
  | VStr s => s
  | VArr l =>
      (fix join (l : list JsVal) : string :=
         match l with
         | [] => ""
         | e :: rest =>
             let piece := match e with
                          | VUndefined | VNull => ""
                          | _ => ToString e
                          end in
             match rest with
             | [] => piece
             | _ :: _ => piece +:+ "," +:+ join rest
             end
         end) l
  | VObj _ => "[object Object]"
  end.

(** [Array.prototype.join(sep)] *)
Definition join_piece (e : JsVal) : string :=
  match e with
  | VUndefined | VNull => ""
  | _ => ToString e
  end.

Fixpoint Array_join (sep : string) (l : list JsVal) : string :=
  match l with
  | [] => ""
  | e :: rest =>
      match rest with
      | [] => join_piece e
      | _ :: _ => join_piece e +:+ sep +:+ Array_join sep rest
      end
  end.

(** [Number(v)], that is ToNumber.  Arrays and objects first go through
    ToPrimitive, which for these plain values is ToString. *)
Definition Number (v : JsVal) : JsNum :=
  match v with
  | VUndefined => NaN
  | VNull => Fin 0
  | VBool true => Fin 1
  | VBool false => Fin 0
  | VNum x => x
  | VStr s => StringToNumber s
  | VArr _ | VObj _ => StringToNumber (ToString v)
  end.

(** Property access [o.k] for the property names the program reads;
    none of them is a property of a primitive or of an array. *)
Fixpoint lookup_prop (k : string) (props : list (string * JsVal)) : JsVal :=
  match props with
  | [] => VUndefined
  | (k', v) :: rest => if String.eqb k k' then v else lookup_prop k rest
  end.

Definition get (o : JsVal) (k : string) : JsVal :=
  match o with
  | VObj props => lookup_prop k props
  | _ => VUndefined
  end.

End WithHost.
End Js.

(* ===================================================================== *)
(** ** String primitives *)
(* ===================================================================== *)

Module Str.

Definition code (c : ascii) : N := N_of_ascii c.

(** White space removed by [trim]: TAB, LF, VT, FF, CR, SP, NBSP. *)
Definition is_space (c : ascii) : bool :=
  let n := code c in
  ((9 <=? n) && (n <=? 13) || (n =? 32) || (n =? 160))%N.

Fixpoint trimStart (s : string) : string :=
  match s with
  | EmptyString => EmptyString
  | String c r => if is_space c then trimStart r else s
  end.

Fixpoint trimEnd (s : string) : string :=
  match s with
  | EmptyString => EmptyString
  | String c r =>
      let r' := trimEnd r in
      if is_space c && String.eqb r' "" then "" else String c r'
  end.

(** [String.prototype.trim] *)
Definition trim (s : string) : string := trimEnd (trimStart s).

(** Upper-case letters: A-Z, and the Latin-1 letters U+00C0..U+00DE
    except the multiplication sign U+00D7. *)
Definition is_upper (c : ascii) : bool :=
  let n := code c in
  ((65 <=? n) && (n <=? 90)
   || (192 <=? n) && (n <=? 214)
   || (216 <=? n) && (n <=? 222))%N.

Definition lower_char (c : ascii) : ascii :=
  if is_upper c then ascii_of_N (code c + 32) else c.

(** [String.prototype.toLowerCase] *)
Fixpoint toLowerCase (s : string) : string :=
  match s with
  | EmptyString => EmptyString
  | String c r => String (lower_char c) (toLowerCase r)
  end.

(** [String.prototype.split] with a one-character separator. *)
Fixpoint split (sep : ascii) (s : string) : list string :=
  match s with
  | EmptyString => [""]
  | String c r =>
      if Ascii.eqb c sep then "" :: split sep r
      else match split sep r with
           | [] => [String c ""]
           | h :: t => String c h :: t
           end
  end.

(** [String.prototype.includes] *)
Fixpoint includes (hay needle : string) : bool :=
  String.prefix needle hay
  || match hay with
     | EmptyString => false
     | String _ r => includes r needle
     end.

(** [Array.prototype.includes] on an array of strings. *)
Definition mem (x : string) (l : list string) : bool :=
  existsb (String.eqb x) l.

(** [Array.from(new Set(l))]: the first occurrence of every element, in
    order of first insertion. *)
Fixpoint uniq_from (seen l : list string) : list string :=
  match l with
  | [] => []
  | x :: r => if mem x seen then uniq_from seen r
              else x :: uniq_from (x :: seen) r
  end.

Definition uniq (l : list string) : list string := uniq_from [] l.

End Str.

(* ===================================================================== *)
(** ** Exceptions and results *)
(* ===================================================================== *)

Inductive Exn : Type :=
| TypeError            (* a method is called on a value that lacks it *)
| SyntaxError          (* [JSON.parse] on text that is not JSON *)
| BackupFormatError    (* [new Error("Formato backup non valido")] *)
| ConstraintError      (* IndexedDB: [add] of a key that already exists *)
| DataError            (* IndexedDB: the record's key is not a valid key *)
| StoreError           (* IndexedDB: a request or its transaction fails *)
| KeyOutsideModel      (* a number or array key, see [storeKey] *)
| ReadError            (* [FileReader.onerror] *)
| ImageError           (* [Image.onerror] *)
| FetchError.          (* [fetch] rejects *)

Inductive Res (A : Type) : Type :=
| Ok (a : A)
| Throw (e : Exn).
Arguments Ok {A} a.
Arguments Throw {A} e.

Definition res_bind {A B : Type} (r : Res A) (k : A -> Res B) : Res B :=
  match r with
  | Ok a => k a
  | Throw e => Throw e
  end.

Definition of_option {A : Type} (e : Exn) (o : option A) : Res A :=
  match o with
  | Some a => Ok a
  | None => Throw e
  end.

Declare Scope res_scope.
Delimit Scope res_scope with res.
Notation "'let*' x ':=' c 'in' k" := (res_bind c (fun x => k))
  (at level 10, x name, c at level 100, k at level 200) : res_scope.

(* ===================================================================== *)
(** ** 3) Helpers (app.js 836-890) *)
(* ===================================================================== *)

Section Helpers.
Context `{Host}.
Local Open Scope res_scope.

(** [uid()], given the clock reading and the random fraction it draws. *)
Definition uid (now : Z) (rnd : string) : string :=
  "o_" +:+ pretty now +:+ "_" +:+ rnd.

(** [clampRating(n)] *)
Definition clampRating (n : JsVal) : JsNum :=
  let x := Js.Number n in
  if negb (Num.isFinite x) then Fin 0
  else Num.min (Fin 5) (Num.max (Fin 0) (Num.round x)).

(** The receiver of a string method call [(v || "").m()]: a string, or a
    TypeError when the value is truthy and not a string. *)
Definition string_or_empty (v : JsVal) : Res string :=
  match Js.or v (VStr "") with
  | VStr s => Ok s
  | _ => Throw TypeError
  end.

(** [safeName(name)] *)
Definition safeName (name : JsVal) : Res string :=
  let* r := string_or_empty name in
  let s := Str.trim r in
  Ok (if negb (String.eqb s "") then s else "Outfit senza nome").

(** [parseTags(raw)] *)
Definition parseTags (raw : JsVal) : Res (list string) :=
  let* r := string_or_empty raw in
  let s := List.filter (fun x => negb (String.eqb x ""))
             (List.map (fun x => Str.toLowerCase (Str.trim x))
                (Str.split "," r)) in
  Ok (take 20 (Str.uniq s)).

(** [(v || "").trim()], the notes of the create form, of the detail form
    and of an imported entry. *)
Definition trimmedText (v : JsVal) : Res string :=
  let* s := string_or_empty v in
  Ok (Str.trim s).

(** [blobToDataURL(blob)]: [String(r.result || "")] of the reader's
    result. *)
Definition blobToDataURL (blob : Blob) : Res string :=
  let* r := of_option ReadError (readAsDataURL blob) in
  Ok r.

(** [dataURLToBlob(dataUrl)] *)
Definition dataURLToBlob (dataUrl : JsVal) : Res Blob :=
  of_option FetchError (fetchBlob dataUrl).

End Helpers.

(* ===================================================================== *)
(** ** Image normalizer (app.js 892-964) *)
(* ===================================================================== *)

Section ImageNormalizer.
Context `{Host}.
Local Open Scope res_scope.

(** [Math.round] of a finite quantity, as an integer. *)
Definition Qround_half_up (q : Q) : Z := Qfloor (q + (1 # 2)).

(** The first decoding attempt shared by both operations:
    [if ("createImageBitmap" in window) try { ... } catch { null }]. *)
Definition fastDecode (file : Blob) : option Bitmap :=
  if hasCreateImageBitmap then createImageBitmap file else None.

(** The second attempt of [fileToSafeJpegBlob]: FileReader, then an
    [Image] element; either promise may reject. *)
Definition slowDecode (file : Blob) : Res Bitmap :=
  let* dataUrl := of_option ReadError (readAsDataURL file) in
  of_option ImageError (loadImage dataUrl).

(** [scale], [cw], [ch] of app.js 916-919, in double precision: the
    quotient is rounded, and so is each product before [Math.round]
    sees it.  [maxSide] and the sides of the image are integers. *)
Definition safeScale (w h : positive) (maxSide : Z) : Q :=
  Qmin 1
    (Num.round53 (inject_Z maxSide / inject_Z (Z.max (Zpos w) (Zpos h)))).

Definition safeWidth (w h : positive) (maxSide : Z) : Z :=
  Z.max 1
    (Qround_half_up
       (Num.round53 (inject_Z (Zpos w) * safeScale w h maxSide))).

Definition safeHeight (w h : positive) (maxSide : Z) : Z :=
  Z.max 1
    (Qround_half_up
       (Num.round53 (inject_Z (Zpos h) * safeScale w h maxSide))).

(** The canvas [fileToSafeJpegBlob] paints (app.js 921-925):
    [ctx.drawImage(bitmap, 0, 0, cw, ch)] maps the whole source onto the
    whole canvas. *)
Definition safeCanvas (bitmap : Bitmap) (maxSide : Z) : Canvas :=
  let w := width bitmap in
  let h := height bitmap in
  let cw := safeWidth w h maxSide in
  let ch := safeHeight w h maxSide in
  {| cv_width := cw; cv_height := ch; cv_source := bitmap;
     cv_draw := {| src_x := 0; src_y := 0; src_w := Zpos w; src_h := Zpos h;
                   dst_x := 0; dst_y := 0; dst_w := cw; dst_h := ch |} |}.

(** Decoding in [fileToSafeJpegBlob] (app.js 894-914): the second
    attempt runs when the first one left [bitmap] null, and nothing
    catches its rejection. *)
Definition decodeImage (file : Blob) : Res Bitmap :=
  match fastDecode file with
  | Some b => Ok b
  | None => slowDecode file
  end.

(** [blob || file] *)
Definition blob_or (blob : option Blob) (file : Blob) : Blob :=
  match blob with
  | Some b => b
  | None => file
  end.

(** [fileToSafeJpegBlob(file, maxSide, quality)]; [maxSide] is a pixel
    count (1600 and 1200 at the call sites). *)
Definition fileToSafeJpegBlob (file : Blob) (maxSide : Z) (quality : Q)
  : Res Blob :=
  let* bitmap := decodeImage file in
  Ok (blob_or (canvasToBlob (safeCanvas bitmap maxSide) quality) file).

(** The canvas [cropCenterSquareToJpeg] paints (app.js 943-957), for a
    bound of at least one pixel; what a canvas element makes of a side
    that is zero or negative is not modelled. *)
Definition cropCanvas (bitmap : Bitmap) (maxSide : Z) : Canvas :=
  let w := Zpos (width bitmap) in
  let h := Zpos (height bitmap) in
  let side := Z.min w h in
  let sx := (w - side) / 2 in
  let sy := (h - side) / 2 in
  let outSide := Z.min maxSide side in
  {| cv_width := outSide; cv_height := outSide; cv_source := bitmap;
     cv_draw := {| src_x := sx; src_y := sy; src_w := side; src_h := side;
                   dst_x := 0; dst_y := 0;
                   dst_w := outSide; dst_h := outSide |} |}.

(** [cropCenterSquareToJpeg(blobOrFile, maxSide, quality)] *)
Definition cropCenterSquareToJpeg (blobOrFile : Blob) (maxSide : Z)
    (quality : Q) : Res Blob :=
  match fastDecode blobOrFile with
  | None => fileToSafeJpegBlob blobOrFile maxSide quality
  | Some bitmap =>
      Ok (blob_or (canvasToBlob (cropCanvas bitmap maxSide) quality)
            blobOrFile)
  end.

End ImageNormalizer.

(* ===================================================================== *)
(** ** 2) and 5) Records, application state, world *)
(* ===================================================================== *)

(** The stored record, with the field types every writer of this revision
    produces ([confirmCreateSave], [saveDetail], [wearToday],
    [bulkToggleFavorite], [importOutfitsFromFile]). *)
Module Outfit.
Record t : Type := mk {
  id : string;
  name : string;
  rating : JsNum;
  favorite : bool;
  createdAt : JsNum;
  imageBlob : Blob;
  tags : list string;
  notes : string;
  wearCount : JsNum;
  lastWornAt : JsNum
}.

(** [o] with another image payload. *)
Definition with_imageBlob (o : t) (b : Blob) : t :=
  mk (id o) (name o) (rating o) (favorite o) (createdAt o) b (tags o)
     (notes o) (wearCount o) (lastWornAt o).

(** [{ ...o, favorite: f }] *)
Definition with_favorite (o : t) (f : bool) : t :=
  mk (id o) (name o) (rating o) f (createdAt o) (imageBlob o) (tags o)
     (notes o) (wearCount o) (lastWornAt o).
End Outfit.

(** [state.filter] *)
Record Filter : Type := mkFilter {
  fav : bool;
  minRating : JsNum;
  staleDays : JsNum;
  tag : string
}.

(** The module-level [state] object (app.js 1059-1085), without the
    settings blob and the detail view's object URL. *)
Record State : Type := mkState {
  outfits : list Outfit.t;
  filtered : list Outfit.t;
  search : string;
  sort : string;
  filter : Filter;
  selectedId : option string;
  selectMode : bool;
  selectedSet : gset string;
  lastDeleted : option Outfit.t;
  undoTimer : option nat       (* [null] or a timer handle, which is truthy *)
}.

(** What [confirmCreateSave] reads from the create form. *)
Record CreateForm : Type := mkCreateForm {
  createName : string;         (* [el.createName.value] *)
  createStarsValue : JsVal;    (* [el.createStars.dataset.value] *)
  createFav : bool;            (* [el.createFav.checked] *)
  createTags : string;         (* [el.createTags.value] *)
  createNotes : string;        (* [el.createNotes.value] *)
  createCropSquare : bool      (* [el.createCropSquare.checked] *)
}.

(** The handler installed on the toast's action button. *)
Inductive ToastAction : Type :=
| UndoDetail                           (* closure of [deleteDetailWithUndo] *)
| UndoBulk (deleted : list Outfit.t).  (* closure of [bulkDeleteWithUndo] *)

(** Everything an event handler can read or write: the object store, the
    [state] object, the toast button's handler, the pending undo timers,
    the number of clock and random queries and the number of requests to
    the object store made so far. *)
Record World : Type := mkWorld {
  db : gmap string Outfit.t;
  app : State;
  toastAction : option ToastAction;
  timers : gset nat;
  nextTimer : nat;
  tick : nat;
  requests : nat
}.

(** Asynchronous code: a transformer of the world that completes with a
    value or throws, keeping the writes made before the throw. *)
Definition M (A : Type) : Type := World -> Res A * World.

Definition ret {A : Type} (a : A) : M A := fun w => (Ok a, w).

Definition bind {A B : Type} (c : M A) (k : A -> M B) : M B :=
  fun w => match c w with
           | (Ok a, w') => k a w'
           | (Throw e, w') => (Throw e, w')
           end.

Definition throw {A : Type} (e : Exn) : M A := fun w => (Throw e, w).

Definition lift {A : Type} (r : Res A) : M A := fun w => (r, w).

Definition gets {A : Type} (f : World -> A) : M A := fun w => (Ok (f w), w).

Definition modify (f : World -> World) : M unit := fun w => (Ok tt, f w).

(** [try { c } catch (e) { h e }] *)
Definition catch {A : Type} (c : M A) (h : Exn -> M A) : M A :=
  fun w => match c w with
           | (Ok a, w') => (Ok a, w')
           | (Throw e, w') => h e w'
           end.

Declare Scope m_scope.
Delimit Scope m_scope with M.
Notation "x <- c ;; k" := (bind c (fun x => k))
  (at level 20, c at level 99, k at level 200, only parsing) : m_scope.
Notation "c ;; k" := (bind c (fun _ => k))
  (at level 100, k at level 200, right associativity, only parsing) : m_scope.

(** [for (const x of l) { body }] *)
Fixpoint for_of {A : Type} (l : list A) (body : A -> M unit) : M unit :=
  match l with
  | [] => ret tt
  | x :: rest => bind (body x) (fun _ => for_of rest body)
  end.

(** [for (const x of l) { body }] where the body updates a local [acc]
    (the [existing] set of the import loop). *)
Fixpoint for_of_with {A S : Type} (l : list A) (acc : S)
    (body : A -> S -> M S) : M S :=
  match l with
  | [] => ret acc
  | x :: rest => bind (body x acc) (fun acc' => for_of_with rest acc' body)
  end.

Definition set_app (f : State -> State) (w : World) : World :=
  mkWorld (db w) (f (app w)) (toastAction w) (timers w) (nextTimer w) (tick w)
    (requests w).

Definition set_db (f : gmap string Outfit.t -> gmap string Outfit.t)
    (w : World) : World :=
  mkWorld (f (db w)) (app w) (toastAction w) (timers w) (nextTimer w) (tick w)
    (requests w).

Definition set_toastAction (a : option ToastAction) (w : World) : World :=
  mkWorld (db w) (app w) a (timers w) (nextTimer w) (tick w) (requests w).

Definition set_outfits (l : list Outfit.t) (s : State) : State :=
  mkState l (filtered s) (search s) (sort s) (filter s) (selectedId s)
    (selectMode s) (selectedSet s) (lastDeleted s) (undoTimer s).

Definition set_filtered (l : list Outfit.t) (s : State) : State :=
  mkState (outfits s) l (search s) (sort s) (filter s) (selectedId s)
    (selectMode s) (selectedSet s) (lastDeleted s) (undoTimer s).

Definition set_selectedId (i : option string) (s : State) : State :=
  mkState (outfits s) (filtered s) (search s) (sort s) (filter s) i
    (selectMode s) (selectedSet s) (lastDeleted s) (undoTimer s).

Definition set_lastDeleted (o : option Outfit.t) (s : State) : State :=
  mkState (outfits s) (filtered s) (search s) (sort s) (filter s)
    (selectedId s) (selectMode s) (selectedSet s) o (undoTimer s).

Definition set_undoTimer (t : option nat) (s : State) : State :=
  mkState (outfits s) (filtered s) (search s) (sort s) (filter s)
    (selectedId s) (selectMode s) (selectedSet s) (lastDeleted s) t.

(** The world once one more request to the object store has been made. *)
Definition counted (w : World) : World :=
  mkWorld (db w) (app w) (toastAction w) (timers w) (nextTimer w) (tick w)
    (S (requests w)).

(** The world once [n] more requests have been made. *)
Definition countedBy (n : nat) (w : World) : World :=
  mkWorld (db w) (app w) (toastAction w) (timers w) (nextTimer w) (tick w)
    (n + requests w).

Section App.
Context `{Host}.
Local Open Scope m_scope.

(** [Date.now()]: the next reading of the clock. *)
Definition Date_now : M Z :=
  fun w => (Ok (dateNow (tick w)),
            mkWorld (db w) (app w) (toastAction w) (timers w) (nextTimer w)
              (S (tick w)) (requests w)).

(** [Math.random().toString(16).slice(2)]: the next random fraction. *)
Definition Math_random_hex : M string :=
  fun w => (Ok (randomHex (tick w)),
            mkWorld (db w) (app w) (toastAction w) (timers w) (nextTimer w)
              (S (tick w)) (requests w)).

(** [uid()] as called by the application. *)
Definition new_uid : M string :=
  now <- Date_now ;;
  rnd <- Math_random_hex ;;
  ret (uid now rnd).

(** *** Record store (app.js 765-831) *)

(** One request to the object store: [openDB()] and a transaction of
    its own.  When the host makes it fail the wrapper's promise rejects
    and nothing is written; otherwise [op] runs. *)
Definition storeRequest {A : Type} (op : M A) : M A :=
  fun w =>
    if storeFails (requests w) then (Throw StoreError, counted w)
    else op (counted w).

(** [store.add]: the request fails when the key is taken, and that
    aborts the transaction. *)
Definition dbAddOutfit (outfit : Outfit.t) : M unit :=
  storeRequest
    (fun w => match db w !! Outfit.id outfit with
              | Some _ => (Throw ConstraintError, w)
              | None =>
                  (Ok tt,
                   set_db (fun m => <[Outfit.id outfit := outfit]> m) w)
              end).

Definition dbPutOutfit (outfit : Outfit.t) : M unit :=
  storeRequest (modify (set_db (fun m => <[Outfit.id outfit := outfit]> m))).

Definition dbDeleteOutfit (id : string) : M unit :=
  storeRequest (modify (set_db (fun m => delete id m))).

(** [store.getAll()] returns the records in ascending key order. *)
Definition key_le (a b : Outfit.t) : Prop :=
  String.leb (Outfit.id a) (Outfit.id b) = true.

#[local] Instance key_le_dec a b : Decision (key_le a b).
Proof. unfold key_le. apply _. Defined.

Definition getAll (m : gmap string Outfit.t) : list Outfit.t :=
  merge_sort key_le (snd <$> map_to_list m).

Definition dbGetAllOutfits : M (list Outfit.t) :=
  storeRequest (gets (fun w => getAll (db w))).

Definition dbGetOutfit (id : string) : M (option Outfit.t) :=
  storeRequest (gets (fun w => db w !! id)).

(** *** Toast (app.js 1124-1149): only the action handler is kept. *)
Definition showToast (action : option ToastAction) : M unit :=
  modify (set_toastAction action).

(** *** Filters and sorting (app.js 1216-1266) *)

Definition bool_num (b : bool) : JsNum := if b then Fin 1 else Fin 0.

(** The comparator passed to [arr.sort]. *)
Definition compareOutfits (s : string) (a b : Outfit.t) : JsNum :=
  let af := bool_num (Outfit.favorite a) in
  let bf := bool_num (Outfit.favorite b) in
  let created o := Num.or (Outfit.createdAt o) (Fin 0) in
  let rated o := Num.or (Outfit.rating o) (Fin 0) in
  let worn o := Num.or (Outfit.wearCount o) (Fin 0) in
  let lastWorn o := Num.or (Outfit.lastWornAt o) (Fin 0) in
  if String.eqb s "fav_first" then
    if negb (Num.eqb bf af) then Num.sub bf af
    else Num.sub (created b) (created a)
  else if String.eqb s "date_desc" then Num.sub (created b) (created a)
  else if String.eqb s "date_asc" then Num.sub (created a) (created b)
  else if String.eqb s "rating_desc" then Num.sub (rated b) (rated a)
  else if String.eqb s "rating_asc" then Num.sub (rated a) (rated b)
  else if String.eqb s "name_asc"
    then localeCompare (Outfit.name a) (Outfit.name b)
  else if String.eqb s "name_desc"
    then localeCompare (Outfit.name b) (Outfit.name a)
  else if String.eqb s "wear_desc" then Num.sub (worn b) (worn a)
  else if String.eqb s "wear_asc" then Num.sub (worn a) (worn b)
  else if String.eqb s "lastworn_asc" then Num.sub (lastWorn a) (lastWorn b)
  else if String.eqb s "lastworn_desc" then Num.sub (lastWorn b) (lastWorn a)
  else Fin 0.

(** [Array.prototype.sort(cmp)]: a stable sort; an element moves behind
    another one only when the comparator is positive on the pair. *)
Fixpoint insert_sorted {A : Type} (cmp : A -> A -> JsNum) (x : A)
    (l : list A) : list A :=
  match l with
  | [] => [x]
  | y :: rest => if Num.gtb (cmp x y) (Fin 0)
                 then y :: insert_sorted cmp x rest
                 else x :: l
  end.

Fixpoint Array_sort {A : Type} (cmp : A -> A -> JsNum) (l : list A)
  : list A :=
  match l with
  | [] => []
  | x :: rest => insert_sorted cmp x (Array_sort cmp rest)
  end.

Definition msPerDay (days : JsNum) : JsNum :=
  Num.mul (Num.mul (Num.mul (Num.mul days (Fin 24)) (Fin 60)) (Fin 60))
    (Fin 1000).

(** The value assigned to [state.filtered], given the clock reading used
    when the stale filter is on. *)
Definition visibleOutfits (now : Z) (state : State) : list Outfit.t :=
  let q := Str.toLowerCase (Str.trim (search state)) in
  let f := filter state in
  let arr := outfits state in
  let arr := if fav f then List.filter Outfit.favorite arr else arr in
  let arr := if Num.gtb (minRating f) (Fin 0)
             then List.filter
                    (fun o => Num.geb (Num.or (Outfit.rating o) (Fin 0))
                                (minRating f)) arr
             else arr in
  let arr := if Num.gtb (staleDays f) (Fin 0)
             then let limit := Num.sub (num_of_Z now)
                                 (msPerDay (staleDays f)) in
                  List.filter
                    (fun o => let lw := Num.or (Outfit.lastWornAt o) (Fin 0) in
                              Num.eqb lw (Fin 0) || Num.ltb lw limit) arr
             else arr in
  let arr := if negb (String.eqb (tag f) "")
             then List.filter (fun o => Str.mem (tag f) (Outfit.tags o)) arr
             else arr in
  let arr := if negb (String.eqb q "")
             then List.filter
                    (fun o => Str.includes (Str.toLowerCase (Outfit.name o)) q
                              || Str.includes
                                   (Str.toLowerCase (Outfit.notes o)) q) arr
             else arr in
  let s := sort state in
  let arr := if String.eqb s "fav_only"
             then List.filter Outfit.favorite arr else arr in
  Array_sort (compareOutfits s) arr.

(** [applyFiltersAndSort()]: [Date.now()] is read only inside the
    stale-days branch. *)
Definition applyFiltersAndSort : M unit :=
  state <- gets app ;;
  now <- (if Num.gtb (staleDays (filter state)) (Fin 0)
          then Date_now else ret 0) ;;
  modify (set_app (set_filtered (visibleOutfits now state))).

(** [renderGrid()], as far as the state is concerned.  The cards are
    display only; the clock reading taken for the date label of a card
    without creation time (app.js 1329) is not counted in [tick]. *)
Definition renderGrid : M unit := applyFiltersAndSort.

(** [refresh()] (app.js 1866-1878) *)
Definition refresh : M unit :=
  all <- dbGetAllOutfits ;;
  modify (set_app (set_outfits all)) ;;
  renderGrid.

End App.

(* ===================================================================== *)
(** ** JSON text *)
(* ===================================================================== *)

(** The text of a JSON file is carried as the syntax tree it spells;
    a numeric literal is the finite number it denotes. *)
#[warnings="-register-all"]
Inductive Json : Type :=
| JNull
| JBool (b : bool)
| JNumber (q : Q)
| JString (s : string)
| JArray (items : list Json)
| JObject (members : list (string * Json)).

(** What [file.text()] yields. *)
Inductive FileText : Type :=
| NotJson
| JsonText (j : Json).

Module JSON.

(** Assignment [o[k] = v] on a property list: an existing key keeps its
    place, a new key goes last. *)
Fixpoint set_prop (k : string) (v : JsVal) (props : list (string * JsVal))
  : list (string * JsVal) :=
  match props with
  | [] => [(k, v)]
  | (k', v') :: rest =>
      if String.eqb k k' then (k', v) :: rest
      else (k', v') :: set_prop k v rest
  end.

(** [JSON.stringify]: undefined members are dropped, undefined array
    elements and non-finite numbers become null. *)
Fixpoint stringify (v : JsVal) : option Json :=
  match v with
  | VUndefined => None
  | VNull => Some JNull
  | VBool b => Some (JBool b)
  | VNum (Fin q) => Some (JNumber q)
  | VNum _ => Some JNull
  | VStr s => Some (JString s)
  | VArr l =>
      Some (JArray
        ((fix items (l : list JsVal) : list Json :=
            match l with
            | [] => []
            | e :: rest =>
                match stringify e with
                | Some j => j :: items rest
                | None => JNull :: items rest
                end
            end) l))
  | VObj props =>
      Some (JObject
        ((fix members (ps : list (string * JsVal)) : list (string * Json) :=
            match ps with
            | [] => []
            | (k, e) :: rest =>
                match stringify e with
                | Some j => (k, j) :: members rest
                | None => members rest
                end
            end) props))
  end.

(** The value a JSON text denotes; a repeated member name keeps its last
    value. *)
Fixpoint value (j : Json) : JsVal :=
  match j with
  | JNull => VNull
  | JBool b => VBool b
  | JNumber q => VNum (Fin q)
  | JString s => VStr s
  | JArray l =>
      VArr ((fix items (l : list Json) : list JsVal :=
               match l with
               | [] => []
               | e :: rest => value e :: items rest
               end) l)
  | JObject ms =>
      VObj ((fix members (ms : list (string * Json))
               (acc : list (string * JsVal)) : list (string * JsVal) :=
               match ms with
               | [] => acc
               | (k, e) :: rest => members rest (set_prop k (value e) acc)
               end) ms [])
  end.

(** [JSON.parse(text)] *)
Definition parse (text : FileText) : Res JsVal :=
  match text with
  | NotJson => Throw SyntaxError
  | JsonText j => Ok (value j)
  end.

End JSON.

Section Controllers.
Context `{Host}.
Local Open Scope m_scope.

(** *** Create flow (app.js 1439-1482) *)

Definition confirmCreateSave (file : option Blob) (form : CreateForm)
  : M unit :=
  match file with
  | None => ret tt
  | Some file =>
      catch
        (name <- lift (safeName (VStr (createName form))) ;;
         let rating :=
           clampRating (Js.or (createStarsValue form) (VNum (Fin 0))) in
         let favorite := createFav form in
         tags <- lift (parseTags (VStr (createTags form))) ;;
         notes <- lift (trimmedText (VStr (createNotes form))) ;;
         safeBlob <- lift (fileToSafeJpegBlob file 1600 (9 # 10)) ;;
         finalBlob <- (if createCropSquare form
                       then lift (cropCenterSquareToJpeg safeBlob 1200 (9 # 10))
                       else ret safeBlob) ;;
         id <- new_uid ;;
         now <- Date_now ;;
         dbAddOutfit (Outfit.mk id name rating favorite (num_of_Z now)
                        finalBlob tags notes (Fin 0) (Fin 0)) ;;
         refresh ;;
         showToast None)
        (fun _ => showToast None)
  end.

(** *** Detail view: delete with undo (app.js 1585-1614) *)

(** [setTimeout(cb, 5000)] for the undo window: a fresh pending timer. *)
Definition setUndoTimeout : M nat :=
  fun w => (Ok (nextTimer w),
            mkWorld (db w) (app w) (toastAction w)
              ({[nextTimer w]} ∪ timers w) (S (nextTimer w)) (tick w)
              (requests w)).

Definition clearTimeout (t : nat) : M unit :=
  modify (fun w => mkWorld (db w) (app w) (toastAction w)
                     (timers w ∖ {[t]}) (nextTimer w) (tick w)
                     (requests w)).

(** [closeDetailModal()], as far as [state] is concerned. *)
Definition closeDetailModal : M unit :=
  modify (set_app (set_selectedId None)).

Definition deleteDetailWithUndo : M unit :=
  state <- gets app ;;
  match selectedId state with
  | None => ret tt
  | Some sid =>
      if String.eqb sid "" then ret tt else
      found <- dbGetOutfit sid ;;
      match found with
      | None => ret tt
      | Some outfit =>
          match undoTimer state with
          | Some t => clearTimeout t
          | None => ret tt
          end ;;
          modify (set_app (set_lastDeleted (Some outfit))) ;;
          dbDeleteOutfit (Outfit.id outfit) ;;
          closeDetailModal ;;
          refresh ;;
          showToast (Some UndoDetail) ;;
          t <- setUndoTimeout ;;
          modify (set_app (set_undoTimer (Some t)))
      end
  end.

(** The toast action installed by [deleteDetailWithUndo]. *)
Definition undoDetail : M unit :=
  state <- gets app ;;
  match lastDeleted state with
  | None => ret tt
  | Some outfit =>
      dbPutOutfit outfit ;;
      modify (set_app (set_lastDeleted None)) ;;
      refresh ;;
      showToast None
  end.

(** The callback of the undo timer, run when the pending timer [t]
    fires. *)
Definition undoTimerFires (t : nat) : M unit :=
  pending <- gets timers ;;
  if decide (t ∈ pending) then
    clearTimeout t ;;
    modify (set_app (set_lastDeleted None)) ;;
    modify (set_app (set_undoTimer None))
  else ret tt.

(** *** Multi-select and bulk actions (app.js 1757-1837) *)

Definition enableSelectMode (on : bool) : M unit :=
  modify (set_app (fun s =>
    mkState (outfits s) (filtered s) (search s) (sort s) (filter s)
      (selectedId s) on (if on then selectedSet s else ∅)
      (lastDeleted s) (undoTimer s))) ;;
  renderGrid.

(** [state.outfits.filter(o => ids.includes(o.id))] *)
Definition selectedOutfits (state : State) : list Outfit.t :=
  List.filter (fun o => bool_decide (Outfit.id o ∈ selectedSet state))
    (outfits state).

Definition bulkToggleFavorite : M unit :=
  state <- gets app ;;
  if decide (size (selectedSet state) = 0%nat) then ret tt else
  let selected := selectedOutfits state in
  let allFav := (0 <? length selected)%nat
                && forallb Outfit.favorite selected in
  let targetFav := negb allFav in
  for_of selected
    (fun o => dbPutOutfit (Outfit.with_favorite o targetFav)) ;;
  refresh ;;
  showToast None.

(** The toast action installed by [bulkDeleteWithUndo]. *)
Definition undoBulk (deleted : list Outfit.t) : M unit :=
  for_of deleted dbPutOutfit ;;
  refresh ;;
  showToast None.

Definition bulkDeleteWithUndo : M unit :=
  state <- gets app ;;
  if decide (size (selectedSet state) = 0%nat) then ret tt else
  let deleted := selectedOutfits state in
  match deleted with
  | [] => ret tt
  | _ :: _ =>
      for_of deleted (fun o => dbDeleteOutfit (Outfit.id o)) ;;
      enableSelectMode false ;;
      refresh ;;
      showToast (Some (UndoBulk deleted))
  end.

(** A click on the toast's action button: [onAction()]. *)
Definition clickToastAction : M unit :=
  action <- gets toastAction ;;
  match action with
  | None => ret tt
  | Some UndoDetail => undoDetail
  | Some (UndoBulk deleted) => undoBulk deleted
  end.

End Controllers.

(* ===================================================================== *)
(** ** 15) Backup codec (app.js 1687-1752) *)
(* ===================================================================== *)

Section Backup.
Context `{Host}.
Local Open Scope m_scope.

(** [{ ...o, imageDataUrl: imgData, imageBlob: undefined }] *)
Definition exportEntry (o : Outfit.t) (imgData : string) : JsVal :=
  VObj [ ("id", VStr (Outfit.id o));
         ("name", VStr (Outfit.name o));
         ("rating", VNum (Outfit.rating o));
         ("favorite", VBool (Outfit.favorite o));
         ("createdAt", VNum (Outfit.createdAt o));
         ("imageBlob", VUndefined);
         ("tags", VArr (VStr <$> Outfit.tags o));
         ("notes", VStr (Outfit.notes o));
         ("wearCount", VNum (Outfit.wearCount o));
         ("lastWornAt", VNum (Outfit.lastWornAt o));
         ("imageDataUrl", VStr imgData) ].

(** The loop filling [payload.outfits]. *)
Fixpoint exportEntries (l : list Outfit.t) : M (list JsVal) :=
  match l with
  | [] => ret []
  | o :: rest =>
      imgData <- lift (blobToDataURL (Outfit.imageBlob o)) ;;
      more <- exportEntries rest ;;
      ret (exportEntry o imgData :: more)
  end.

(** [exportOutfits(outfits)]; the result is the text of the downloaded
    file. *)
Definition exportOutfits (l : list Outfit.t) : M FileText :=
  now <- Date_now ;;
  entries <- exportEntries l ;;
  let payload := VObj [ ("version", VNum (Fin 1));
                        ("exportedAt", VStr (toISOString now));
                        ("outfits", VArr entries) ] in
  showToast None ;;
  ret (match JSON.stringify payload with
       | Some j => JsonText j
       | None => NotJson
       end).

(** [(o.id && !existing.has(o.id)) ? o.id : uid()] *)
Definition entryId (o : JsVal) (existing : gset string) : M JsVal :=
  let oid := Js.get o "id" in
  let known := match oid with
               | VStr s => bool_decide (s ∈ existing)
               | _ => false
               end in
  if Js.truthy oid && negb known then ret oid
  else (u <- new_uid ;; ret (VStr u)).

(** [existing.add(id)] *)
Definition addExisting (idv : JsVal) (existing : gset string) : gset string :=
  match idv with
  | VStr s => {[s]} ∪ existing
  | _ => existing
  end.

(** The key under which [store.put] files the record.  IndexedDB raises
    DataError for a boolean or plain-object key, once the request has
    been made.  It would accept a number or an array; such keys have no
    place in the string-keyed store of this model and are reported as
    [KeyOutsideModel]: what the program does with such an id is not
    described here. *)
Definition storeKey (idv : JsVal) : Res string :=
  match idv with
  | VStr s => Ok s
  | VNum _ | VArr _ => Throw KeyOutsideModel
  | _ => Throw DataError
  end.

(** [Array.isArray] *)
Definition isArray (v : JsVal) : bool :=
  match v with VArr _ => true | _ => false end.

(** [Number(v || Date.now())] *)
Definition numberOrNow (v : JsVal) : M JsNum :=
  if Js.truthy v then ret (Js.Number v)
  else (now <- Date_now ;; ret (num_of_Z now)).

(** [Array.isArray(o.tags) ? parseTags(o.tags.join(","))
                           : parseTags(o.tags || "")] *)
Definition importTags (t : JsVal) : Res (list string) :=
  match t with
  | VArr l => parseTags (VStr (Js.Array_join "," l))
  | _ => parseTags (Js.or t (VStr ""))
  end.

(** [!o || !o.imageDataUrl] *)
Definition payloadMissing (o : JsVal) : bool :=
  negb (Js.truthy o) || negb (Js.truthy (Js.get o "imageDataUrl")).

(** The body of the import loop for one entry [o]. *)
Definition importEntry (o : JsVal) (existing : gset string)
  : M (gset string) :=
  if payloadMissing o then ret existing
  else
    blob <- lift (dataURLToBlob (Js.get o "imageDataUrl")) ;;
    idv <- entryId o existing ;;
    let existing := addExisting idv existing in
    name <- lift (safeName (Js.get o "name")) ;;
    let rating := clampRating (Js.or (Js.get o "rating") (VNum (Fin 0))) in
    let favorite := Js.truthy (Js.get o "favorite") in
    createdAt <- numberOrNow (Js.get o "createdAt") ;;
    tags <- lift (importTags (Js.get o "tags")) ;;
    notes <- lift (trimmedText (Js.get o "notes")) ;;
    let wearCount :=
      Js.Number (Js.or (Js.get o "wearCount") (VNum (Fin 0))) in
    let lastWornAt :=
      Js.Number (Js.or (Js.get o "lastWornAt") (VNum (Fin 0))) in
    match storeKey idv with
    | Ok key =>
        dbPutOutfit (Outfit.mk key name rating favorite createdAt blob tags
                       notes wearCount lastWornAt)
    | Throw e => storeRequest (throw e)
    end ;;
    ret existing.

(** [importOutfitsFromFile(file)] *)
Definition importOutfitsFromFile (file : FileText) : M unit :=
  data <- lift (JSON.parse file) ;;
  if negb (Js.truthy data) || negb (isArray (Js.get data "outfits"))
  then throw BackupFormatError
  else
    state <- gets app ;;
    let existing : gset string :=
      list_to_set (Outfit.id <$> outfits state) in
    match Js.get data "outfits" with
    | VArr entries => for_of_with entries existing importEntry
    | _ => ret existing
    end ;;
    refresh ;;
    showToast None.

End Backup.

(* ===================================================================== *)
(** ** Auxiliary notions used in the statements *)
(* ===================================================================== *)

(** The outcome of [parseTags] on a string. *)
Definition cleanTags (s : string) : list string :=
  take 20 (Str.uniq
    (List.filter (fun x => negb (String.eqb x ""))
       (List.map (fun x => Str.toLowerCase (Str.trim x)) (Str.split "," s)))).


(* ===================================================================== *)
(** ** Two small hosts for examples *)
(* ===================================================================== *)

(** A toy image format: the first four bytes give the width and the
    height as 16-bit big-endian numbers. *)
Module Toy.

Definition be16 (z : Z) : list Byte.byte :=
  match Byte.of_N (Z.to_N (z / 256)), Byte.of_N (Z.to_N (z mod 256)) with
  | Some hi, Some lo => [hi; lo]
  | _, _ => []
  end.

Definition image (w h : Z) : Blob :=
  mkBlob (be16 w ++ be16 h) "image/png".

Definition decode (b : Blob) : option Bitmap :=
  match blob_bytes b with
  | w1 :: w0 :: h1 :: h0 :: _ =>
      match (Byte.to_N w1 * 256 + Byte.to_N w0)%N,
            (Byte.to_N h1 * 256 + Byte.to_N h0)%N with
      | Npos w, Npos h => Some (mkBitmap w h)
      | _, _ => None
      end
  | _ => None
  end.

Definition encode (c : Canvas) (quality : Q) : option Blob :=
  if ((0 <? cv_width c) && (cv_width c <? 65536)
      && (0 <? cv_height c) && (cv_height c <? 65536))%Z
  then Some (mkBlob (be16 (cv_width c) ++ be16 (cv_height c)) "image/jpeg")
  else None.

Definition dataURL (b : Blob) : string :=
  "data:" +:+ string_of_list_byte (blob_bytes b).

Definition fromDataURL (s : string) : option Blob :=
  if String.prefix "data:" s
  then Some (mkBlob (list_byte_of_string (String.substring 5 (String.length s - 5) s)) "")
  else None.

Fixpoint digits (s : string) (acc : N) : option N :=
  match s with
  | EmptyString => Some acc
  | String c r =>
      let n := Str.code c in
      if ((48 <=? n) && (n <=? 57))%N then digits r (acc * 10 + (n - 48))%N
      else None
  end.

(** Unsigned decimal integers only. *)
Definition stringToNumber (s : string) : JsNum :=
  match digits s 0%N with
  | Some n => num_of_Z (Z.of_N n)
  | None => NaN
  end.

(** Integers only. *)
Definition numberToString (x : JsNum) : string :=
  match x with
  | Fin q => pretty (Qnum q / Zpos (Qden q))
  | NaN => "NaN"
  | PosInf => "Infinity"
  | NegInf => "-Infinity"
  end.

Definition compareStrings (a b : string) : JsNum :=
  match String.compare a b with
  | Lt => Fin (-1)
  | Eq => Fin 0
  | Gt => Fin 1
  end.

End Toy.

(** A host on which every service works. *)
Definition demoHost : Host := {|
  StringToNumber := Toy.stringToNumber;
  NumberToString := Toy.numberToString;
  localeCompare := Toy.compareStrings;
  hasCreateImageBitmap := true;
  createImageBitmap := Toy.decode;
  readAsDataURL := fun b => Some (Toy.dataURL b);
  loadImage := fun s => match Toy.fromDataURL s with
                        | Some b => Toy.decode b
                        | None => None
                        end;
  canvasToBlob := Toy.encode;
  fetchBlob := fun v => match v with
                        | VStr s => Toy.fromDataURL s
                        | _ => None
                        end;
  dateNow := fun n => 1700000000000 + Z.of_nat n;
  toISOString := fun _ => "2023-11-14T22:13:20.000Z";
  randomHex := fun n => pretty n;
  storeFails := fun _ => false
|}.

(** A host that cannot decode images: [createImageBitmap] rejects and the
    [Image] element reports an error. *)
Definition blindHost : Host := {|
  StringToNumber := Toy.stringToNumber;
  NumberToString := Toy.numberToString;
  localeCompare := Toy.compareStrings;
  hasCreateImageBitmap := true;
  createImageBitmap := fun _ => None;
  readAsDataURL := fun b => Some (Toy.dataURL b);
  loadImage := fun _ => None;
  canvasToBlob := Toy.encode;
  fetchBlob := fun v => match v with
                        | VStr s => Toy.fromDataURL s
                        | _ => None
                        end;
  dateNow := fun n => 1700000000000 + Z.of_nat n;
  toISOString := fun _ => "2023-11-14T22:13:20.000Z";
  randomHex := fun n => pretty n;
  storeFails := fun _ => false
|}.


(** Sample data for the examples. *)
Module Sample.

Definition photo : Blob := Toy.image 1200 1200.

(** A record last worn exactly thirty days before the demonstration
    host's first clock reading. *)
Definition worn : Outfit.t :=
  Outfit.mk "o_1690000000000_a1" "Linen suit" (Fin 4) true
    (Fin 1690000000000) photo ["summer"; "work"] "" (Fin 3)
    (Fin 1697408000000).

Definition fresh : Outfit.t :=
  Outfit.mk "o_1690000000001_b2" "Rain coat" (Fin 2) false
    (Fin 1690000000001) photo ["rain"] "waxed" (Fin 0) (Fin 0).


Definition staleFilter : Filter := mkFilter false (Fin 0) (Fin 30) "".

Definition noFilter : Filter := mkFilter false (Fin 0) (Fin 0) "".

Definition state (l : list Outfit.t) (f : Filter) : State :=
  mkState l [] "" "date_desc" f None false ∅ None None.

Definition world (l : list Outfit.t) (s : State) (tick : nat) : World :=
  mkWorld (list_to_map ((fun o => (Outfit.id o, o)) <$> l)) s None ∅ 1 tick
    0.

End Sample.


(** The object store files every record under its own [id]
    ([keyPath: "id"]). *)
Definition keyed (m : gmap string Outfit.t) : Prop :=
  forall k o, m !! k = Some o -> Outfit.id o = k.


(** The store after a loop of [put]s of [f o] for the [o] in [l]. *)
Definition putAll (f : Outfit.t -> Outfit.t) (l : list Outfit.t)
    (m : gmap string Outfit.t) : gmap string Outfit.t :=
  foldl (fun m o => <[Outfit.id (f o) := f o]> m) m l.

(** The store after a loop of [delete]s of the ids of the records in
    [l]. *)
Definition deleteAll (l : list Outfit.t) (m : gmap string Outfit.t)
  : gmap string Outfit.t :=
  foldl (fun m o => delete (Outfit.id o) m) m l.

Section ImportNotions.
Context `{Host}.









End ImportNotions.


(** Section 3 of the data model: what every record written by the create
    and edit paths satisfies. *)
Fixpoint hasChar (c : ascii) (s : string) : bool :=
  match s with
  | EmptyString => false
  | String c' r => Ascii.eqb c' c || hasChar c r
  end.

Definition validTag (t : string) : Prop :=
  t <> "" /\ Str.trim t = t /\ Str.toLowerCase t = t /\ hasChar "," t = false.

Record validRecord (r : Outfit.t) : Prop := {
  valid_id : Outfit.id r <> "";
  valid_name : Outfit.name r <> "" /\ Str.trim (Outfit.name r) = Outfit.name r;
  valid_rating : exists j, 0 <= j <= 5 /\ Outfit.rating r = num_of_Z j;
  valid_createdAt : exists t, 0 < t /\ Outfit.createdAt r = num_of_Z t;
  valid_tags : Forall validTag (Outfit.tags r) /\ NoDup (Outfit.tags r)
               /\ (length (Outfit.tags r) <= 20)%nat;
  valid_notes : Str.trim (Outfit.notes r) = Outfit.notes r;
  valid_wearCount : exists n, 0 <= n /\ Outfit.wearCount r = num_of_Z n;
  valid_lastWornAt : exists n, 0 <= n /\ Outfit.lastWornAt r = num_of_Z n
}.

(** Strings joined by a separator, as [Array.prototype.join] does. *)
Fixpoint joinStrings (sep : string) (l : list string) : string :=
  match l with
  | [] => ""
  | s :: rest =>
      match rest with
      | [] => s
      | _ :: _ => s +:+ sep +:+ joinStrings sep rest
      end
  end.



(** Backup documents for the examples. *)
Module Doc.

(** An entry that reuses the id of [Sample.worn]. *)
Definition clash : Json :=
  JObject [ ("id", JString "o_1690000000000_a1");
            ("name", JString "  Borrowed  ");
            ("rating", JNumber 9);
            ("tags", JString "A, b ,a");
            ("imageDataUrl", JString "data:xyz") ].





(** An entry whose wear counter is a text that is no number. *)
Definition uncounted : Json :=
  JObject [ ("id", JString "o_1690000000007_a7");
            ("name", JString "Seldom counted");
            ("createdAt", JNumber 1690000000007);
            ("wearCount", JString "often");
            ("imageDataUrl", JString "data:mno") ].


Definition backup (entries : list Json) : FileText :=
  JsonText (JObject [ ("version", JNumber 1);
                      ("exportedAt", JString "2023-11-14T22:13:20.000Z");
                      ("outfits", JArray entries) ]).


End Doc.


(* ===================================================================== *)
(** ** 13) Detail view: open, save, wear (app.js 1506-1582) *)
(* ===================================================================== *)

(** [tagsToText(tags)] (app.js 872-874): [(tags || []).join(", ")]. *)
Definition tagsToText (tags : list string) : string := joinStrings ", " tags.

(** The inputs of the detail form: [openDetail] assigns to them and
    [saveDetail] reads them.  What is read is what the browser keeps of
    the assignment and of the user's edits (a single-line input drops
    line breaks): [saveDetail] takes it as a parameter.  The title, the
    creation date and the wear labels are display text only. *)
Record DetailForm : Type := mkDetailForm {
  detailName : string;         (* [el.detailName.value] *)
  detailStarsValue : JsVal;    (* [el.detailStars.dataset.value] *)
  detailFav : bool;            (* [el.detailFav.checked] *)
  detailTags : string;         (* [el.detailTags.value] *)
  detailNotes : string         (* [el.detailNotes.value] *)
}.

Section DetailView.
Context `{Host}.
Local Open Scope m_scope.

(** [setDetailRating(n)]: a click on the n-th star, and the initial
    rendering of the stars, store [String(n)] in the data attribute. *)
Definition setDetailRating (n : JsNum) (form : DetailForm) : DetailForm :=
  mkDetailForm (detailName form) (VStr (NumberToString n)) (detailFav form)
    (detailTags form) (detailNotes form).

(** [openDetail(id)]; the result holds the values the function assigns
    to the inputs, or nothing when the record is missing.  The clock is
    read for the date label of a record without creation time. *)
Definition openDetail (id : string) : M (option DetailForm) :=
  found <- dbGetOutfit id ;;
  match found with
  | None => ret None
  | Some outfit =>
      modify (set_app (set_selectedId (Some id))) ;;
      (if Num.truthy (Outfit.createdAt outfit) then ret 0 else Date_now) ;;
      let form := mkDetailForm (Outfit.name outfit) VUndefined
                    (Outfit.favorite outfit) (tagsToText (Outfit.tags outfit))
                    (Outfit.notes outfit) in
      ret (Some (setDetailRating
                   (clampRating (Js.or (VNum (Outfit.rating outfit))
                                   (VNum (Fin 0))))
                   form))
  end.

(** The record [saveDetail] writes:
    [{ ...outfit, name, rating, favorite, tags, notes }]. *)
Definition editedOutfit (outfit : Outfit.t) (name : string) (rating : JsNum)
    (favorite : bool) (tags : list string) (notes : string) : Outfit.t :=
  Outfit.mk (Outfit.id outfit) name rating favorite (Outfit.createdAt outfit)
    (Outfit.imageBlob outfit) tags notes (Outfit.wearCount outfit)
    (Outfit.lastWornAt outfit).

(** [saveDetail()] *)
Definition saveDetail (form : DetailForm) : M unit :=
  state <- gets app ;;
  match selectedId state with
  | None => ret tt
  | Some sid =>
      if String.eqb sid "" then ret tt else
      found <- dbGetOutfit sid ;;
      match found with
      | None => ret tt
      | Some outfit =>
          name <- lift (safeName (VStr (detailName form))) ;;
          let rating :=
            clampRating (Js.or (detailStarsValue form) (VNum (Fin 0))) in
          tags <- lift (parseTags (VStr (detailTags form))) ;;
          notes <- lift (trimmedText (VStr (detailNotes form))) ;;
          dbPutOutfit (editedOutfit outfit name rating (detailFav form)
                         tags notes) ;;
          refresh ;;
          showToast None
      end
  end.

(** The record [saveDetail] puts for the stored record [o]: the name,
    tags and notes are what [safeName], [parseTags] and [trim] return on
    the strings of the form. *)
Definition savedOutfit (o : Outfit.t) (form : DetailForm) : Outfit.t :=
  editedOutfit o
    (if negb (String.eqb (Str.trim (detailName form)) "")
     then Str.trim (detailName form) else "Outfit senza nome")
    (clampRating (Js.or (detailStarsValue form) (VNum (Fin 0))))
    (detailFav form) (cleanTags (detailTags form))
    (Str.trim (detailNotes form)).

(** The record [wearToday] writes:
    [{ ...outfit, wearCount: (outfit.wearCount || 0) + 1,
       lastWornAt: Date.now() }]; the sum is a double. *)
Definition wornOutfit (outfit : Outfit.t) (now : Z) : Outfit.t :=
  Outfit.mk (Outfit.id outfit) (Outfit.name outfit) (Outfit.rating outfit)
    (Outfit.favorite outfit) (Outfit.createdAt outfit)
    (Outfit.imageBlob outfit) (Outfit.tags outfit) (Outfit.notes outfit)
    (Num.plus (Num.or (Outfit.wearCount outfit) (Fin 0)) (Fin 1))
    (num_of_Z now).

(** [wearToday()] *)
Definition wearToday : M unit :=
  state <- gets app ;;
  match selectedId state with
  | None => ret tt
  | Some sid =>
      if String.eqb sid "" then ret tt else
      found <- dbGetOutfit sid ;;
      match found with
      | None => ret tt
      | Some outfit =>
          now <- Date_now ;;
          dbPutOutfit (wornOutfit outfit now) ;;
          refresh ;;
          showToast None
      end
  end.

End DetailView.


(* ===================================================================== *)
(** ** Notions used to state the properties of the catalog view *)
(* ===================================================================== *)

(** The sort key [(o.field || 0)] of the comparator. *)
Definition sortKey (field : Outfit.t -> JsNum) (o : Outfit.t) : JsNum :=
  Num.or (field o) (Fin 0).

(** [a] may be shown before [b] under the sort mode [s]: the key of the
    later record is not on the wrong side of the key of the earlier one.
    The modes that sort by name depend on the host's collation and are
    given no order here, like the unknown modes. *)
Definition shownBefore (s : string) (a b : Outfit.t) : Prop :=
  let descending f := Num.ltb (sortKey f a) (sortKey f b) = false in
  let ascending f := Num.ltb (sortKey f b) (sortKey f a) = false in
  if String.eqb s "fav_first" then
    (Outfit.favorite a = true \/ Outfit.favorite b = false)
    /\ (Outfit.favorite a = Outfit.favorite b
        -> descending Outfit.createdAt)
  else if String.eqb s "date_desc" then descending Outfit.createdAt
  else if String.eqb s "date_asc" then ascending Outfit.createdAt
  else if String.eqb s "rating_desc" then descending Outfit.rating
  else if String.eqb s "rating_asc" then ascending Outfit.rating
  else if String.eqb s "wear_desc" then descending Outfit.wearCount
  else if String.eqb s "wear_asc" then ascending Outfit.wearCount
  else if String.eqb s "lastworn_asc" then ascending Outfit.lastWornAt
  else if String.eqb s "lastworn_desc" then descending Outfit.lastWornAt
  else True.

(** The record [o] passes every criterion that is switched on: the quick
    filters, the tag filter, the search text and the favorites-only
    sort mode. *)
Definition passesFilters (now : Z) (state : State) (o : Outfit.t) : bool :=
  let q := Str.toLowerCase (Str.trim (search state)) in
  let f := filter state in
  (if fav f then Outfit.favorite o else true)
  && (if Num.gtb (minRating f) (Fin 0)
      then Num.geb (Num.or (Outfit.rating o) (Fin 0)) (minRating f)
      else true)
  && (if Num.gtb (staleDays f) (Fin 0)
      then let limit := Num.sub (num_of_Z now) (msPerDay (staleDays f)) in
           let lw := Num.or (Outfit.lastWornAt o) (Fin 0) in
           Num.eqb lw (Fin 0) || Num.ltb lw limit
      else true)
  && (if negb (String.eqb (tag f) "")
      then Str.mem (tag f) (Outfit.tags o) else true)
  && (if negb (String.eqb q "")
      then Str.includes (Str.toLowerCase (Outfit.name o)) q
           || Str.includes (Str.toLowerCase (Outfit.notes o)) q
      else true)
  && (if String.eqb (sort state) "fav_only"
      then Outfit.favorite o else true).


(* ===================================================================== *)
(** ** Thumbnail URL cache (app.js 1087-1108) *)
(* ===================================================================== *)

(** The cache [urlCache] together with the object URLs it has created and
    not revoked.  Object URLs are numbered in the order
    [URL.createObjectURL] hands them out; each of them is a non-empty
    string, hence truthy. *)
Record Thumbs : Type := mkThumbs {
  urlCache : gmap string nat;
  liveURLs : gset nat;
  nextURL : nat
}.

(** [URL.createObjectURL(blob)] *)
Definition createObjectURL (t : Thumbs) : nat * Thumbs :=
  (nextURL t,
   mkThumbs (urlCache t) ({[nextURL t]} ∪ liveURLs t) (S (nextURL t))).

(** [URL.revokeObjectURL(url)] *)
Definition revokeObjectURL (url : nat) (t : Thumbs) : Thumbs :=
  mkThumbs (urlCache t) (liveURLs t ∖ {[url]}) (nextURL t).

(** [urlCache.set(id, url)] and [urlCache.delete(id)] *)
Definition cacheSet (id : string) (url : nat) (t : Thumbs) : Thumbs :=
  mkThumbs (<[id := url]> (urlCache t)) (liveURLs t) (nextURL t).

Definition cacheDelete (id : string) (t : Thumbs) : Thumbs :=
  mkThumbs (delete id (urlCache t)) (liveURLs t) (nextURL t).

(** [getThumbURL(outfit)]; [None] stands for the empty string returned
    for a record without id.  (The image payload of a stored record is
    an object, hence truthy.) *)
Definition getThumbURL (outfit : Outfit.t) (t : Thumbs)
  : option nat * Thumbs :=
  if String.eqb (Outfit.id outfit) "" then (None, t)
  else match urlCache t !! Outfit.id outfit with
       | Some url => (Some url, t)
       | None =>
           let (url, t1) := createObjectURL t in
           (Some url, cacheSet (Outfit.id outfit) url t1)
       end.

(** [revokeThumbURL(id)] *)
Definition revokeThumbURL (id : string) (t : Thumbs) : Thumbs :=
  match urlCache t !! id with
  | None => t
  | Some url => cacheDelete id (revokeObjectURL url t)
  end.

(** One turn of the loop of [keepOnlyThumbs]. *)
Definition dropUnlessKept (ids : gset string) (t : Thumbs)
    (entry : string * nat) : Thumbs :=
  if decide (entry.1 ∈ ids) then t
  else cacheDelete entry.1 (revokeObjectURL entry.2 t).

(** [keepOnlyThumbs(idsSet)]: the loop runs over the entries the cache
    holds when it starts; the order of the entries does not matter. *)
Definition keepOnlyThumbs (ids : gset string) (t : Thumbs) : Thumbs :=
  foldl (dropUnlessKept ids) t (map_to_list (urlCache t)).

(** The calls [getThumbURL(outfit)] of the card loop of [renderGrid]. *)
Fixpoint thumbsOf (items : list Outfit.t) (t : Thumbs)
  : list (option nat) * Thumbs :=
  match items with
  | [] => ([], t)
  | o :: rest =>
      let (url, t1) := getThumbURL o t in
      let (urls, t2) := thumbsOf rest t1 in
      (url :: urls, t2)
  end.

(** What [renderGrid] does to the cache for the visible [items]
    (app.js 1290 and 1316). *)
Definition renderGridThumbs (items : list Outfit.t) (t : Thumbs)
  : list (option nat) * Thumbs :=
  thumbsOf items (keepOnlyThumbs (list_to_set (Outfit.id <$> items)) t).

(** The cache and the live object URLs agree: every cached URL is live,
    every live URL is cached under exactly one id, and no URL handed out
    so far will be handed out again. *)
Record thumbs_ok (t : Thumbs) : Prop := {
  cached_live : forall id url, urlCache t !! id = Some url -> url ∈ liveURLs t;
  live_cached : forall url, url ∈ liveURLs t ->
                  exists id, urlCache t !! id = Some url;
  cached_once : forall id1 id2 url,
                  urlCache t !! id1 = Some url ->
                  urlCache t !! id2 = Some url -> id1 = id2;
  live_old : forall url, url ∈ liveURLs t -> (url < nextURL t)%nat
}.


(* ===================================================================== *)
(** ** 9) Tag chips (app.js 1207-1211) *)
(* ===================================================================== *)

Section TagChips.
Context `{Host}.

(** [collectAllTags(outfits)]: the tags in order of first occurrence,
    sorted with [localeCompare], cut to 40. *)
Definition collectAllTags (outfits : list Outfit.t) : list string :=
  take 40
    (Array_sort localeCompare
       (Str.uniq (concat (Outfit.tags <$> outfits)))).

End TagChips.


(* ===================================================================== *)
(** ** 16), 17) and 19) Select mode, filter chips and event wiring
       (app.js 1347-1382, 1757-1767, 1832-1861, 1883-2011) *)
(* ===================================================================== *)

Definition set_search (q : string) (s : State) : State :=
  mkState (outfits s) (filtered s) q (sort s) (filter s) (selectedId s)
    (selectMode s) (selectedSet s) (lastDeleted s) (undoTimer s).

Definition set_sort (m : string) (s : State) : State :=
  mkState (outfits s) (filtered s) (search s) m (filter s) (selectedId s)
    (selectMode s) (selectedSet s) (lastDeleted s) (undoTimer s).

Definition set_filter (f : Filter) (s : State) : State :=
  mkState (outfits s) (filtered s) (search s) (sort s) f (selectedId s)
    (selectMode s) (selectedSet s) (lastDeleted s) (undoTimer s).

Definition set_selectedSet (sel : gset string) (s : State) : State :=
  mkState (outfits s) (filtered s) (search s) (sort s) (filter s)
    (selectedId s) (selectMode s) sel (lastDeleted s) (undoTimer s).

Section Handlers.
Context `{Host}.
Local Open Scope m_scope.

(** The search box: [state.search = el.searchInput.value || ""]. *)
Definition onSearch (value : string) : M unit :=
  modify (set_app (set_search value)) ;;
  renderGrid.

(** The sort selector: [state.sort = el.sortSelect.value]. *)
Definition onSortChange (value : string) : M unit :=
  modify (set_app (set_sort value)) ;;
  renderGrid.

(** [setTagFilter(tag)] and [clearTagFilter()] *)
Definition setTagFilter (t : string) : M unit :=
  modify (set_app (fun s =>
    set_filter (mkFilter (fav (filter s)) (minRating (filter s))
                  (staleDays (filter s)) t) s)) ;;
  renderGrid.

Definition clearTagFilter : M unit := setTagFilter "".

(** [setQuickFilter({ fav, minRating, staleDays })] for a boolean and two
    numbers, as at its three call sites. *)
Definition setQuickFilter (f : bool) (minR stale : JsNum) : M unit :=
  modify (set_app (fun s =>
    set_filter (mkFilter f (Num.or minR (Fin 0)) (Num.or stale (Fin 0))
                  (tag (filter s))) s)) ;;
  renderGrid.

(** The chips "Preferiti", "4+" and "Non usati da 30 giorni". *)
Definition clickFilterFav : M unit :=
  state <- gets app ;;
  let f := filter state in
  setQuickFilter (negb (fav f)) (minRating f) (staleDays f).

Definition clickFilter4plus : M unit :=
  state <- gets app ;;
  let f := filter state in
  setQuickFilter (fav f)
    (if Num.eqb (minRating f) (Fin 4) then Fin 0 else Fin 4) (staleDays f).

Definition clickFilterStale : M unit :=
  state <- gets app ;;
  let f := filter state in
  setQuickFilter (fav f) (minRating f)
    (if Num.eqb (staleDays f) (Fin 30) then Fin 0 else Fin 30).

(** The chip "Tutti":
    [state.filter = { fav:false, minRating:0, staleDays:0, tag:"" }]. *)
Definition clickFilterAll : M unit :=
  modify (set_app (set_filter (mkFilter false (Fin 0) (Fin 0) ""))) ;;
  renderGrid.

(** [toggleSelectMode()] *)
Definition toggleSelectMode : M unit :=
  state <- gets app ;;
  enableSelectMode (negb (selectMode state)) ;;
  state <- gets app ;;
  if selectMode state then showToast None else ret tt.

(** The closure [toggleSelection] of the card of the record [id]. *)
Definition toggleSelection (id : string) : M unit :=
  modify (set_app (fun s =>
    set_selectedSet (if decide (id ∈ selectedSet s)
                     then selectedSet s ∖ {[id]}
                     else {[id]} ∪ selectedSet s) s)) ;;
  renderGrid.

(** A click (or Enter, or Space) on the card of the record [id]. *)
Definition cardClick (id : string) : M unit :=
  state <- gets app ;;
  if selectMode state then toggleSelection id
  else (openDetail id ;; ret tt).

(** The long-press timer of the card of the record [id] fires. *)
Definition cardLongPress (id : string) : M unit :=
  enableSelectMode true ;;
  modify (set_app (fun s => set_selectedSet ({[id]} ∪ selectedSet s) s)) ;;
  renderGrid ;;
  showToast None.

(** [bulkExportSelected()]; the result is the text of the file offered
    for download, if any. *)
Definition bulkExportSelected : M (option FileText) :=
  state <- gets app ;;
  if decide (size (selectedSet state) = 0%nat) then ret None
  else (text <- exportOutfits (selectedOutfits state) ;; ret (Some text)).

(** The export button: [exportOutfits(await dbGetAllOutfits())]. *)
Definition exportAll : M FileText :=
  all <- dbGetAllOutfits ;;
  exportOutfits all.

(** The import input: nothing without a file; a failed import is
    reported by an alert and otherwise ignored. *)
Definition onImportFile (file : option FileText) : M unit :=
  match file with
  | None => ret tt
  | Some text => catch (importOutfitsFromFile text) (fun _ => ret tt)
  end.

End Handlers.

(** What the user, the timers and the page load can make the application
    do. *)
Inductive Event : Type :=
| EvLoad                                   (* [refresh()] of [init] *)
| EvCreate (file : option Blob) (form : CreateForm)
| EvSearch (value : string)
| EvSort (value : string)
| EvFilterAll
| EvFilterFav
| EvFilter4plus
| EvFilterStale
| EvTag (t : string)
| EvClearTag
| EvToggleSelectMode
| EvBulkDone
| EvBulkFav
| EvBulkDelete
| EvBulkExport
| EvCardClick (id : string)
| EvCardLongPress (id : string)
| EvCloseDetail
| EvSaveDetail (form : DetailForm)
| EvWearToday
| EvDeleteDetail
| EvToastAction
| EvUndoTimer (t : nat)
| EvExportAll
| EvImport (file : option FileText)
| EvSaveSettings.                         (* the toast of the settings form *)

Section Events.
Context `{Host}.
Local Open Scope m_scope.

(** The listener each event runs (app.js 1883-2011).  Cards offer the
    ids of the visible records; the forms may hold any text.  The Escape
    key runs [closeDetailModal] or [enableSelectMode(false)], which have
    events of their own; the listeners that touch the page only (opening
    and closing the other modals, the previews, sharing, installing) have
    none. *)
Definition handle (e : Event) : M unit :=
  match e with
  | EvLoad => refresh
  | EvCreate file form => confirmCreateSave file form
  | EvSearch value => onSearch value
  | EvSort value => onSortChange value
  | EvFilterAll => clickFilterAll
  | EvFilterFav => clickFilterFav
  | EvFilter4plus => clickFilter4plus
  | EvFilterStale => clickFilterStale
  | EvTag t => setTagFilter t
  | EvClearTag => clearTagFilter
  | EvToggleSelectMode => toggleSelectMode
  | EvBulkDone => enableSelectMode false
  | EvBulkFav => bulkToggleFavorite
  | EvBulkDelete => bulkDeleteWithUndo
  | EvBulkExport => bulkExportSelected ;; ret tt
  | EvCardClick id => cardClick id
  | EvCardLongPress id => cardLongPress id
  | EvCloseDetail => closeDetailModal
  | EvSaveDetail form => saveDetail form
  | EvWearToday => wearToday
  | EvDeleteDetail => deleteDetailWithUndo
  | EvToastAction => clickToastAction
  | EvUndoTimer t => undoTimerFires t
  | EvExportAll => exportAll ;; ret tt
  | EvImport file => onImportFile file
  | EvSaveSettings => showToast None
  end.

(** The world after a sequence of events; a listener that throws leaves
    the world as it was when it threw. *)
Definition run (events : list Event) (w : World) : World :=
  foldl (fun w e => snd (handle e w)) w events.

End Events.

(** The world when the script starts, over the store [m] left by earlier
    sessions (app.js 1059-1085). *)
Definition startWorld (m : gmap string Outfit.t) (tick : nat) : World :=
  mkWorld m (mkState [] [] "" "date_desc" (mkFilter false (Fin 0) (Fin 0) "")
               None false ∅ None None) None ∅ 1 tick 0.

(** The fields of a record that every writer validates: a non-empty id,
    a non-empty trimmed name, an integral rating from 0 to 5, at most 20
    distinct clean tags, trimmed notes. *)
Record checkedRecord (r : Outfit.t) : Prop := {
  checked_id : Outfit.id r <> "";
  checked_name :
    Outfit.name r <> "" /\ Str.trim (Outfit.name r) = Outfit.name r;
  checked_rating : exists j, 0 <= j <= 5 /\ Outfit.rating r = num_of_Z j;
  checked_tags : Forall validTag (Outfit.tags r) /\ NoDup (Outfit.tags r)
                 /\ (length (Outfit.tags r) <= 20)%nat;
  checked_notes : Str.trim (Outfit.notes r) = Outfit.notes r
}.

(** The records the application holds outside the store: the snapshot,
    the record remembered for undo, the records of a bulk undo. *)
Definition heldRecords (w : World) : list Outfit.t :=
  outfits (app w)
  ++ match lastDeleted (app w) with Some o => [o] | None => [] end
  ++ match toastAction w with
     | Some (UndoBulk deleted) => deleted
     | _ => []
     end.

(** What holds of the world between two events. *)
Record consistent `{Host} (w : World) : Prop := {
  (* the store files every record under its id, and every record in the
     store or held by the application has checked fields *)
  store_keyed : keyed (db w);
  store_checked : forall k r, db w !! k = Some r -> checkedRecord r;
  held_checked : forall r, r ∈ heldRecords w -> checkedRecord r;
  (* the snapshot has no two records with one id, and the visible list is
     the view of the snapshot under the current criteria *)
  snapshot_ids : NoDup (Outfit.id <$> outfits (app w));
  view_current : exists now, filtered (app w) = visibleOutfits now (app w);
  (* nothing is selected outside select mode *)
  selection_mode : selectMode (app w) = false -> selectedSet (app w) = ∅;
  (* the only pending undo timer is the one recorded, its handle will not
     be handed out again, and a remembered deletion has a pending timer *)
  timer_recorded : forall t, t ∈ timers w -> undoTimer (app w) = Some t;
  timer_fresh : forall t, undoTimer (app w) = Some t -> (t < nextTimer w)%nat;
  undo_expires : is_Some (lastDeleted (app w)) ->
                 exists t, undoTimer (app w) = Some t /\ t ∈ timers w
}.


(** The values the quick-filter chips give to the two numeric criteria
    (app.js 1934-1942). *)
Definition chipValues (f : Filter) : Prop :=
  (minRating f = Fin 0 \/ minRating f = Fin 4)
  /\ (staleDays f = Fin 0 \/ staleDays f = Fin 30).

(** The computation [c] leaves [state.filter] as it finds it, whether it
    returns or throws. *)
Definition keepsFilter {A : Type} (c : M A) : Prop :=
  forall w, filter (app (snd (c w))) = filter (app w).


(** The snapshot [state.outfits] lists what the store holds. *)
Definition synced (w : World) : Prop := outfits (app w) = getAll (db w).

(** What a computation does to the store and the snapshot, whether it
    returns or throws: it leaves both alone, it never throws, it keeps
    them in step, it brings them in step. *)
Definition keepsData {A : Type} (c : M A) : Prop :=
  forall w, db (snd (c w)) = db w
            /\ outfits (app (snd (c w))) = outfits (app w).

Definition neverThrows {A : Type} (c : M A) : Prop :=
  forall w, exists a, fst (c w) = Ok a.

Definition syncs {A : Type} (c : M A) : Prop :=
  forall w, synced w -> synced (snd (c w)).

Definition resyncs {A : Type} (c : M A) : Prop :=
  forall w, synced (snd (c w)).

Definition isImport (e : Event) : bool :=
  match e with EvImport _ => true | _ => false end.


(* ===================================================================== *)
(** ** Starting the create form (app.js 1408-1437) *)
(* ===================================================================== *)

(** A character the class [[^/.]] accepts. *)
Definition extChar (c : ascii) : bool :=
  negb (Ascii.eqb c "/") && negb (Ascii.eqb c ".").

Fixpoint allExtChars (s : string) : bool :=
  match s with
  | EmptyString => true
  | String c r => extChar c && allExtChars r
  end.

(** [[^/.]+$] matches the whole of [s]. *)
Definition isExtension (s : string) : bool :=
  negb (String.eqb s "") && allExtChars s.

(** [name.replace(/\.[^/.]+$/, "")]: the text is cut at the first
    position where the pattern matches up to the end. *)
Fixpoint stripExtension (s : string) : string :=
  match s with
  | EmptyString => EmptyString
  | String c r =>
      if Ascii.eqb c "." && isExtension r then EmptyString
      else String c (stripExtension r)
  end.

(** [startCreateFromFile(file)] for a file called [fileName]: what it
    writes into the create form.  The file itself goes to
    [createState.file], from where [confirmCreateSave] takes it. *)
Definition startCreateFromFile (fileName : string) : CreateForm :=
  let baseName := if negb (String.eqb fileName "")
                  then stripExtension fileName else "" in
  mkCreateForm baseName (VStr "0") false "" "" true.


(* ===================================================================== *)
(** ** The first revision of the script (app.js 1-695) *)
(* ===================================================================== *)

Module V1.

(** A stored record: [{ id, name, rating, favorite, createdAt,
    imageBlob }].  The index on [favorite] came with version 2 of the
    database: a record written before that has no [favorite]. *)
Record Outfit : Type := mkOutfit {
  id : string;
  name : string;
  rating : JsNum;
  favorite : option bool;
  createdAt : JsNum;
  imageBlob : Blob
}.

(** [!!o.favorite] *)
Definition isFavorite (o : Outfit) : bool :=
  match favorite o with
  | Some b => b
  | None => false
  end.

(** [{ ...o, favorite: f }] and [{ ...o, name: n, rating: r }] *)
Definition with_favorite (o : Outfit) (f : bool) : Outfit :=
  mkOutfit (id o) (name o) (rating o) (Some f) (createdAt o) (imageBlob o).

Definition with_name_rating (o : Outfit) (n : string) (r : JsNum) : Outfit :=
  mkOutfit (id o) n r (favorite o) (createdAt o) (imageBlob o).

(** The [state] object (app.js 225-233), without the object URL of the
    detail image and the settings. *)
Record State : Type := mkState {
  outfits : list Outfit;
  filtered : list Outfit;
  selectedId : option string;
  search : string;
  sort : string
}.

(** The object store, the state, and the number of clock and random
    queries made so far. *)
Record World : Type := mkWorld {
  db : gmap string Outfit;
  state : State;
  tick : nat
}.

Definition key_le (a b : Outfit) : Prop :=
  String.leb (id a) (id b) = true.

#[local] Instance key_le_dec a b : Decision (key_le a b).
Proof. unfold key_le. apply _. Defined.

(** [store.getAll()]: the records in ascending key order. *)
Definition getAll (m : gmap string Outfit) : list Outfit :=
  merge_sort key_le (snd <$> map_to_list m).

Section Script.
Context `{Host}.

(** The comparator of [applyFiltersAndSort] (app.js 297-312). *)
Definition compareOutfits (s : string) (a b : Outfit) : JsNum :=
  let af := bool_num (isFavorite a) in
  let bf := bool_num (isFavorite b) in
  let rated o := Num.or (rating o) (Fin 0) in
  if String.eqb s "fav_first" then
    if negb (Num.eqb bf af) then Num.sub bf af
    else Num.sub (createdAt b) (createdAt a)
  else if String.eqb s "date_desc" then Num.sub (createdAt b) (createdAt a)
  else if String.eqb s "date_asc" then Num.sub (createdAt a) (createdAt b)
  else if String.eqb s "rating_desc" then Num.sub (rated b) (rated a)
  else if String.eqb s "rating_asc" then Num.sub (rated a) (rated b)
  else if String.eqb s "name_asc" then localeCompare (name a) (name b)
  else if String.eqb s "name_desc" then localeCompare (name b) (name a)
  else Fin 0.

(** The value [applyFiltersAndSort] assigns to [state.filtered]
    (app.js 282-315). *)
Definition visibleOutfits (st : State) : list Outfit :=
  let q := Str.toLowerCase (Str.trim (search st)) in
  let arr := outfits st in
  let arr := if negb (String.eqb q "")
             then List.filter
                    (fun o => Str.includes (Str.toLowerCase (name o)) q) arr
             else arr in
  let s := sort st in
  let arr := if String.eqb s "fav_only"
             then List.filter isFavorite arr else arr in
  Array_sort (compareOutfits s) arr.

(** [renderGrid()], as far as the state is concerned. *)
Definition renderGrid (w : World) : World :=
  mkWorld (db w)
    (mkState (outfits (state w)) (visibleOutfits (state w))
       (selectedId (state w)) (search (state w)) (sort (state w)))
    (tick w).

(** [refresh()] (app.js 620-628) *)
Definition refresh (w : World) : World :=
  renderGrid
    (mkWorld (db w)
       (mkState (getAll (db w)) (filtered (state w)) (selectedId (state w))
          (search (state w)) (sort (state w)))
       (tick w)).

Definition set_selectedId (i : option string) (w : World) : World :=
  mkWorld (db w)
    (mkState (outfits (state w)) (filtered (state w)) i (search (state w))
       (sort (state w)))
    (tick w).

Definition set_db (m : gmap string Outfit) (w : World) : World :=
  mkWorld m (state w) (tick w).

(** [closeDetailModal()] (app.js 396-405) *)
Definition closeDetailModal (w : World) : World := set_selectedId None w.

(** [openDetail(id)] (app.js 428-456) *)
Definition openDetail (i : string) (w : World) : World :=
  match db w !! i with
  | None => w
  | Some _ => set_selectedId (Some i) w
  end.

(** [saveDetail()] (app.js 458-477), given the texts of the name field
    and of the star widget. *)
Definition saveDetail (nameText : string) (stars : JsVal) (w : World)
  : Res unit * World :=
  match selectedId (state w) with
  | None => (Ok tt, w)
  | Some sid =>
      if String.eqb sid "" then (Ok tt, w) else
      match db w !! sid with
      | None => (Ok tt, w)
      | Some outfit =>
          match safeName (VStr nameText) with
          | Throw e => (Throw e, w)
          | Ok newName =>
              let newRating := clampRating (Js.or stars (VNum (Fin 0))) in
              let updated := with_name_rating outfit newName newRating in
              (Ok tt, refresh (set_db (<[id updated := updated]> (db w)) w))
          end
      end
  end.



(** [addOutfitFromFile(file)] (app.js 540-562) for a file called
    [fileName].  The conversion runs before the [try]: its rejection is
    the rejection of the call.  [uid()] reads the clock and draws the
    random fraction, [Date.now()] reads the clock again; a failing [add]
    is caught and reported with an alert. *)
Definition addOutfitFromFile (fileName : string) (file : Blob) (w : World)
  : Res unit * World :=
  match fileToSafeJpegBlob file 1600 (9 # 10) with
  | Throw e => (Throw e, w)
  | Ok safeBlob =>
      let outfit :=
        mkOutfit (uid (dateNow (tick w)) (randomHex (S (tick w))))
          (if negb (String.eqb fileName "") then stripExtension fileName
           else "Nuovo outfit")
          (Fin 0) (Some false) (num_of_Z (dateNow (S (S (tick w)))))
          safeBlob in
      let w1 := mkWorld (db w) (state w) (S (S (S (tick w)))) in
      match db w !! id outfit with
      | Some _ => (Ok tt, w1)
      | None => (Ok tt, refresh (set_db (<[id outfit := outfit]> (db w)) w1))
      end
  end.

(** The listener of the file input (app.js 647-653):
    [for (const f of files) await addOutfitFromFile(f)]. *)
Fixpoint onFilesChosen (files : list (string * Blob)) (w : World)
  : Res unit * World :=
  match files with
  | [] => (Ok tt, w)
  | (fileName, file) :: rest =>
      match addOutfitFromFile fileName file w with
      | (Ok _, w') => onFilesChosen rest w'
      | (Throw e, w') => (Throw e, w')
      end
  end.

End Script.

End V1.


(** The object store never fails a request of this host. *)
Definition reliableStore `{Host} : Prop := forall n, storeFails n = false.

(** The largest relative error of a rounding to double precision. *)
Definition ulp53 : Q := 1 # 9007199254740992.

(** Nothing is selected outside select mode. *)
Definition selectionInMode (w : World) : Prop :=
  selectMode (app w) = false -> selectedSet (app w) = ∅.

(** The computation [c] keeps [P]: started where [P] holds it ends, by a
    return or by a throw, where [P] holds. *)
Definition preserves {A : Type} (P : World -> Prop) (c : M A) : Prop :=
  forall w, P w -> P (snd (c w)).

(* ===================================================================== *)
(** * Properties *)
(* ===================================================================== *)

(** ** Numbers *)

Lemma Qfloor_int_half (k : Z) : Qfloor (inject_Z k + (1 # 2)) = k.
Proof.
  unfold Qfloor, Qplus, inject_Z. simpl.
  symmetry. apply (Z.div_unique _ _ k 1); lia.
Qed.

Lemma Qle_bool_inject (a b : Z) :
  Qle_bool (inject_Z a) (inject_Z b) = (a <=? b)%Z.
Proof.
  unfold Qle_bool, inject_Z. simpl. now rewrite !Z.mul_1_r.
Qed.

(** Clamping an integral value into 0..5. *)
Lemma clamp_int (f : Z) :
  Num.min (Fin 5) (Num.max (Fin 0) (num_of_Z f))
  = num_of_Z (Z.min 5 (Z.max 0 f)).
Proof.
  unfold num_of_Z, Num.max.
  change 0%Q with (inject_Z 0). rewrite Qle_bool_inject.
  destruct (Z.leb_spec 0 f) as [Hf | Hf].
  - rewrite (Z.max_r 0 f) by lia. unfold Num.min.
    change 5%Q with (inject_Z 5). rewrite Qle_bool_inject.
    destruct (Z.leb_spec 5 f).
    + now rewrite Z.min_l by lia.
    + now rewrite Z.min_r by lia.
  - rewrite (Z.max_l 0 f) by lia. reflexivity.
Qed.

Section HelperFacts.
Context `{Host}.

Lemma clampRating_finite (n : JsVal) (q : Q) :
  Js.Number n = Fin q ->
  clampRating n = num_of_Z (Z.min 5 (Z.max 0 (Qfloor (q + (1 # 2))))).
Proof.
  intros Hn. unfold clampRating. rewrite Hn. simpl.
  apply (clamp_int (Qfloor (q + (1 # 2)))).
Qed.

Lemma clampRating_not_finite (n : JsVal) :
  Num.isFinite (Js.Number n) = false -> clampRating n = num_of_Z 0.
Proof. intros Hn. unfold clampRating. now rewrite Hn. Qed.

Lemma clampRating_int (k : Z) :
  0 <= k <= 5 -> clampRating (VNum (num_of_Z k)) = num_of_Z k.
Proof.
  intros Hk.
  rewrite (clampRating_finite _ (inject_Z k)) by reflexivity.
  rewrite Qfloor_int_half. f_equal. lia.
Qed.

Lemma clampRating_cases (n : JsVal) :
  exists k : Z, clampRating n = num_of_Z k /\ 0 <= k <= 5.
Proof.
  destruct (Js.Number n) as [q | | | ] eqn:Hn.
  - eexists. split; [apply (clampRating_finite _ _ Hn) | lia].
  - exists 0. split; [apply clampRating_not_finite; now rewrite Hn | lia].
  - exists 0. split; [apply clampRating_not_finite; now rewrite Hn | lia].
  - exists 0. split; [apply clampRating_not_finite; now rewrite Hn | lia].
Qed.

End HelperFacts.

(** C9.  Whatever value [clampRating] receives (a number in or out of
    range, a fraction, NaN or an infinity, or a value that is not a
    number at all), the result is an integer between 0 and 5, and clamping
    the result again returns it unchanged. *)
Theorem clampRating_range_idempotent `{Host} (x : JsVal) :
  (exists k : Z, clampRating x = num_of_Z k /\ 0 <= k <= 5)
  /\ clampRating (VNum (clampRating x)) = clampRating x.
Proof.
  destruct (clampRating_cases x) as (k & Hk & Hr).
  split.
  - now exists k.
  - rewrite Hk. now apply clampRating_int.
Qed.

(** ** Strings and tags *)

Lemma lower_char_idem (c : ascii) :
  Str.lower_char (Str.lower_char c) = Str.lower_char c.
Proof.
  destruct c as [[] [] [] [] [] [] [] []]; vm_compute; reflexivity.
Qed.

Lemma toLowerCase_idem (s : string) :
  Str.toLowerCase (Str.toLowerCase s) = Str.toLowerCase s.
Proof.
  induction s as [| c r IH]; simpl; [reflexivity |].
  now rewrite lower_char_idem, IH.
Qed.

Lemma toLowerCase_nonempty (s : string) :
  Str.toLowerCase s = "" -> s = "".
Proof. destruct s; simpl; [reflexivity | discriminate]. Qed.

Lemma mem_spec (x : string) (l : list string) :
  Str.mem x l = true <-> x ∈ l.
Proof.
  unfold Str.mem. rewrite existsb_exists. split.
  - intros (y & Hy & Heq). apply String.eqb_eq in Heq. subst.
    now apply list_elem_of_In.
  - intros Hin. exists x. split; [now apply list_elem_of_In |].
    apply String.eqb_refl.
Qed.

Lemma mem_false (x : string) (l : list string) :
  Str.mem x l = false <-> x ∉ l.
Proof.
  rewrite <- mem_spec. destruct (Str.mem x l); split; congruence.
Qed.

Lemma uniq_from_elem (seen l : list string) (x : string) :
  x ∈ Str.uniq_from seen l <-> x ∈ l /\ x ∉ seen.
Proof.
  revert seen. induction l as [| y r IH]; intros seen; simpl.
  - split; [intros Hx; inversion Hx | intros [Hx _]; inversion Hx].
  - destruct (Str.mem y seen) eqn:Hm.
    + apply mem_spec in Hm. rewrite IH, elem_of_cons.
      destruct (decide (x = y)) as [-> | Hne]; tauto.
    + apply mem_false in Hm.
      rewrite elem_of_cons, IH, not_elem_of_cons, elem_of_cons.
      destruct (decide (x = y)) as [-> | Hne]; tauto.
Qed.

Lemma uniq_from_NoDup (seen l : list string) :
  NoDup (Str.uniq_from seen l).
Proof.
  revert seen. induction l as [| y r IH]; intros seen; simpl.
  - constructor.
  - destruct (Str.mem y seen) eqn:Hm; [apply IH |].
    constructor; [| apply IH].
    rewrite uniq_from_elem, not_elem_of_cons. tauto.
Qed.

Lemma uniq_elem (l : list string) (x : string) : x ∈ Str.uniq l <-> x ∈ l.
Proof.
  unfold Str.uniq. rewrite uniq_from_elem.
  split; [tauto | intros Hx; split; [exact Hx | apply not_elem_of_nil]].
Qed.

Section TagFacts.
Context `{Host}.

Lemma string_or_empty_str (s : string) : string_or_empty (VStr s) = Ok s.
Proof.
  unfold string_or_empty, Js.or. simpl.
  destruct (String.eqb_spec s ""); simpl; congruence.
Qed.

Lemma parseTags_str (s : string) : parseTags (VStr s) = Ok (cleanTags s).
Proof. unfold parseTags. now rewrite string_or_empty_str. Qed.

Lemma cleanTags_elem (s t : string) :
  t ∈ cleanTags s -> t <> "" /\ Str.toLowerCase t = t.
Proof.
  unfold cleanTags. intros Ht.
  apply elem_of_take in Ht as (i & Ht & _).
  apply list_elem_of_lookup_2 in Ht.
  apply uniq_elem, list_elem_of_In, filter_In in Ht as [Hin Hne].
  apply in_map_iff in Hin as (x & <- & _).
  split.
  - intros Heq. rewrite Heq in Hne. discriminate.
  - apply toLowerCase_idem.
Qed.

Lemma cleanTags_NoDup (s : string) : NoDup (cleanTags s).
Proof.
  unfold cleanTags.
  eapply sublist_NoDup; [apply uniq_from_NoDup | apply sublist_take].
Qed.

Lemma cleanTags_length (s : string) : (length (cleanTags s) <= 20)%nat.
Proof. unfold cleanTags. rewrite length_take. lia. Qed.

End TagFacts.

(** C10.  On every raw tag string [parseTags] returns (it does not throw)
    a list whose entries are non-empty and in lower case, that has no
    duplicate and at most 20 entries. *)
Theorem parseTags_invariant `{Host} (raw : string) :
  exists l : list string,
    parseTags (VStr raw) = Ok l
    /\ Forall (fun t => t <> "" /\ Str.toLowerCase t = t) l
    /\ NoDup l
    /\ (length l <= 20)%nat.
Proof.
  exists (cleanTags raw). split; [apply parseTags_str |].
  split; [| split].
  - apply Forall_forall. intros t Ht. now apply (cleanTags_elem raw).
  - apply cleanTags_NoDup.
  - apply cleanTags_length.
Qed.

(** ** Image normalizer *)

Section ScaleFacts.
Local Open Scope Q_scope.

Lemma inject_lt (a b : Z) : (a < b)%Z -> inject_Z a < inject_Z b.
Proof. intros Hab. rewrite <- Zlt_Qlt. exact Hab. Qed.

Lemma inject_le (a b : Z) : (a <= b)%Z -> inject_Z a <= inject_Z b.
Proof. intros Hab. rewrite <- Zle_Qle. exact Hab. Qed.

Lemma inject_lt_inv (a b : Z) : inject_Z a < inject_Z b -> (a < b)%Z.
Proof. intros Hab. rewrite Zlt_Qlt. exact Hab. Qed.

Lemma two_neq_0 : ~ 2 == 0.
Proof. discriminate. Qed.

Lemma pow2_pos (e : Z) : 0 < 2 ^ e.
Proof. apply Qpower_0_lt. reflexivity. Qed.

Lemma pow2_Z (a : Z) : (0 <= a)%Z -> inject_Z (2 ^ a) == 2 ^ a.
Proof. intros Ha. now rewrite Zpower_Qpower. Qed.

Lemma pow2_succ (e : Z) : 2 ^ (e + 1) == 2 * 2 ^ e.
Proof. rewrite Qpower_plus by apply two_neq_0. rewrite Qpower_1_r. ring. Qed.

Lemma div_mul_ge (P R D : Q) :
  0 < P -> 0 < R -> R <= D -> P <= P / R * D.
Proof.
  intros HP HR HD. unfold Qdiv.
  assert (Hi : 0 < / R) by now apply Qinv_lt_0_compat.
  assert (E : / R * R == 1) by (rewrite Qmult_comm; apply Qmult_inv_r; lra).
  assert (H1 : / R * R <= / R * D) by (apply Qmult_le_l; assumption).
  assert (H2 : P * 1 <= P * (/ R * D)) by (apply Qmult_le_l; lra).
  lra.
Qed.

Lemma div_mul_le (P R D : Q) :
  0 < P -> 0 < R -> D <= R -> P / R * D <= P.
Proof.
  intros HP HR HD. unfold Qdiv.
  assert (Hi : 0 < / R) by now apply Qinv_lt_0_compat.
  assert (E : / R * R == 1) by (rewrite Qmult_comm; apply Qmult_inv_r; lra).
  assert (H1 : / R * D <= / R * R) by (apply Qmult_le_l; assumption).
  assert (H2 : P * (/ R * D) <= P * 1) by (apply Qmult_le_l; lra).
  lra.
Qed.

Lemma binade_spec (q : Q) :
  0 < q -> 2 ^ Num.binade q <= q /\ q < 2 ^ (Num.binade q + 1).
Proof.
  intros Hq. destruct q as [n d]. unfold Num.binade. cbn [Qnum Qden].
  assert (Hn : (0 < n)%Z).
  { unfold Qlt in Hq. cbn in Hq. lia. }
  pose proof (Z.log2_spec n Hn) as [Hn1 Hn2].
  pose proof (Z.log2_spec (Zpos d) (Pos2Z.is_pos d)) as [Hd1 Hd2].
  pose proof (Z.log2_nonneg n) as Hln.
  pose proof (Z.log2_nonneg (Zpos d)) as Hld.
  set (ln := Z.log2 n) in *. set (ld := Z.log2 (Zpos d)) in *.
  unfold Z.succ in Hn2, Hd2.
  assert (Hq' : n # d == inject_Z n / inject_Z (Zpos d)) by apply Qmake_Qdiv.
  assert (Hdq : 0 < inject_Z (Zpos d)) by reflexivity.
  assert (Hn1q : 2 ^ ln <= inject_Z n).
  { rewrite <- pow2_Z by lia. rewrite <- Zle_Qle. exact Hn1. }
  assert (Hn2q : inject_Z n < 2 ^ (ln + 1)).
  { rewrite <- pow2_Z by lia. rewrite <- Zlt_Qlt. exact Hn2. }
  assert (Hd1q : 2 ^ ld <= inject_Z (Zpos d)).
  { rewrite <- pow2_Z by lia. rewrite <- Zle_Qle. exact Hd1. }
  assert (Hd2q : inject_Z (Zpos d) <= 2 ^ (ld + 1)).
  { rewrite <- pow2_Z by lia. rewrite <- Zle_Qle. lia. }
  assert (Hup : n # d < 2 ^ (ln - ld + 1)).
  { rewrite Hq'. apply Qlt_shift_div_r; [exact Hdq |].
    replace (ln - ld + 1)%Z with ((ln + 1) - ld)%Z by lia.
    rewrite Qpower_minus by apply two_neq_0.
    eapply Qlt_le_trans; [exact Hn2q |].
    apply div_mul_ge; [apply pow2_pos | apply pow2_pos | exact Hd1q]. }
  assert (Hlow : 2 ^ (ln - ld - 1) <= n # d).
  { rewrite Hq'. apply Qle_shift_div_l; [exact Hdq |].
    replace (ln - ld - 1)%Z with (ln - (ld + 1))%Z by lia.
    rewrite Qpower_minus by apply two_neq_0.
    eapply Qle_trans; [| exact Hn1q].
    apply div_mul_le; [apply pow2_pos | apply pow2_pos | exact Hd2q]. }
  destruct (Qle_bool (2 ^ (ln - ld)) (n # d)) eqn:Hb.
  - apply Qle_bool_iff in Hb. split; [exact Hb | exact Hup].
  - split; [exact Hlow |].
    replace (ln - ld - 1 + 1)%Z with (ln - ld)%Z by lia.
    apply Qnot_le_lt. intros Hle. apply Qle_bool_iff in Hle. congruence.
Qed.

Lemma roundEven_near (q : Q) :
  inject_Z (Num.roundEven q) - q <= 1 # 2 /\ q - inject_Z (Num.roundEven q) <= 1 # 2.
Proof.
  unfold Num.roundEven.
  pose proof (Qfloor_le q) as Hlo. pose proof (Qlt_floor q) as Hhi.
  rewrite inject_Z_plus in Hhi. change (inject_Z 1) with 1 in Hhi.
  destruct (q - inject_Z (Qfloor q) ?= 1 # 2) eqn:Hc.
  - apply Qeq_alt in Hc.
    destruct (Z.even (Qfloor q)); [lra |].
    rewrite inject_Z_plus. change (inject_Z 1) with 1. lra.
  - apply Qlt_alt in Hc. lra.
  - apply Qgt_alt in Hc. rewrite inject_Z_plus. change (inject_Z 1) with 1.
    lra.
Qed.

Lemma roundEven_floor (q : Q) : (Qfloor q <= Num.roundEven q)%Z.
Proof.
  unfold Num.roundEven. destruct (q - inject_Z (Qfloor q) ?= 1 # 2);
    [destruct (Z.even (Qfloor q)) | |]; lia.
Qed.

Lemma round53_pos_eq (q : Q) :
  0 < q ->
  Num.round53 q == inject_Z (Num.roundEven (q / 2 ^ (Num.binade q - 52)))
               * 2 ^ (Num.binade q - 52).
Proof.
  intros Hq. unfold Num.round53. destruct q as [n d].
  assert (Hn : (0 < n)%Z) by (unfold Qlt in Hq; cbn in Hq; lia).
  destruct n as [| p | p]; try lia. cbn [Qnum].
  rewrite Qred_correct. reflexivity.
Qed.

Lemma pow2_53 : 2 ^ (-53) == ulp53.
Proof. reflexivity. Qed.

(** The relative error of a rounding is at most [2^-53]. *)
Lemma round53_error (q : Q) :
  0 < q -> Qabs (Num.round53 q - q) <= q * ulp53.
Proof.
  intros Hq. rewrite (round53_pos_eq q Hq).
  destruct (binade_spec q Hq) as [Hlo _].
  set (b := Num.binade q) in *. set (e := (b - 52)%Z).
  pose proof (pow2_pos e) as He.
  destruct (roundEven_near (q / 2 ^ e)) as [H1 H2].
  set (z := inject_Z (Num.roundEven (q / 2 ^ e))) in *.
  assert (Hx : q == (q / 2 ^ e) * 2 ^ e).
  { field. intros H0. rewrite H0 in He. now apply Qlt_irrefl in He. }
  assert (Hhalf : 2 ^ e * (1 # 2) <= q * ulp53).
  { rewrite <- pow2_53.
    apply Qle_trans with (2 ^ b * 2 ^ (-53)).
    - replace e with (b + (-53) + 1)%Z by (unfold e; lia).
      rewrite pow2_succ, Qpower_plus by apply two_neq_0.
      apply Qle_lteq. right. ring.
    - apply Qmult_le_compat_r; [exact Hlo |]. discriminate. }
  set (x := q / 2 ^ e) in *.
  apply Qabs_Qle_condition. split.
  - apply Qle_trans with (- (2 ^ e * (1 # 2))); [lra |].
    setoid_replace (z * 2 ^ e - q) with ((z - x) * 2 ^ e)
      using relation Qeq by (rewrite Hx at 1; ring).
    assert (H3 : (x - z) * 2 ^ e <= (1 # 2) * 2 ^ e)
      by (apply Qmult_le_compat_r; lra).
    lra.
  - apply Qle_trans with (2 ^ e * (1 # 2)); [| exact Hhalf].
    setoid_replace (z * 2 ^ e - q) with ((z - x) * 2 ^ e)
      using relation Qeq by (rewrite Hx at 1; ring).
    assert (H3 : (z - x) * 2 ^ e <= (1 # 2) * 2 ^ e)
      by (apply Qmult_le_compat_r; lra).
    lra.
Qed.

(** Rounding a value of at least 1 gives at least 1. *)
Lemma round53_ge_1 (q : Q) : 1 <= q -> 1 <= Num.round53 q.
Proof.
  intros Hq. assert (Hq0 : 0 < q) by lra.
  rewrite (round53_pos_eq q Hq0).
  destruct (binade_spec q Hq0) as [Hlo Hhi].
  set (b := Num.binade q) in *. set (e := (b - 52)%Z).
  assert (Hb : (0 <= b)%Z).
  { assert (H : 2 ^ 0 < 2 ^ (b + 1)) by (change (2 ^ 0) with 1; lra).
    apply (Qpower_lt_compat_l_inv 2 0 (b + 1)) in H; [lia | reflexivity]. }
  pose proof (pow2_pos e) as He.
  assert (Hx : 2 ^ 52 <= q / 2 ^ e).
  { apply Qle_shift_div_l; [exact He |].
    rewrite <- Qpower_plus by apply two_neq_0.
    replace (52 + e)%Z with b by (unfold e; lia). exact Hlo. }
  assert (Hz : (2 ^ 52 <= Num.roundEven (q / 2 ^ e))%Z).
  { etransitivity; [| apply roundEven_floor].
    rewrite <- (Qfloor_Z (2 ^ 52)). apply Qfloor_resp_le.
    rewrite pow2_Z by lia. exact Hx. }
  apply Qle_trans with (2 ^ b).
  - change 1 with (2 ^ 0). apply Qpower_le_compat_l; [exact Hb | discriminate].
  - replace b with (52 + e)%Z at 1 by (unfold e; lia).
    rewrite Qpower_plus by apply two_neq_0.
    apply Qmult_le_compat_r; [| lra].
    rewrite <- pow2_Z by lia. rewrite <- Zle_Qle. exact Hz.
Qed.

(** The scale factor is the exact quotient up to a relative error of
    [2^-53]. *)
Lemma scale_near (t : Q) :
  0 < t ->
  let T := Qmin 1 t in
  let s := Qmin 1 (Num.round53 t) in
  0 < T /\ T <= 1 /\ T <= t /\ - (T * ulp53) <= s - T <= T * ulp53.
Proof.
  intros Ht T s.
  assert (HT1 : T <= 1) by apply Q.le_min_l.
  assert (HTt : T <= t) by apply Q.le_min_r.
  assert (HT0 : 0 < T) by (apply Q.min_glb_lt; lra).
  split; [exact HT0 |]. split; [exact HT1 |]. split; [exact HTt |].
  destruct (Qlt_le_dec t 1) as [Hlt | Hge].
  - assert (ET : T == t) by (apply Q.min_r; lra).
    pose proof (round53_error t Ht) as He.
    apply Qabs_Qle_condition in He.
    assert (Hs1 : s <= Num.round53 t) by apply Q.le_min_r.
    assert (Hs2 : t - t * ulp53 <= s).
    { apply Q.min_glb; [| lra]. unfold ulp53. lra. }
    unfold ulp53 in *. lra.
  - assert (ET : T == 1) by (apply Q.min_l; lra).
    assert (Es : s == 1) by (apply Q.min_l; now apply round53_ge_1).
    unfold ulp53. lra.
Qed.

Lemma scaled_dimension (x M m : Z) :
  (1 <= x <= M)%Z -> (M < 2 ^ 32)%Z -> (1 <= m)%Z ->
  let s := Qmin 1 (Num.round53 (inject_Z m / inject_Z M)) in
  let r := Z.max 1 (Qfloor (Num.round53 (inject_Z x * s) + (1 # 2))) in
  (1 <= r <= x)%Z /\ (r <= m)%Z
  /\ Qabs (inject_Z r - inject_Z x * Qmin 1 (inject_Z m / inject_Z M)) < 1.
Proof.
  intros Hx HM Hm s r.
  assert (HXq : 1 <= inject_Z x) by (apply (inject_le 1 x); lia).
  assert (HXM : inject_Z x <= inject_Z M) by (apply inject_le; lia).
  assert (HM32 : inject_Z M <= 4294967296)
    by (apply (inject_le M 4294967296); lia).
  assert (Hmq : 1 <= inject_Z m) by (apply (inject_le 1 m); lia).
  set (t := inject_Z m / inject_Z M) in *.
  assert (Ht : 0 < t) by (apply Qlt_shift_div_l; lra).
  assert (HtM : t * inject_Z M == inject_Z m) by (unfold t; field; lra).
  destruct (scale_near t Ht) as (HT0 & HT1 & HTt & Hs).
  fold s in Hs. set (T := Qmin 1 t) in *.
  set (X := inject_Z x) in *. set (A := X * T).
  assert (HA0 : 0 < A) by (apply Qmult_lt_0_compat; lra).
  assert (HAX : A <= X).
  { unfold A. rewrite <- (Qmult_1_r X) at 2. apply Qmult_le_l; lra. }
  assert (HAm : A <= inject_Z m).
  { rewrite <- HtM. unfold A.
    apply Qle_trans with (X * t); [apply Qmult_le_l; lra |].
    rewrite (Qmult_comm X). apply Qmult_le_l; lra. }
  set (v := X * s).
  assert (Hv : - (A * ulp53) <= v - A <= A * ulp53).
  { unfold v, A.
    setoid_replace (X * s - X * T) with (X * (s - T))
      using relation Qeq by ring.
    setoid_replace (X * T * ulp53) with (X * (T * ulp53))
      using relation Qeq by ring.
    setoid_replace (- (X * (T * ulp53))) with (X * - (T * ulp53))
      using relation Qeq by ring.
    split; apply Qmult_le_l; lra. }
  assert (Hv0 : 0 < v) by (unfold ulp53 in Hv; lra).
  pose proof (round53_error v Hv0) as Hy.
  apply Qabs_Qle_condition in Hy.
  set (y := Num.round53 v) in *.
  pose proof (Qfloor_le (y + (1 # 2))) as Hlo.
  pose proof (Qlt_floor (y + (1 # 2))) as Hhi.
  rewrite inject_Z_plus in Hhi. change (inject_Z 1) with 1 in Hhi.
  subst r. set (r0 := Qfloor (y + (1 # 2))) in *.
  change (Qfloor (Num.round53 (X * s) + (1 # 2))) with r0.
  unfold ulp53 in *.
  assert (Hr0x : (r0 <= x)%Z).
  { apply Z.lt_succ_r, inject_lt_inv. unfold Z.succ.
    rewrite inject_Z_plus. change (inject_Z 1) with 1. fold X. lra. }
  assert (Hr0m : (r0 <= m)%Z).
  { apply Z.lt_succ_r, inject_lt_inv. unfold Z.succ.
    rewrite inject_Z_plus. change (inject_Z 1) with 1. lra. }
  split; [lia |]. split; [lia |].
  fold A. apply Qabs_Qlt_condition.
  destruct (Z.le_gt_cases 1 r0) as [Hge | Hlt].
  - rewrite Z.max_r by lia. lra.
  - rewrite Z.max_l by lia. change (inject_Z 1) with 1.
    assert (Hr0 : inject_Z r0 <= 0) by (apply (inject_le r0 0); lia).
    lra.
Qed.

Lemma roundEven_int (x : Q) (z : Z) :
  x == inject_Z z -> Num.roundEven x = z.
Proof.
  intros Hx. unfold Num.roundEven.
  assert (Hf : Qfloor x = z) by (rewrite (Qfloor_comp _ _ Hx); apply Qfloor_Z).
  rewrite Hf.
  destruct (x - inject_Z z ?= 1 # 2) eqn:Hc.
  - apply Qeq_alt in Hc. lra.
  - reflexivity.
  - apply Qgt_alt in Hc. lra.
Qed.

Lemma binade_int (k : Z) : (1 <= k)%Z -> Num.binade (inject_Z k) = Z.log2 k.
Proof.
  intros Hk. unfold Num.binade. cbn [inject_Z Qnum Qden].
  change (Z.log2 1) with 0%Z. rewrite Z.sub_0_r. fold (inject_Z k).
  pose proof (Z.log2_spec k ltac:(lia)) as [H1 _].
  pose proof (Z.log2_nonneg k) as H0.
  assert (Hle : 2 ^ Z.log2 k <= inject_Z k).
  { rewrite <- pow2_Z by lia. now apply inject_le. }
  apply Qle_bool_iff in Hle. now rewrite Hle.
Qed.

(** Integers up to 2^53 are doubles. *)
Lemma round53_int (k : Z) :
  (1 <= k <= 2 ^ 53)%Z -> Num.round53 (inject_Z k) = inject_Z k.
Proof.
  intros Hk.
  destruct (Z.eq_dec k (2 ^ 53)%Z) as [-> | Hne];
    [vm_compute; reflexivity |].
  assert (Hlt : (k < 2 ^ 53)%Z) by lia.
  assert (Hl : (Z.log2 k < 53)%Z) by (apply Z.log2_lt_pow2; lia).
  pose proof (Z.log2_nonneg k) as Hl0.
  unfold Num.round53. cbn [inject_Z Qnum].
  destruct k as [| p | p]; try lia.
  change (Qabs (inject_Z (Z.pos p))) with (inject_Z (Z.pos p)).
  rewrite binade_int by lia.
  set (l := Z.log2 (Z.pos p)) in *.
  assert (Hx : inject_Z (Z.pos p) / 2 ^ (l - 52)
               == inject_Z (Z.pos p * 2 ^ (52 - l))).
  { rewrite inject_Z_mult, pow2_Z by lia.
    replace (l - 52)%Z with (- (52 - l))%Z by lia.
    rewrite Qpower_opp. field.
    pose proof (pow2_pos (52 - l)). lra. }
  rewrite (roundEven_int _ _ Hx).
  rewrite <- (Qcanon.Qred_identity (inject_Z (Z.pos p))) by apply Z.gcd_1_r.
  apply Qred_complete.
  rewrite inject_Z_mult, pow2_Z by lia.
  rewrite <- Qmult_assoc, <- Qpower_plus by apply two_neq_0.
  replace (52 - l + (l - 52))%Z with 0%Z by lia.
  change (2 ^ 0) with 1. ring.
Qed.

End ScaleFacts.

Section NormalizerFacts.
Context `{Host}.

Lemma safeCanvas_dimensions (bitmap : Bitmap) (maxSide : Z) :
  1 <= maxSide ->
  let w := Zpos (width bitmap) in
  let h := Zpos (height bitmap) in
  Z.max w h < 2 ^ 32 ->
  let c := safeCanvas bitmap maxSide in
  let s := Qmin 1 (inject_Z maxSide / inject_Z (Z.max w h)) in
  (1 <= cv_width c <= w /\ cv_width c <= maxSide
   /\ (Qabs (inject_Z (cv_width c) - inject_Z w * s) < 1)%Q)
  /\ (1 <= cv_height c <= h /\ cv_height c <= maxSide
      /\ (Qabs (inject_Z (cv_height c) - inject_Z h * s) < 1)%Q).
Proof.
  intros Hm w h Hside c s. split.
  - apply (scaled_dimension w (Z.max w h) maxSide); lia.
  - apply (scaled_dimension h (Z.max w h) maxSide); lia.
Qed.

Lemma safeScale_near (w h : positive) (maxSide : Z) :
  1 <= maxSide ->
  let scale := Qmin 1 (inject_Z maxSide / inject_Z (Z.max (Zpos w) (Zpos h))) in
  (Qabs (safeScale w h maxSide - scale) <= scale * ulp53)%Q.
Proof.
  intros Hm scale.
  assert (Ht : (0 < inject_Z maxSide / inject_Z (Z.max (Zpos w) (Zpos h)))%Q).
  { apply Qlt_shift_div_l.
    - apply (inject_lt 0). lia.
    - rewrite Qmult_0_l. apply (inject_lt 0). lia. }
  destruct (scale_near _ Ht) as (_ & _ & _ & Hs).
  apply Qabs_Qle_condition. exact Hs.
Qed.

End NormalizerFacts.

(** C1 (amended).  For an integer bound [maxSide] of at least one pixel:
    when decoding succeeds (by [createImageBitmap] or, failing that, by
    the FileReader/Image path) on an image of [w] by [h] pixels, the
    operation paints a canvas and returns its JPEG encoding, or the
    original input when the encoder yields no blob.  The scale it
    computes is [min(1, maxSide / max(w, h))] up to the rounding of the
    division, a relative error of at most 2^-53.  For sides below 2^32
    neither side of the canvas exceeds [maxSide] or the corresponding
    source side (no upscaling), and each side is within one pixel of the
    exactly scaled source side.  When both decoding paths fail the
    operation fails with the second path's error; it does not return
    the input. *)
Theorem fileToSafeJpegBlob_resize `{Host}
    (file : Blob) (maxSide : Z) (quality : Q) :
  1 <= maxSide ->
  match decodeImage file with
  | Ok bitmap =>
      let w := Zpos (width bitmap) in
      let h := Zpos (height bitmap) in
      let scale := Qmin 1 (inject_Z maxSide / inject_Z (Z.max w h)) in
      let canvas := safeCanvas bitmap maxSide in
      (forall b, canvasToBlob canvas quality = Some b ->
         fileToSafeJpegBlob file maxSide quality = Ok b)
      /\ (canvasToBlob canvas quality = None ->
          fileToSafeJpegBlob file maxSide quality = Ok file)
      /\ cv_source canvas = bitmap
      /\ (Qabs (safeScale (width bitmap) (height bitmap) maxSide - scale)
           <= scale * ulp53)%Q
      /\ (Z.max w h < 2 ^ 32 ->
          Z.max (cv_width canvas) (cv_height canvas) <= maxSide
          /\ 1 <= cv_width canvas <= w
          /\ 1 <= cv_height canvas <= h
          /\ (Qabs (inject_Z (cv_width canvas) - inject_Z w * scale) < 1)%Q
          /\ (Qabs (inject_Z (cv_height canvas) - inject_Z h * scale) < 1)%Q)
  | Throw e =>
      fastDecode file = None
      /\ slowDecode file = Throw e
      /\ fileToSafeJpegBlob file maxSide quality = Throw e
  end.
Proof.
  intros Hm. unfold fileToSafeJpegBlob.
  destruct (decodeImage file) as [bitmap | e] eqn:Hd; cbv zeta.
  - cbn [res_bind].
    split; [intros b Hb; now rewrite Hb |].
    split; [intros Hb; now rewrite Hb |].
    split; [reflexivity |].
    split; [now apply safeScale_near |].
    intros Hside.
    destruct (safeCanvas_dimensions bitmap maxSide Hm Hside)
      as ((Hw1 & Hw2 & Hw3) & (Hh1 & Hh2 & Hh3)).
    split; [lia |].
    split; [exact Hw1 |]. split; [exact Hh1 |].
    split; [exact Hw3 | exact Hh3].
  - unfold decodeImage in Hd.
    destruct (fastDecode file); [discriminate |]. auto.
Qed.

(** On the demonstration host a 2000x800 image bounded by 1600 comes out
    as 1600x640; a 3712x145 image gets a canvas of 1600x62, where exact
    arithmetic would give 1600x63. *)
Lemma fileToSafeJpegBlob_resize_witness :
  1 <= 1600
  /\ @fileToSafeJpegBlob demoHost (Toy.image 2000 800) 1600 (9 # 10)
     = Ok (mkBlob (Toy.be16 1600 ++ Toy.be16 640) "image/jpeg")
  /\ cv_height (safeCanvas (mkBitmap 3712 145) 1600) = 62.
Proof.
  split; [lia |]. split; [| vm_compute; reflexivity].
  pose proof (@fileToSafeJpegBlob_resize demoHost (Toy.image 2000 800)
                1600 (9 # 10) ltac:(lia)) as W.
  change (@decodeImage demoHost (Toy.image 2000 800))
    with (@Ok Bitmap (mkBitmap 2000 800)) in W.
  destruct W as [W _]. apply W. vm_compute. reflexivity.
Defined.

(** C1, as stated, fails: on a host where neither decoding path works the
    operation throws instead of returning the input; and a bound of zero
    still produces a one-pixel canvas. *)
Lemma fileToSafeJpegBlob_not_degrading :
  (@fastDecode blindHost (Toy.image 2000 800) = None
   /\ @slowDecode blindHost (Toy.image 2000 800) = Throw ImageError
   /\ @fileToSafeJpegBlob blindHost (Toy.image 2000 800) 1600 (9 # 10)
      = Throw ImageError
   /\ @fileToSafeJpegBlob blindHost (Toy.image 2000 800) 1600 (9 # 10)
      <> Ok (Toy.image 2000 800))
  /\ ~ (Z.max (cv_width (safeCanvas (mkBitmap 2000 800) 0))
              (cv_height (safeCanvas (mkBitmap 2000 800) 0)) <= 0).
Proof.
  split.
  - repeat split; try reflexivity. discriminate.
  - vm_compute. intros Hle. apply Hle. reflexivity.
Qed.

Section CropFacts.
Context `{Host}.

Lemma cropCanvas_geometry (bitmap : Bitmap) (maxSide : Z) :
  let w := Zpos (width bitmap) in
  let h := Zpos (height bitmap) in
  let side := Z.min w h in
  let d := cv_draw (cropCanvas bitmap maxSide) in
  (0 <= src_x d /\ src_x d + side <= w /\ 0 <= src_y d /\ src_y d + side <= h)
  /\ 0 <= (w - side - src_x d) - src_x d <= 1
  /\ 0 <= (h - side - src_y d) - src_y d <= 1.
Proof.
  intros w h side d. subst d side. unfold cropCanvas. simpl.
  fold w h. clearbody w h.
  Z.div_mod_to_equations. lia.
Qed.

End CropFacts.

(** C6.  For a bound [maxSide] of at least one pixel: when
    [createImageBitmap] decodes the input to [w] by [h] pixels,
    [cropCenterSquareToJpeg] returns the JPEG encoding of the canvas it
    paints (the input itself only when the encoder yields no blob).
    That canvas is a square of side [min(maxSide, min(w, h))], at least
    one pixel, never larger than the bound or than the source region.
    The source region is a square of side [min(w, h)] inside the image,
    no square inside the image is larger, and it is centred: its two
    margins differ by at most one pixel on each axis.  It is painted
    over the whole canvas.  A 1600x900 source with [maxSide = 1200]
    gives a 900x900 canvas.  When that decoding fails the result is that
    of [fileToSafeJpegBlob]. *)
Theorem cropCenterSquareToJpeg_square `{Host}
    (file : Blob) (maxSide : Z) (quality : Q) :
  1 <= maxSide ->
  match fastDecode file with
  | Some bitmap =>
      let w := Zpos (width bitmap) in
      let h := Zpos (height bitmap) in
      let canvas := cropCanvas bitmap maxSide in
      let d := cv_draw canvas in
      (forall b, canvasToBlob canvas quality = Some b ->
         cropCenterSquareToJpeg file maxSide quality = Ok b)
      /\ (canvasToBlob canvas quality = None ->
          cropCenterSquareToJpeg file maxSide quality = Ok file)
      /\ cv_source canvas = bitmap
      /\ cv_width canvas = Z.min maxSide (Z.min w h)
      /\ cv_height canvas = cv_width canvas
      /\ (1 <= cv_width canvas <= maxSide /\ cv_width canvas <= src_w d)
      /\ (src_w d = Z.min w h /\ src_h d = src_w d)
      /\ (0 <= src_x d /\ src_x d + src_w d <= w
          /\ 0 <= src_y d /\ src_y d + src_h d <= h)
      /\ (forall x y side, 0 <= x -> 0 <= y ->
            x + side <= w -> y + side <= h -> side <= src_w d)
      /\ 0 <= (w - src_w d - src_x d) - src_x d <= 1
      /\ 0 <= (h - src_h d - src_y d) - src_y d <= 1
      /\ (dst_x d = 0 /\ dst_y d = 0
          /\ dst_w d = cv_width canvas /\ dst_h d = cv_height canvas)
  | None =>
      cropCenterSquareToJpeg file maxSide quality
        = fileToSafeJpegBlob file maxSide quality
  end
  /\ (cv_width (cropCanvas (mkBitmap 1600 900) 1200) = 900
      /\ cv_height (cropCanvas (mkBitmap 1600 900) 1200) = 900).
Proof.
  intros Hm. split; [| split; reflexivity].
  unfold cropCenterSquareToJpeg.
  destruct (fastDecode file) as [bitmap |]; [| reflexivity].
  cbv zeta.
  destruct (cropCanvas_geometry bitmap maxSide) as (Hin & Hx & Hy).
  split; [intros b Hb; now rewrite Hb |].
  split; [intros Hb; now rewrite Hb |].
  split; [reflexivity |]. split; [reflexivity |]. split; [reflexivity |].
  cbn [cropCanvas cv_width cv_height cv_draw src_w src_h src_x src_y
         dst_x dst_y dst_w dst_h] in *.
  split; [lia |]. split; [split; reflexivity |].
  split; [exact Hin |]. split; [intros x y side; lia |].
  split; [exact Hx |]. split; [exact Hy |].
  repeat split.
Qed.

(** On the demonstration host, cropping a 1600x900 image with bound 1200
    returns a 900x900 JPEG. *)
Lemma cropCenterSquareToJpeg_square_witness :
  1 <= 1200
  /\ @cropCenterSquareToJpeg demoHost (Toy.image 1600 900) 1200 (9 # 10)
     = Ok (mkBlob (Toy.be16 900 ++ Toy.be16 900) "image/jpeg").
Proof.
  split; [lia |].
  pose proof (@cropCenterSquareToJpeg_square demoHost (Toy.image 1600 900)
                1200 (9 # 10) ltac:(lia)) as W.
  change (@fastDecode demoHost (Toy.image 1600 900))
    with (Some (mkBitmap 1600 900)) in W.
  destruct W as [[W _] _]. apply W. vm_compute. reflexivity.
Defined.

(** ** Catalog view model *)

Section ViewFacts.
Context `{Host}.

(** The clock reading [applyFiltersAndSort] uses in world [w], and the
    number of clock queries made once it returns. *)
Lemma applyFiltersAndSort_run (w : World) :
  let stale := Num.gtb (staleDays (filter (app w))) (Fin 0) in
  applyFiltersAndSort w
  = (Ok tt,
     mkWorld (db w)
       (set_filtered
          (visibleOutfits (if stale then dateNow (tick w) else 0) (app w))
          (app w))
       (toastAction w) (timers w) (nextTimer w)
       (if stale then S (tick w) else tick w) (requests w)).
Proof.
  cbv [applyFiltersAndSort bind gets modify ret Date_now set_app].
  destruct (Num.gtb (staleDays (filter (app w))) (Fin 0)); reflexivity.
Qed.

Lemma visibleOutfits_ext (now : Z) (s1 s2 : State) :
  outfits s1 = outfits s2 -> search s1 = search s2 ->
  sort s1 = sort s2 -> filter s1 = filter s2 ->
  visibleOutfits now s1 = visibleOutfits now s2.
Proof.
  intros Ho Hq Hs Hf. unfold visibleOutfits.
  now rewrite Ho, Hq, Hs, Hf.
Qed.

Lemma visibleOutfits_clock (now1 now2 : Z) (s : State) :
  Num.gtb (staleDays (filter s)) (Fin 0) = false ->
  visibleOutfits now1 s = visibleOutfits now2 s.
Proof. intros Hoff. unfold visibleOutfits. now rewrite Hoff. Qed.

End ViewFacts.

(** C2 (amended).  [applyFiltersAndSort] never throws, and the sequence it
    stores in [state.filtered] is a function of the record set, the
    search text, the sort mode, the filter spec and, when the stale-days
    filter is on, the clock reading it takes: two invocations that agree
    on these yield the same sequence.  Its only effects are the
    assignment to [state.filtered] and that one clock query. *)
Theorem applyFiltersAndSort_deterministic `{Host} (w1 w2 : World) :
  outfits (app w1) = outfits (app w2) ->
  search (app w1) = search (app w2) ->
  sort (app w1) = sort (app w2) ->
  filter (app w1) = filter (app w2) ->
  (Num.gtb (staleDays (filter (app w1))) (Fin 0) = true ->
   dateNow (tick w1) = dateNow (tick w2)) ->
  let stale := Num.gtb (staleDays (filter (app w1))) (Fin 0) in
  let r1 := applyFiltersAndSort w1 in
  let r2 := applyFiltersAndSort w2 in
  fst r1 = Ok tt /\ fst r2 = Ok tt
  /\ filtered (app (snd r1)) = filtered (app (snd r2))
  /\ snd r1 = mkWorld (db w1) (set_filtered (filtered (app (snd r1))) (app w1))
                (toastAction w1) (timers w1) (nextTimer w1)
                (if stale then S (tick w1) else tick w1) (requests w1).
Proof.
  intros Ho Hq Hs Hf Hclock stale r1 r2. subst r1 r2.
  rewrite !applyFiltersAndSort_run. cbn [fst snd app].
  rewrite <- Hf. fold stale.
  split; [reflexivity |]. split; [reflexivity |]. split; [| reflexivity].
  cbn [filtered set_filtered].
  rewrite (visibleOutfits_ext _ (app w1) (app w2) Ho Hq Hs Hf).
  destruct stale eqn:Hstale.
  - now rewrite (Hclock Hstale).
  - reflexivity.
Qed.

(** Two demonstration worlds with the same state, observed at two clock
    readings one millisecond apart. *)
Lemma applyFiltersAndSort_deterministic_witness :
  let s := Sample.state [Sample.worn; Sample.fresh] Sample.staleFilter in
  let w1 := Sample.world [] s 1 in
  let w2 :=
    mkWorld ∅ (set_filtered [Sample.worn] s) (Some UndoDetail) ∅ 7 1 3 in
  filtered (app (snd (@applyFiltersAndSort demoHost w1)))
  = filtered (app (snd (@applyFiltersAndSort demoHost w2))).
Proof.
  intros s w1 w2.
  apply (@applyFiltersAndSort_deterministic demoHost w1 w2);
    reflexivity.
Defined.

(** C2, as stated, fails: with the stale-days filter on, the same record
    set and criteria give two different sequences at two clock
    readings; and the call assigns [state.filtered]. *)
Lemma applyFiltersAndSort_depends_on_clock :
  let s := Sample.state [Sample.worn; Sample.fresh] Sample.staleFilter in
  let w1 := Sample.world [] s 0 in
  let w2 := Sample.world [] s 1 in
  app w1 = app w2
  /\ filtered (app (snd (@applyFiltersAndSort demoHost w1))) = [Sample.fresh]
  /\ filtered (app (snd (@applyFiltersAndSort demoHost w2)))
     = [Sample.fresh; Sample.worn]
  /\ app (snd (@applyFiltersAndSort demoHost w1)) <> app w1.
Proof.
  intros s w1 w2. split; [reflexivity |].
  split; [vm_compute; reflexivity |].
  split; [vm_compute; reflexivity |].
  intros Heq. apply (f_equal filtered) in Heq. vm_compute in Heq.
  discriminate Heq.
Qed.

(** ** Properties kept by every step of a computation *)

Section FrameRules.
Context `{Host}.

(** Reading the payloads for an export touches nothing. *)
Lemma exportEntries_frame (l : list Outfit.t) (w : World) :
  snd (exportEntries l w) = w.
Proof.
  revert w. induction l as [| o rest IH]; intros w; [reflexivity |].
  cbn [exportEntries]. cbv [bind lift ret].
  destruct (blobToDataURL (Outfit.imageBlob o)); [| reflexivity].
  specialize (IH w). destruct (exportEntries rest w) as [[more | e] w'];
    exact IH.
Qed.

Variable P : World -> Prop.

Lemma preserves_exportEntries (l : list Outfit.t) :
  preserves P (exportEntries l).
Proof. intros w Hw. now rewrite exportEntries_frame. Qed.

Lemma preserves_ret {A : Type} (a : A) : preserves P (ret a).
Proof. now intros w. Qed.

Lemma preserves_lift {A : Type} (r : Res A) : preserves P (lift r).
Proof. now intros w. Qed.

Lemma preserves_throw {A : Type} (e : Exn) : preserves P (@throw A e).
Proof. now intros w. Qed.

Lemma preserves_gets {A : Type} (f : World -> A) : preserves P (gets f).
Proof. now intros w. Qed.

Lemma preserves_modify (f : World -> World) :
  (forall w, P w -> P (f w)) -> preserves P (modify f).
Proof. intros Hf w. apply Hf. Qed.

Lemma preserves_bind {A B : Type} (c : M A) (k : A -> M B) :
  preserves P c -> (forall a, preserves P (k a)) -> preserves P (bind c k).
Proof.
  intros Hc Hk w Hw. cbv [bind]. specialize (Hc w Hw).
  destruct (c w) as [[a | e] w1]; cbn [snd] in *; [| exact Hc].
  now apply Hk.
Qed.

Lemma preserves_catch {A : Type} (c : M A) (h : Exn -> M A) :
  preserves P c -> (forall e, preserves P (h e)) -> preserves P (catch c h).
Proof.
  intros Hc Hh w Hw. cbv [catch]. specialize (Hc w Hw).
  destruct (c w) as [[a | e] w1]; cbn [snd] in *; [exact Hc |].
  now apply Hh.
Qed.

Lemma preserves_for_of {A : Type} (l : list A) (body : A -> M unit) :
  (forall x, preserves P (body x)) -> preserves P (for_of l body).
Proof.
  intros Hbody. induction l as [| x rest IH]; [apply preserves_ret |].
  cbn [for_of]. apply preserves_bind; [apply Hbody | intros _; exact IH].
Qed.

Lemma preserves_for_of_with {A S : Type} (l : list A) (acc : S)
    (body : A -> S -> M S) :
  (forall x a, preserves P (body x a)) ->
  preserves P (for_of_with l acc body).
Proof.
  intros Hbody. revert acc.
  induction l as [| x rest IH]; intros acc; [apply preserves_ret |].
  cbn [for_of_with]. apply preserves_bind; [apply Hbody | intros a; apply IH].
Qed.

(** A store request keeps what counting the request and the operation
    keep, whether the host fails it or not. *)
Lemma preserves_storeRequest {A : Type} (op : M A) :
  (forall w, P w -> P (counted w)) -> preserves P op ->
  preserves P (storeRequest op).
Proof.
  intros Hcount Hop w Hw. unfold storeRequest.
  destruct (storeFails (requests w)); [now apply Hcount |].
  now apply Hop, Hcount.
Qed.

(** A step that cannot throw, like a reading of the clock. *)
Lemma preserves_step {A : Type} (v : World -> A) (f : World -> World) :
  (forall w, P w -> P (f w)) -> preserves P (fun w => (Ok (v w), f w)).
Proof. intros Hf w. apply Hf. Qed.

Lemma preserves_dbAddOutfit (o : Outfit.t) :
  (forall w, P w -> P (counted w)) ->
  (forall w, P w -> P (set_db (fun m => <[Outfit.id o := o]> m) w)) ->
  preserves P (dbAddOutfit o).
Proof.
  intros Hcount Hput. apply preserves_storeRequest; [exact Hcount |].
  intros w Hw. destruct (db w !! Outfit.id o); [exact Hw | now apply Hput].
Qed.

End FrameRules.

(** One step of a proof that a computation keeps a property: through a
    sequence, a handler, a loop, a store request or a branch, down to
    the writes. *)
Ltac frame_step :=
  first
    [ apply preserves_bind; [| intros ?]
    | apply preserves_catch; [| intros ?]
    | apply preserves_for_of; intros ?
    | apply preserves_for_of_with; intros ? ?
    | match goal with
      | |- preserves _ (ret _) => apply preserves_ret
      | |- preserves _ (lift _) => apply preserves_lift
      | |- preserves _ (throw _) => apply preserves_throw
      | |- preserves _ (gets _) => apply preserves_gets
      | |- preserves _ (modify _) => apply preserves_modify; intros ? ?
      | |- preserves _ (storeRequest _) =>
          apply preserves_storeRequest; [intros ? ? |]
      | |- preserves _ (dbAddOutfit _) =>
          apply preserves_dbAddOutfit; intros ? ?
      | |- preserves _ Date_now => apply preserves_step; intros ? ?
      | |- preserves _ Math_random_hex => apply preserves_step; intros ? ?
      | |- preserves _ setUndoTimeout => apply preserves_step; intros ? ?
      | |- preserves _ (exportEntries _) => apply preserves_exportEntries
      | |- preserves _ (if ?b then _ else _) => destruct b
      | |- preserves _ (match ?x with _ => _ end) => destruct x
      end
    | progress unfold dbPutOutfit, dbDeleteOutfit, dbGetOutfit,
        dbGetAllOutfits, showToast, clearTimeout, closeDetailModal,
        new_uid, renderGrid, applyFiltersAndSort, refresh
    | progress cbv zeta ].

Ltac frame := repeat frame_step.

(** ** Record store and undo *)

Section StoreFacts.
Context `{Host}.

Lemma elem_of_getAll (m : gmap string Outfit.t) (o : Outfit.t) :
  o ∈ getAll m <-> exists k, m !! k = Some o.
Proof.
  unfold getAll. rewrite merge_sort_Permutation, list_elem_of_fmap.
  split.
  - intros ([k o'] & -> & Hin). exists k.
    now apply elem_of_map_to_list in Hin.
  - intros (k & Hk). exists (k, o). split; [reflexivity |].
    now apply elem_of_map_to_list.
Qed.

Lemma keyed_empty : keyed ∅.
Proof. intros k o Hk. rewrite lookup_empty in Hk. discriminate. Qed.

Lemma keyed_insert (m : gmap string Outfit.t) (o : Outfit.t) :
  keyed m -> keyed (<[Outfit.id o := o]> m).
Proof.
  intros Hm k o' Hk. rewrite lookup_insert in Hk.
  case_decide; [congruence | now apply Hm].
Qed.

Lemma keyed_delete (m : gmap string Outfit.t) (k : string) :
  keyed m -> keyed (delete k m).
Proof.
  intros Hm k' o Hk. rewrite lookup_delete in Hk.
  case_decide; [discriminate | now apply Hm].
Qed.

Lemma elem_of_getAll_keyed (m : gmap string Outfit.t) (o : Outfit.t) :
  keyed m -> o ∈ getAll m <-> m !! Outfit.id o = Some o.
Proof.
  intros Hm. rewrite elem_of_getAll. split.
  - intros (k & Hk). now rewrite (Hm k o Hk).
  - intros Hk. now exists (Outfit.id o).
Qed.

(** A request the host does not fail runs its operation. *)
Lemma storeRequest_ok {A : Type} (op : M A) (w : World) :
  storeFails (requests w) = false -> storeRequest op w = op (counted w).
Proof. intros Hok. unfold storeRequest. now rewrite Hok. Qed.

Lemma storeRequest_fails {A : Type} (op : M A) (w : World) :
  storeFails (requests w) = true ->
  storeRequest op w = (Throw StoreError, counted w).
Proof. intros Hbad. unfold storeRequest. now rewrite Hbad. Qed.

(** [refresh] when the store serves its request, and when it does
    not. *)
Lemma refresh_served (w : World) :
  storeFails (requests w) = false ->
  let s := set_outfits (getAll (db w)) (app w) in
  let stale := Num.gtb (staleDays (filter (app w))) (Fin 0) in
  refresh w
  = (Ok tt,
     mkWorld (db w)
       (set_filtered
          (visibleOutfits (if stale then dateNow (tick w) else 0) s) s)
       (toastAction w) (timers w) (nextTimer w)
       (if stale then S (tick w) else tick w) (S (requests w))).
Proof.
  intros Hok. cbv [refresh renderGrid bind dbGetAllOutfits].
  rewrite storeRequest_ok by exact Hok.
  cbv [gets modify]. rewrite applyFiltersAndSort_run. reflexivity.
Qed.

Lemma refresh_failed (w : World) :
  storeFails (requests w) = true ->
  refresh w = (Throw StoreError, counted w).
Proof.
  intros Hf. cbv [refresh bind dbGetAllOutfits storeRequest].
  now rewrite Hf.
Qed.

Hypothesis Hstore : reliableStore.

Lemma dbGetOutfit_run (id : string) (w : World) :
  dbGetOutfit id w = (Ok (db w !! id), counted w).
Proof. unfold dbGetOutfit. now rewrite storeRequest_ok by apply Hstore. Qed.

Lemma dbPutOutfit_run (o : Outfit.t) (w : World) :
  dbPutOutfit o w
  = (Ok tt, set_db (fun m => <[Outfit.id o := o]> m) (counted w)).
Proof. unfold dbPutOutfit. now rewrite storeRequest_ok by apply Hstore. Qed.

Lemma dbDeleteOutfit_run (id : string) (w : World) :
  dbDeleteOutfit id w = (Ok tt, set_db (fun m => delete id m) (counted w)).
Proof. unfold dbDeleteOutfit. now rewrite storeRequest_ok by apply Hstore. Qed.

Lemma dbGetAllOutfits_run (w : World) :
  dbGetAllOutfits w = (Ok (getAll (db w)), counted w).
Proof.
  unfold dbGetAllOutfits. now rewrite storeRequest_ok by apply Hstore.
Qed.

Lemma refresh_run (w : World) :
  let s := set_outfits (getAll (db w)) (app w) in
  let stale := Num.gtb (staleDays (filter (app w))) (Fin 0) in
  refresh w
  = (Ok tt,
     mkWorld (db w)
       (set_filtered
          (visibleOutfits (if stale then dateNow (tick w) else 0) s) s)
       (toastAction w) (timers w) (nextTimer w)
       (if stale then S (tick w) else tick w) (S (requests w))).
Proof. apply refresh_served, Hstore. Qed.

(** What the store and the state look like once
    [deleteDetailWithUndo] has removed the record shown in the detail
    view. *)
Lemma deleteDetailWithUndo_run (w : World) (x : Outfit.t) :
  selectedId (app w) = Some (Outfit.id x) ->
  Outfit.id x <> "" ->
  db w !! Outfit.id x = Some x ->
  exists w1,
    deleteDetailWithUndo w = (Ok tt, w1)
    /\ db w1 = delete (Outfit.id x) (db w)
    /\ lastDeleted (app w1) = Some x
    /\ outfits (app w1) = getAll (db w1)
    /\ toastAction w1 = Some UndoDetail
    /\ undoTimer (app w1) = Some (nextTimer w)
    /\ nextTimer w ∈ timers w1.
Proof.
  intros Hsel Hid Hx.
  unfold deleteDetailWithUndo.
  cbv [bind gets]. rewrite Hsel.
  destruct (String.eqb_spec (Outfit.id x) ""); [contradiction |].
  rewrite dbGetOutfit_run. cbn [db counted]. rewrite Hx.
  destruct (undoTimer (app w)) as [t |];
    cbv [clearTimeout modify ret closeDetailModal showToast setUndoTimeout];
    rewrite dbDeleteOutfit_run, refresh_run;
    eexists; (split; [reflexivity |]);
    cbn; repeat split; try reflexivity; set_solver.
Qed.

Lemma undoDetail_run (w : World) (x : Outfit.t) :
  lastDeleted (app w) = Some x ->
  exists w2,
    undoDetail w = (Ok tt, w2)
    /\ db w2 = <[Outfit.id x := x]> (db w)
    /\ lastDeleted (app w2) = None
    /\ outfits (app w2) = getAll (db w2)
    /\ toastAction w2 = None.
Proof.
  intros Hl. unfold undoDetail. cbv [bind gets]. rewrite Hl.
  rewrite dbPutOutfit_run. cbv [modify showToast]. rewrite refresh_run.
  eexists. split; [reflexivity |]. cbn. repeat split; reflexivity.
Qed.

Lemma undoDetail_nothing (w : World) :
  lastDeleted (app w) = None -> undoDetail w = (Ok tt, w).
Proof. intros Hl. unfold undoDetail. cbv [bind gets ret]. now rewrite Hl. Qed.

End StoreFacts.

(** C8.  Let [x] be the stored record shown in the detail view, in a store
    that files records under their ids, on a host whose object store
    fails no request (a rejected request makes the listener stop where it
    is).  After [deleteDetailWithUndo] the store no longer holds [x]; if
    the toast's Undo action runs while the deleted record is still
    remembered (the undo timer has not fired), it completes and the store
    is again exactly what it was, so [getAll] contains [x] unchanged;
    running the undo action once more, through the toast button or
    directly, changes nothing and makes no request. *)
Theorem delete_then_undo_restores `{Host} (w : World) (x : Outfit.t) :
  reliableStore ->
  keyed (db w) ->
  selectedId (app w) = Some (Outfit.id x) ->
  Outfit.id x <> "" ->
  db w !! Outfit.id x = Some x ->
  let w1 := snd (deleteDetailWithUndo w) in
  let w2 := snd (clickToastAction w1) in
  (db w1 !! Outfit.id x = None /\ x ∉ getAll (db w1))
  /\ (fst (clickToastAction w1) = Ok tt
      /\ db w2 = db w /\ x ∈ getAll (db w2)
      /\ outfits (app w2) = getAll (db w))
  /\ clickToastAction w2 = (Ok tt, w2)
  /\ undoDetail w2 = (Ok tt, w2).
Proof.
  intros Hstore Hkeyed Hsel Hid Hx w1 w2.
  destruct (deleteDetailWithUndo_run Hstore w x Hsel Hid Hx)
    as (w1' & Hrun & Hdb1 & Hl1 & Ho1 & Ht1 & _).
  assert (Hw1 : w1 = w1') by (subst w1; now rewrite Hrun).
  clearbody w1. subst w1'.
  destruct (undoDetail_run Hstore w1 x Hl1)
    as (w2' & Hrun2 & Hdb2 & Hl2 & Ho2 & Ht2).
  assert (Hclick : clickToastAction w1 = (Ok tt, w2')).
  { unfold clickToastAction. cbv [bind gets]. now rewrite Ht1. }
  assert (Hw2 : w2 = w2') by (subst w2; now rewrite Hclick).
  clearbody w2. subst w2'.
  assert (Hback : db w2 = db w).
  { rewrite Hdb2, Hdb1, insert_delete_eq. now apply insert_id. }
  split; [| split; [| split]].
  - split.
    + rewrite Hdb1. apply lookup_delete_eq.
    + rewrite Hdb1, elem_of_getAll_keyed by now apply keyed_delete.
      rewrite lookup_delete_eq. discriminate.
  - rewrite Hclick. split; [reflexivity |]. split; [exact Hback |].
    split; [| now rewrite Ho2, Hback].
    rewrite Hback. apply elem_of_getAll. now exists (Outfit.id x).
  - unfold clickToastAction. cbv [bind gets ret]. now rewrite Ht2.
  - now apply undoDetail_nothing.
Qed.

(** The demonstration world holds two records and shows [Sample.worn] in
    the detail view. *)
Lemma delete_then_undo_restores_witness :
  let s := set_selectedId (Some (Outfit.id Sample.worn))
             (Sample.state [Sample.fresh; Sample.worn] Sample.noFilter) in
  let w := Sample.world [Sample.fresh; Sample.worn] s 0 in
  let w1 := snd (@deleteDetailWithUndo demoHost w) in
  let w2 := snd (@clickToastAction demoHost w1) in
  db w2 = db w /\ Sample.worn ∈ getAll (db w2)
  /\ @clickToastAction demoHost w2 = (Ok tt, w2).
Proof.
  intros s w w1 w2.
  assert (Hkeyed : keyed (db w)).
  { subst w. unfold Sample.world. cbn [db fmap list_fmap list_to_map foldr].
    repeat apply keyed_insert. apply keyed_empty. }
  destruct (@delete_then_undo_restores demoHost w Sample.worn
              (fun _ => eq_refl) Hkeyed
              eq_refl ltac:(discriminate) ltac:(reflexivity))
    as (_ & (_ & Hdb & Hin & _) & Hclick & _).
  split; [exact Hdb |]. split; [exact Hin | exact Hclick].
Defined.

(** ** Bulk controller *)

Section BulkFacts.
Context `{Host}.

Lemma for_of_put_run (f : Outfit.t -> Outfit.t) (l : list Outfit.t)
    (w : World) :
  reliableStore ->
  for_of l (fun o => dbPutOutfit (f o)) w
  = (Ok tt, set_db (putAll f l) (countedBy (length l) w)).
Proof.
  intros Hstore. revert w. induction l as [| a r IH]; intros w.
  - destruct w; reflexivity.
  - cbn [for_of]. cbv [bind]. rewrite (dbPutOutfit_run Hstore), IH.
    destruct w. cbv [set_db countedBy counted]. cbn. do 2 f_equal. lia.
Qed.

Lemma putAll_other (f : Outfit.t -> Outfit.t) (l : list Outfit.t)
    (m : gmap string Outfit.t) (k : string) :
  (forall o, o ∈ l -> Outfit.id (f o) <> k) ->
  putAll f l m !! k = m !! k.
Proof.
  revert m. induction l as [| a r IH]; intros m Hk; [reflexivity |].
  cbn [putAll foldl]. fold (putAll f r (<[Outfit.id (f a) := f a]> m)).
  rewrite IH.
  - apply lookup_insert_ne, Hk. left.
  - intros o Ho. apply Hk. now right.
Qed.

Lemma putAll_member (f : Outfit.t -> Outfit.t) (l : list Outfit.t)
    (m : gmap string Outfit.t) (o : Outfit.t) :
  (forall a, Outfit.id (f a) = Outfit.id a) ->
  NoDup (Outfit.id <$> l) -> o ∈ l ->
  putAll f l m !! Outfit.id o = Some (f o).
Proof.
  intros Hid. revert m. induction l as [| a r IH]; intros m Hnd Ho.
  - inversion Ho.
  - cbn [fmap list_fmap] in Hnd. apply NoDup_cons in Hnd as [Ha Hnd].
    cbn [putAll foldl]. fold (putAll f r (<[Outfit.id (f a) := f a]> m)).
    apply elem_of_cons in Ho as [-> | Ho].
    + rewrite putAll_other.
      * rewrite Hid. apply lookup_insert_eq.
      * intros o Ho Heq. apply Ha. rewrite Hid in Heq. rewrite <- Heq.
        now apply list_elem_of_fmap_2.
    + now apply IH.
Qed.

Lemma NoDup_ids_filter (p : Outfit.t -> bool) (l : list Outfit.t) :
  NoDup (Outfit.id <$> l) -> NoDup (Outfit.id <$> List.filter p l).
Proof.
  induction l as [| a r IH]; intros Hnd; [constructor |].
  cbn [fmap list_fmap] in Hnd. apply NoDup_cons in Hnd as [Ha Hnd].
  cbn [List.filter]. destruct (p a); [| now apply IH].
  cbn [fmap list_fmap]. apply NoDup_cons. split; [| now apply IH].
  intros Hin. apply Ha.
  apply list_elem_of_fmap in Hin as (o & Heq & Ho).
  apply list_elem_of_In, filter_In in Ho as [Ho _].
  rewrite Heq. now apply list_elem_of_fmap_2, list_elem_of_In.
Qed.

Lemma NoDup_ids_getAll (m : gmap string Outfit.t) :
  keyed m -> NoDup (Outfit.id <$> getAll m).
Proof.
  intros Hm. unfold getAll. rewrite merge_sort_Permutation.
  rewrite <- list_fmap_compose.
  rewrite (list_fmap_ext _ fst (map_to_list m)).
  - apply NoDup_fst_map_to_list.
  - intros i [k o] Hi. cbn.
    apply list_elem_of_lookup_2, elem_of_map_to_list in Hi.
    now apply Hm.
Qed.

Lemma selectedOutfits_elem (s : State) (o : Outfit.t) :
  o ∈ selectedOutfits s <-> o ∈ outfits s /\ Outfit.id o ∈ selectedSet s.
Proof.
  unfold selectedOutfits. rewrite !list_elem_of_In, filter_In.
  rewrite bool_decide_eq_true. tauto.
Qed.

End BulkFacts.

(** C7.  On a host whose object store fails no request, and when no two
    records of the snapshot share an id (the snapshot always comes from
    [getAll]), [bulkToggleFavorite] completes and the store then holds,
    under the id of every selected record, that record with its
    [favorite] flag set to one common value and every other field as the
    snapshot has it: [false] when all selected records were favorites,
    [true] otherwise.  Records outside the selection are not touched, and
    the snapshot is reloaded. *)
Theorem bulkToggleFavorite_majority_flip `{Host} (w : World) :
  reliableStore ->
  NoDup (Outfit.id <$> outfits (app w)) ->
  let selected := selectedOutfits (app w) in
  let target := negb (forallb Outfit.favorite selected) in
  let w' := snd (bulkToggleFavorite w) in
  fst (bulkToggleFavorite w) = Ok tt
  /\ (forall o, o ∈ selected ->
        db w' !! Outfit.id o
        = Some (Outfit.mk (Outfit.id o) (Outfit.name o) (Outfit.rating o)
                  target (Outfit.createdAt o) (Outfit.imageBlob o)
                  (Outfit.tags o) (Outfit.notes o) (Outfit.wearCount o)
                  (Outfit.lastWornAt o)))
  /\ (forall k, k ∉ selectedSet (app w) -> db w' !! k = db w !! k)
  /\ (selectedSet (app w) <> ∅ -> outfits (app w') = getAll (db w')).
Proof.
  intros Hstore Hnd selected target w'. subst w'.
  unfold bulkToggleFavorite. cbv [bind gets].
  destruct (decide (size (selectedSet (app w)) = 0%nat)) as [Hz | Hnz].
  - apply size_empty_inv, leibniz_equiv in Hz.
    cbn. split; [reflexivity |].
    split; [| split; [reflexivity | congruence]].
    intros o Ho. exfalso. apply selectedOutfits_elem in Ho as [_ Ho].
    rewrite Hz in Ho. now apply not_elem_of_empty in Ho.
  - fold selected.
    rewrite (for_of_put_run _ _ _ Hstore), (refresh_run Hstore).
    cbv [showToast modify]. cbn [fst snd db app set_db set_toastAction
      outfits set_filtered set_outfits countedBy].
    split; [reflexivity |].
    assert (Htarget : forall o, o ∈ selected ->
              negb ((0 <? length selected)%nat
                    && forallb Outfit.favorite selected) = target).
    { intros o Ho. subst target. destruct selected; [inversion Ho |].
      reflexivity. }
    split; [| split; [| reflexivity]].
    + intros o Ho. rewrite (Htarget o Ho).
      apply (putAll_member (fun a => Outfit.with_favorite a target));
        [reflexivity | | exact Ho].
      subst selected. unfold selectedOutfits. now apply NoDup_ids_filter.
    + intros k Hk. apply putAll_other. intros o Ho Heq.
      apply selectedOutfits_elem in Ho as [_ Ho]. cbn in Heq. congruence.
Qed.

(** Selecting A (a favorite) and B (not a favorite) makes both
    favorites. *)
Lemma bulkToggleFavorite_majority_flip_witness :
  let s := mkState [Sample.worn; Sample.fresh] [] "" "date_desc"
             Sample.noFilter None true
             {[Outfit.id Sample.worn; Outfit.id Sample.fresh]} None None in
  let w := Sample.world [Sample.worn; Sample.fresh] s 0 in
  let w' := snd (@bulkToggleFavorite demoHost w) in
  Outfit.favorite Sample.worn = true /\ Outfit.favorite Sample.fresh = false
  /\ db w' !! Outfit.id Sample.worn = Some Sample.worn
  /\ db w' !! Outfit.id Sample.fresh
     = Some (Outfit.mk "o_1690000000001_b2" "Rain coat" (Fin 2) true
               (Fin 1690000000001) Sample.photo ["rain"] "waxed" (Fin 0)
               (Fin 0)).
Proof.
  intros s w w'.
  assert (Hnd : NoDup (Outfit.id <$> outfits (app w))).
  { cbn. apply NoDup_cons. split; [| apply NoDup_singleton].
    rewrite list_elem_of_singleton. discriminate. }
  destruct (@bulkToggleFavorite_majority_flip demoHost w
              (fun _ => eq_refl) Hnd)
    as (_ & Hsel & _).
  split; [reflexivity |]. split; [reflexivity |]. split.
  - apply (Hsel Sample.worn). vm_compute. left.
  - apply (Hsel Sample.fresh). vm_compute. right. left.
Defined.

(** ** Backup codec *)

Section ImportFacts.
Context `{Host}.





(** The shape of [importOutfitsFromFile] on a document that passes the
    top-level check. *)
Lemma importOutfitsFromFile_run (file : FileText) (data : JsVal)
    (entries : list JsVal) (w : World) :
  JSON.parse file = Ok data ->
  Js.truthy data = true ->
  Js.get data "outfits" = VArr entries ->
  importOutfitsFromFile file w
  = match for_of_with entries
            (list_to_set (Outfit.id <$> outfits (app w))) importEntry w with
    | (Ok _, w') => bind refresh (fun _ => showToast None) w'
    | (Throw e, w') => (Throw e, w')
    end.
Proof.
  intros Hparse Htruthy Hentries.
  unfold importOutfitsFromFile. cbv [bind lift gets]. rewrite Hparse.
  rewrite Htruthy, Hentries. cbn [negb orb isArray].
  destruct (for_of_with entries _ importEntry w) as [[ex | e] w'];
    reflexivity.
Qed.

Lemma importOutfitsFromFile_rejects (file : FileText) (w : World) :
  match JSON.parse file with
  | Throw e => importOutfitsFromFile file w = (Throw e, w)
  | Ok data =>
      Js.truthy data = false \/ isArray (Js.get data "outfits") = false ->
      importOutfitsFromFile file w = (Throw BackupFormatError, w)
  end.
Proof.
  unfold importOutfitsFromFile. cbv [bind lift].
  destruct (JSON.parse file) as [data | e]; [| reflexivity].
  intros [Hd | Ha]; rewrite ?Hd, ?Ha; cbn [negb orb];
    [| rewrite orb_true_r]; reflexivity.
Qed.

Lemma importOutfitsFromFile_cases (file : FileText) (w : World) :
  (exists e, importOutfitsFromFile file w = (Throw e, w))
  \/ (exists data entries,
        JSON.parse file = Ok data /\ Js.truthy data = true
        /\ Js.get data "outfits" = VArr entries).
Proof.
  pose proof (importOutfitsFromFile_rejects file w) as Hrej.
  destruct (JSON.parse file) as [data | e] eqn:Hparse;
    [| left; now exists e].
  destruct (Js.truthy data) eqn:Ht;
    [| left; exists BackupFormatError; apply Hrej; now left].
  destruct (Js.get data "outfits") as [| | | | | entries |] eqn:Ho.
  1-5, 7: left; exists BackupFormatError; apply Hrej; right; reflexivity.
  right. now exists data, entries.
Qed.

Lemma safeName_nonempty (v : JsVal) (n : string) :
  safeName v = Ok n -> n <> "".
Proof.
  unfold safeName, res_bind. destruct (string_or_empty v) as [s |];
    [| discriminate].
  intros [= <-]. destruct (String.eqb_spec (Str.trim s) ""); cbn.
  - discriminate.
  - assumption.
Qed.















End ImportFacts.



(** ** Tags survive a join and a re-parse *)

Lemma Array_join_strings `{Host} (sep : string) (l : list string) :
  Js.Array_join sep (VStr <$> l) = joinStrings sep l.
Proof.
  induction l as [| s rest IH]; [reflexivity |].
  cbn [fmap list_fmap Js.Array_join joinStrings] in *.
  destruct rest as [| s' rest']; [reflexivity |].
  cbn [list_fmap] in *. now rewrite IH.
Qed.

Lemma split_no_sep (c : ascii) (s : string) :
  hasChar c s = false -> Str.split c s = [s].
Proof.
  induction s as [| a r IH]; [reflexivity |].
  cbn [hasChar Str.split]. intros Hc. apply orb_false_iff in Hc as [Ha Hr].
  rewrite Ha, (IH Hr). reflexivity.
Qed.

Lemma split_append (c : ascii) (s rest : string) :
  hasChar c s = false ->
  Str.split c (s +:+ String c rest) = s :: Str.split c rest.
Proof.
  induction s as [| a r IH]; intros Hc.
  - change ("" +:+ String c rest) with (String c rest).
    cbn [Str.split]. now rewrite Ascii.eqb_refl.
  - cbn [hasChar] in Hc. apply orb_false_iff in Hc as [Ha Hr].
    change (String a r +:+ String c rest)
      with (String a (r +:+ String c rest)).
    cbn [Str.split]. rewrite Ha, (IH Hr). reflexivity.
Qed.

Lemma split_join (l : list string) :
  l <> [] -> Forall (fun t => hasChar "," t = false) l ->
  Str.split "," (joinStrings "," l) = l.
Proof.
  induction l as [| s rest IH]; [congruence |].
  intros _ Hall. apply Forall_cons in Hall as [Hs Hrest].
  cbn [joinStrings]. destruct rest as [| s' rest'].
  - now apply split_no_sep.
  - change (s +:+ "," +:+ joinStrings "," (s' :: rest'))
      with (s +:+ String "," (joinStrings "," (s' :: rest'))).
    rewrite split_append by exact Hs.
    now rewrite IH.
Qed.

Lemma uniq_from_NoDup_id (seen l : list string) :
  NoDup l -> (forall x, x ∈ l -> x ∉ seen) -> Str.uniq_from seen l = l.
Proof.
  revert seen. induction l as [| x r IH]; intros seen Hnd Hseen;
    [reflexivity |].
  apply NoDup_cons in Hnd as [Hx Hnd]. cbn [Str.uniq_from].
  rewrite (proj2 (mem_false x seen)) by (apply Hseen; left).
  rewrite IH; [reflexivity | exact Hnd |].
  intros y Hy. rewrite not_elem_of_cons. split.
  - intros ->. contradiction.
  - apply Hseen. now right.
Qed.

Lemma cleanTags_join (l : list string) :
  Forall validTag l -> NoDup l -> (length l <= 20)%nat ->
  cleanTags (joinStrings "," l) = l.
Proof.
  intros Hall Hnd Hlen. unfold cleanTags.
  destruct l as [| s rest]; [reflexivity |].
  rewrite split_join; [| discriminate |].
  2: { eapply Forall_impl; [exact Hall |]. now intros t (_ & _ & _ & Hc). }
  assert (Hmap : List.map (fun x => Str.toLowerCase (Str.trim x)) (s :: rest)
                 = s :: rest).
  { clear Hnd Hlen. induction Hall as [| t l' (_ & Ht & Hl & _) _ IH];
      [reflexivity |].
    cbn [List.map]. now rewrite Ht, Hl, IH. }
  rewrite Hmap.
  assert (Hfilter : List.filter (fun x => negb (String.eqb x "")) (s :: rest)
                    = s :: rest).
  { clear Hnd Hlen Hmap. induction Hall as [| t l' (Hne & _) _ IH];
      [reflexivity |].
    cbn [List.filter]. destruct (String.eqb_spec t ""); [contradiction |].
    cbn [negb]. now rewrite IH. }
  rewrite Hfilter. unfold Str.uniq.
  rewrite uniq_from_NoDup_id; [| exact Hnd | intros; apply not_elem_of_nil].
  now apply take_ge.
Qed.

(** ** Export then import *)

Section RoundTrip.
Context `{Host}.

Lemma stringify_strings (l : list string) :
  JSON.stringify (VArr (VStr <$> l)) = Some (JArray (JString <$> l)).
Proof.
  induction l as [| s rest IH]; [reflexivity |].
  cbn in IH |- *. injection IH as IH. now rewrite IH.
Qed.

Lemma value_strings (l : list string) :
  JSON.value (JArray (JString <$> l)) = VArr (VStr <$> l).
Proof.
  induction l as [| s rest IH]; [reflexivity |].
  cbn in IH |- *. injection IH as IH. now rewrite IH.
Qed.

(** The entry the import loop reads back for the exported record [r]. *)
Lemma export_text (r : Outfit.t) (w0 : World) (url : string)
    (j t n m : Z) :
  readAsDataURL (Outfit.imageBlob r) = Some url ->
  Outfit.rating r = num_of_Z j ->
  Outfit.createdAt r = num_of_Z t ->
  Outfit.wearCount r = num_of_Z n ->
  Outfit.lastWornAt r = num_of_Z m ->
  exists text data,
    fst (exportOutfits [r] w0) = Ok text
    /\ JSON.parse text = Ok data
    /\ Js.truthy data = true
    /\ Js.get data "outfits"
       = VArr [VObj [ ("id", VStr (Outfit.id r));
                      ("name", VStr (Outfit.name r));
                      ("rating", VNum (num_of_Z j));
                      ("favorite", VBool (Outfit.favorite r));
                      ("createdAt", VNum (num_of_Z t));
                      ("tags", VArr (VStr <$> Outfit.tags r));
                      ("notes", VStr (Outfit.notes r));
                      ("wearCount", VNum (num_of_Z n));
                      ("lastWornAt", VNum (num_of_Z m));
                      ("imageDataUrl", VStr url) ]].
Proof.
  intros Hread Hj Ht Hn Hm.
  unfold exportOutfits.
  cbv [bind Date_now exportEntries exportEntry lift blobToDataURL
         of_option res_bind showToast modify ret].
  rewrite Hread, Hj, Ht, Hn, Hm. cbn [fst].
  pose proof (stringify_strings (Outfit.tags r)) as Es.
  pose proof (value_strings (Outfit.tags r)) as Ev.
  cbn in Es, Ev. injection Es as Es. injection Ev as Ev.
  cbn. rewrite Es. cbn.
  eexists _, _. split; [reflexivity |]. cbn. rewrite Ev.
  split; [reflexivity |]. split; reflexivity.
Qed.

Lemma truthy_num_of_Z (z : Z) : Num.truthy (num_of_Z z) = negb (z =? 0)%Z.
Proof.
  unfold Num.truthy, num_of_Z. f_equal.
  destruct (Z.eqb_spec z 0) as [-> | Hne]; [reflexivity |].
  destruct (Qeq_bool (inject_Z z) 0) eqn:Hq; [| reflexivity].
  apply Qeq_bool_iff in Hq. unfold Qeq, inject_Z in Hq. cbn in Hq. lia.
Qed.

Lemma number_or_zero (z : Z) :
  Js.Number (Js.or (VNum (num_of_Z z)) (VNum (Fin 0))) = num_of_Z z.
Proof.
  unfold Js.or. cbn [Js.truthy]. rewrite truthy_num_of_Z.
  destruct (Z.eqb_spec z 0) as [-> | Hne]; reflexivity.
Qed.

Lemma clampRating_or_zero (z : Z) :
  0 <= z <= 5 ->
  clampRating (Js.or (VNum (num_of_Z z)) (VNum (Fin 0))) = num_of_Z z.
Proof.
  intros Hz. unfold Js.or. cbn [Js.truthy]. rewrite truthy_num_of_Z.
  destruct (Z.eqb_spec z 0) as [-> | Hne]; cbn [negb].
  - apply (clampRating_int 0). lia.
  - now apply clampRating_int.
Qed.

Lemma safeName_valid (s : string) :
  s <> "" -> Str.trim s = s -> safeName (VStr s) = Ok s.
Proof.
  intros Hne Htrim. unfold safeName. rewrite string_or_empty_str.
  cbn [res_bind]. rewrite Htrim.
  destruct (String.eqb_spec s ""); [contradiction | reflexivity].
Qed.

Lemma trimmedText_valid (s : string) :
  Str.trim s = s -> trimmedText (VStr s) = Ok s.
Proof.
  intros Htrim. unfold trimmedText. rewrite string_or_empty_str.
  cbn [res_bind]. now rewrite Htrim.
Qed.

Lemma importTags_valid (l : list string) :
  Forall validTag l -> NoDup l -> (length l <= 20)%nat ->
  importTags (VArr (VStr <$> l)) = Ok l.
Proof.
  intros Hall Hnd Hlen. unfold importTags.
  rewrite Array_join_strings, parseTags_str.
  now rewrite cleanTags_join.
Qed.

(** What the import loop does with that entry when no id is known
    yet. *)
Lemma import_exported_entry (r : Outfit.t) (w : World) (url : string)
    (b' : Blob) (j t n m : Z) :
  reliableStore ->
  validRecord r ->
  url <> "" ->
  fetchBlob (VStr url) = Some b' ->
  Outfit.rating r = num_of_Z j -> 0 <= j <= 5 ->
  Outfit.createdAt r = num_of_Z t -> 0 < t ->
  Outfit.wearCount r = num_of_Z n ->
  Outfit.lastWornAt r = num_of_Z m ->
  importEntry
    (VObj [ ("id", VStr (Outfit.id r));
            ("name", VStr (Outfit.name r));
            ("rating", VNum (num_of_Z j));
            ("favorite", VBool (Outfit.favorite r));
            ("createdAt", VNum (num_of_Z t));
            ("tags", VArr (VStr <$> Outfit.tags r));
            ("notes", VStr (Outfit.notes r));
            ("wearCount", VNum (num_of_Z n));
            ("lastWornAt", VNum (num_of_Z m));
            ("imageDataUrl", VStr url) ]) ∅ w
  = (Ok ({[Outfit.id r]} ∪ ∅),
     set_db (fun d => <[Outfit.id r := Outfit.with_imageBlob r b']> d)
       (counted w)).
Proof.
  intros Hstore Hv Hurl Hfetch Hj Hj5 Ht Ht0 Hn Hm.
  destruct Hv as [Hid [Hname Hntrim] _ _ (Htags & Hnd & Hlen) Hnotes _ _].
  unfold importEntry, payloadMissing, entryId.
  cbn [Js.get Js.lookup_prop String.eqb Ascii.eqb Bool.eqb Js.truthy
         negb orb andb].
  destruct (String.eqb_spec url ""); [contradiction |].
  destruct (String.eqb_spec (Outfit.id r) ""); [contradiction |].
  rewrite bool_decide_eq_false_2 by apply not_elem_of_empty.
  cbn [negb andb].
  unfold dataURLToBlob, numberOrNow. rewrite Hfetch.
  cbn [Js.truthy]. rewrite truthy_num_of_Z.
  destruct (Z.eqb_spec t 0) as [-> | _]; [lia |]. cbn [negb].
  rewrite (safeName_valid _ Hname Hntrim).
  rewrite (importTags_valid _ Htags Hnd Hlen).
  rewrite (trimmedText_valid _ Hnotes).
  rewrite (clampRating_or_zero j Hj5), !number_or_zero.
  cbv [bind lift ret of_option storeKey dbPutOutfit storeRequest modify
         addExisting].
  rewrite (Hstore (requests w)).
  cbn [Js.Number Outfit.id]. f_equal. f_equal.
  destruct r. cbn in *. subst. reflexivity.
Qed.

End RoundTrip.

(** C3 (amended).  On a host whose object store fails no request, let
    [r] satisfy the data model of section 3 (a non-empty id, a non-empty
    trimmed name, an integer rating from 0 to 5, a positive integer
    [createdAt], at most 20 distinct clean tags, trimmed notes,
    non-negative integer counters), let the reader render its payload as
    a non-empty data URL, and let [fetch] decode that URL to a blob with
    the same bytes.  Exporting [[r]] and importing the resulting text
    into an empty store (with an empty snapshot) runs to its end and
    leaves exactly one record, filed under the id of [r]: it equals [r]
    in every field but the payload, and its payload has the bytes of the
    payload of [r]. *)
Theorem export_import_roundtrip `{Host}
    (r : Outfit.t) (w0 w : World) (url : string) (b' : Blob) :
  reliableStore ->
  validRecord r ->
  readAsDataURL (Outfit.imageBlob r) = Some url ->
  url <> "" ->
  fetchBlob (VStr url) = Some b' ->
  blob_bytes b' = blob_bytes (Outfit.imageBlob r) ->
  db w = ∅ ->
  outfits (app w) = [] ->
  exists text r',
    fst (exportOutfits [r] w0) = Ok text
    /\ fst (importOutfitsFromFile text w) = Ok tt
    /\ db (snd (importOutfitsFromFile text w)) = {[Outfit.id r := r']}
    /\ outfits (app (snd (importOutfitsFromFile text w))) = [r']
    /\ r' = Outfit.with_imageBlob r (Outfit.imageBlob r')
    /\ blob_bytes (Outfit.imageBlob r') = blob_bytes (Outfit.imageBlob r).
Proof.
  intros Hstore Hv Hread Hurl Hfetch Hbytes Hdb Hsnap.
  destruct (valid_rating r Hv) as (j & Hj5 & Hj).
  destruct (valid_createdAt r Hv) as (t & Ht0 & Ht).
  destruct (valid_wearCount r Hv) as (n & _ & Hn).
  destruct (valid_lastWornAt r Hv) as (m & _ & Hm).
  destruct (export_text r w0 url j t n m Hread Hj Ht Hn Hm)
    as (text & data & Hexport & Hparse & Htruthy & Hentries).
  exists text, (Outfit.with_imageBlob r b').
  split; [exact Hexport |].
  rewrite (importOutfitsFromFile_run text data _ w Hparse Htruthy Hentries).
  rewrite Hsnap. cbn [fmap list_fmap list_to_set foldr for_of_with].
  cbv [bind].
  change (list_to_set []) with (∅ : gset string).
  rewrite (import_exported_entry r w url b' j t n m Hstore Hv Hurl Hfetch
             Hj Hj5 Ht Ht0 Hn Hm).
  cbv [ret]. rewrite (refresh_run Hstore).
  cbn [fst snd db app set_db counted showToast modify set_toastAction
         outfits set_filtered set_outfits Outfit.imageBlob
         Outfit.with_imageBlob].
  rewrite Hdb.
  split; [reflexivity |]. split; [reflexivity |].
  split; [| split; [reflexivity | exact Hbytes]].
  change (<[Outfit.id r := Outfit.with_imageBlob r b']> ∅)
    with ({[Outfit.id r := Outfit.with_imageBlob r b']}
          : gmap string Outfit.t).
  unfold getAll. rewrite map_to_list_singleton. reflexivity.
Qed.

Lemma Sample_worn_valid : validRecord Sample.worn.
Proof.
  constructor; cbn.
  - discriminate.
  - split; [discriminate | reflexivity].
  - exists 4. split; [lia | reflexivity].
  - exists 1690000000000. split; [lia | reflexivity].
  - split; [| split; [| lia]].
    + repeat constructor; discriminate.
    + apply NoDup_cons. split; [| apply NoDup_singleton].
      rewrite list_elem_of_singleton. discriminate.
  - reflexivity.
  - exists 3. split; [lia | reflexivity].
  - exists 1697408000000. split; [lia | reflexivity].
Qed.

(** On the demonstration host, [Sample.worn] survives the round trip. *)
Lemma export_import_roundtrip_witness :
  let w := Sample.world [] (Sample.state [] Sample.noFilter) 0 in
  exists text r',
    fst (@exportOutfits demoHost [Sample.worn] w) = Ok text
    /\ fst (@importOutfitsFromFile demoHost text w) = Ok tt
    /\ db (snd (@importOutfitsFromFile demoHost text w))
       = {[Outfit.id Sample.worn := r']}
    /\ outfits (app (snd (@importOutfitsFromFile demoHost text w))) = [r']
    /\ r' = Outfit.with_imageBlob Sample.worn (Outfit.imageBlob r')
    /\ blob_bytes (Outfit.imageBlob r')
       = blob_bytes (Outfit.imageBlob Sample.worn).
Proof.
  intros w.
  apply (@export_import_roundtrip demoHost Sample.worn w w
           (Toy.dataURL Sample.photo)
           (mkBlob (blob_bytes Sample.photo) "")).
  - intros n. reflexivity.
  - exact Sample_worn_valid.
  - reflexivity.
  - discriminate.
  - reflexivity.
  - reflexivity.
  - reflexivity.
  - reflexivity.
Defined.

(** C3, as stated, fails: not every record the program stores is read
    back as it was.  The import stores the entry [Doc.uncounted], whose
    [wearCount] is a text that is no number, with [Number] of that text,
    NaN, as counter.  The export writes NaN as null, and the import of
    the exported text into the empty store files the record with the
    counter 0. *)
Lemma export_import_resets_counter :
  let w := Sample.world [] (Sample.state [] Sample.noFilter) 0 in
  let w1 := snd (@importOutfitsFromFile demoHost
                   (Doc.backup [Doc.uncounted]) w) in
  exists r text r',
    db w1 = {[Outfit.id r := r]}
    /\ Outfit.wearCount r = NaN
    /\ fst (@exportOutfits demoHost [r] w1) = Ok text
    /\ fst (@importOutfitsFromFile demoHost text w) = Ok tt
    /\ db (snd (@importOutfitsFromFile demoHost text w))
       = {[Outfit.id r := r']}
    /\ Outfit.wearCount r' = Fin 0
    /\ r' <> Outfit.with_imageBlob r (Outfit.imageBlob r').
Proof.
  cbv zeta.
  exists (Outfit.mk "o_1690000000007_a7" "Seldom counted" (Fin 0) false
            (Fin 1690000000007) (mkBlob (list_byte_of_string "mno") "")
            [] "" NaN (Fin 0)).
  eexists _, _.
  split; [vm_compute; reflexivity |].
  split; [reflexivity |].
  split; [vm_compute; reflexivity |].
  split; [vm_compute; reflexivity |].
  split; [vm_compute; reflexivity |].
  split; [reflexivity |].
  intros Heq. apply (f_equal Outfit.wearCount) in Heq. discriminate Heq.
Qed.



(** ** The create path establishes the data model *)

Lemma trimStart_head (c : ascii) (r : string) :
  Str.is_space c = false -> Str.trimStart (String c r) = String c r.
Proof. intros Hc. cbn [Str.trimStart]. now rewrite Hc. Qed.

Lemma trimStart_shape (s : string) :
  Str.trimStart s = ""
  \/ exists c r, Str.trimStart s = String c r /\ Str.is_space c = false.
Proof.
  induction s as [| c r IH]; [now left |].
  cbn [Str.trimStart]. destruct (Str.is_space c) eqn:Hc; [exact IH |].
  right. now exists c, r.
Qed.

Lemma trimEnd_idem (s : string) : Str.trimEnd (Str.trimEnd s) = Str.trimEnd s.
Proof.
  induction s as [| c r IH]; [reflexivity |].
  cbn [Str.trimEnd].
  destruct (Str.is_space c && (Str.trimEnd r =? ""))%string eqn:Hc;
    [reflexivity |].
  cbn [Str.trimEnd]. now rewrite IH, Hc.
Qed.

Lemma trimStart_trimEnd (c : ascii) (r : string) :
  Str.is_space c = false ->
  Str.trimStart (Str.trimEnd (String c r)) = Str.trimEnd (String c r).
Proof.
  intros Hc. cbn [Str.trimEnd]. rewrite Hc. cbn [andb].
  now apply trimStart_head.
Qed.

Lemma trim_idem (s : string) : Str.trim (Str.trim s) = Str.trim s.
Proof.
  unfold Str.trim.
  destruct (trimStart_shape s) as [-> | (c & r & -> & Hc)]; [reflexivity |].
  rewrite (trimStart_trimEnd c r Hc). apply trimEnd_idem.
Qed.

Lemma is_space_lower (c : ascii) :
  Str.is_space (Str.lower_char c) = Str.is_space c.
Proof.
  destruct c as [[] [] [] [] [] [] [] []]; vm_compute; reflexivity.
Qed.

Lemma comma_lower (c : ascii) :
  Ascii.eqb (Str.lower_char c) "," = Ascii.eqb c ",".
Proof.
  destruct c as [[] [] [] [] [] [] [] []]; vm_compute; reflexivity.
Qed.

Lemma toLowerCase_empty (s : string) :
  (Str.toLowerCase s =? "")%string = (s =? "")%string.
Proof. destruct s; reflexivity. Qed.

Lemma trimStart_lower (s : string) :
  Str.trimStart (Str.toLowerCase s) = Str.toLowerCase (Str.trimStart s).
Proof.
  induction s as [| c r IH]; [reflexivity |].
  cbn [Str.toLowerCase Str.trimStart]. rewrite is_space_lower.
  destruct (Str.is_space c); [exact IH | reflexivity].
Qed.

Lemma trimEnd_lower (s : string) :
  Str.trimEnd (Str.toLowerCase s) = Str.toLowerCase (Str.trimEnd s).
Proof.
  induction s as [| c r IH]; [reflexivity |].
  cbn [Str.toLowerCase Str.trimEnd].
  rewrite is_space_lower, IH, toLowerCase_empty.
  destruct (Str.is_space c && (Str.trimEnd r =? ""))%string; reflexivity.
Qed.

Lemma trim_lower (s : string) :
  Str.trim (Str.toLowerCase s) = Str.toLowerCase (Str.trim s).
Proof. unfold Str.trim. now rewrite trimStart_lower, trimEnd_lower. Qed.

Lemma hasChar_lower (s : string) :
  hasChar "," (Str.toLowerCase s) = hasChar "," s.
Proof.
  induction s as [| c r IH]; [reflexivity |].
  cbn [Str.toLowerCase hasChar]. now rewrite comma_lower, IH.
Qed.

Lemma hasChar_trimStart (c : ascii) (s : string) :
  hasChar c s = false -> hasChar c (Str.trimStart s) = false.
Proof.
  induction s as [| a r IH]; [reflexivity |].
  intros Hs. cbn [Str.trimStart]. destruct (Str.is_space a); [| exact Hs].
  cbn [hasChar] in Hs. apply orb_false_iff in Hs as [_ Hr]. now apply IH.
Qed.

Lemma hasChar_trimEnd (c : ascii) (s : string) :
  hasChar c s = false -> hasChar c (Str.trimEnd s) = false.
Proof.
  induction s as [| a r IH]; [reflexivity |].
  intros Hs. cbn [hasChar] in Hs. apply orb_false_iff in Hs as [Ha Hr].
  cbn [Str.trimEnd].
  destruct (Str.is_space a && (Str.trimEnd r =? ""))%string; [reflexivity |].
  cbn [hasChar]. now rewrite Ha, IH.
Qed.

Lemma split_pieces (c : ascii) (s : string) :
  Forall (fun t => hasChar c t = false) (Str.split c s).
Proof.
  induction s as [| a r IH]; [repeat constructor |].
  cbn [Str.split]. destruct (Ascii.eqb a c) eqn:Ha.
  - constructor; [reflexivity | exact IH].
  - destruct (Str.split c r) as [| h t]; [repeat constructor; cbn;
      now rewrite Ha |].
    apply Forall_cons in IH as [Hh Ht]. constructor; [| exact Ht].
    cbn [hasChar]. now rewrite Ha, Hh.
Qed.

Lemma cleanTags_valid (s : string) : Forall validTag (cleanTags s).
Proof.
  apply Forall_forall. intros t Ht.
  destruct (cleanTags_elem s t Ht) as [Hne Hlow].
  unfold cleanTags in Ht.
  apply elem_of_take in Ht as (i & Ht & _).
  apply list_elem_of_lookup_2 in Ht.
  apply uniq_elem, list_elem_of_In, filter_In in Ht as [Hin _].
  apply in_map_iff in Hin as (x & <- & Hx).
  split; [exact Hne |]. split; [| split; [exact Hlow |]].
  - now rewrite trim_lower, trim_idem.
  - rewrite hasChar_lower. unfold Str.trim.
    apply hasChar_trimEnd, hasChar_trimStart.
    pose proof (split_pieces "," s) as Hall.
    rewrite Forall_forall in Hall. now apply Hall, list_elem_of_In.
Qed.

Section CreateFacts.
Context `{Host}.

Lemma safeName_trimmed (v : JsVal) (n : string) :
  safeName v = Ok n -> Str.trim n = n.
Proof.
  unfold safeName, res_bind. destruct (string_or_empty v) as [s |];
    [| discriminate].
  intros [= <-]. destruct (Str.trim s =? "")%string; cbn [negb].
  - reflexivity.
  - apply trim_idem.
Qed.

Lemma trimmedText_trimmed (v : JsVal) (n : string) :
  trimmedText v = Ok n -> Str.trim n = n.
Proof.
  unfold trimmedText, res_bind. destruct (string_or_empty v) as [s |];
    [| discriminate].
  intros [= <-]. apply trim_idem.
Qed.

Lemma uid_nonempty (now : Z) (rnd : string) : uid now rnd <> "".
Proof. unfold uid. discriminate. Qed.

Lemma bind_lift {A B : Type} (r : Res A) (k : A -> M B) (w : World) :
  bind (lift r) k w = match r with
                      | Ok a => k a w
                      | Throw e => (Throw e, w)
                      end.
Proof. destruct r; reflexivity. Qed.

Lemma db_catch_toast (c : M unit) (w : World) :
  db (snd (catch c (fun _ => showToast None) w)) = db (snd (c w)).
Proof. unfold catch. destruct (c w) as [[u | e] w']; reflexivity. Qed.

(** Reloading the snapshot and showing a toast leave the store as it
    is, whether the reload succeeds or not. *)
Lemma refresh_db (w : World) : db (snd (refresh w)) = db w.
Proof.
  assert (Hkeeps : preserves (fun w' => db w' = db w) refresh).
  { frame; assumption. }
  now apply Hkeeps.
Qed.

Lemma refresh_toast_db (a : option ToastAction) (w : World) :
  db (snd (bind refresh (fun _ => showToast a) w)) = db w.
Proof.
  cbv [bind]. pose proof (refresh_db w) as Hr.
  destruct (refresh w) as [[u | e] w']; exact Hr.
Qed.

(** The last steps of [confirmCreateSave], once the fields are known. *)
Lemma create_tail (mk : string -> Z -> Outfit.t) (w : World) (k : string)
    (r : Outfit.t) :
  (forall u now, Outfit.id (mk u now) = u) ->
  db (snd ((u <- new_uid ;;
            now <- Date_now ;;
            dbAddOutfit (mk u now) ;;
            refresh ;;
            showToast None)%M w)) !! k = Some r ->
  db w !! k = Some r
  \/ (Outfit.id r = k /\ exists u n, u <> "" /\ r = mk u (dateNow n)).
Proof.
  intros Hid.
  cbv [new_uid bind Date_now Math_random_hex ret dbAddOutfit storeRequest].
  cbn [db app tick toastAction timers nextTimer requests counted].
  destruct (storeFails (requests w)); [now left |].
  rewrite Hid.
  destruct (db w !! uid (dateNow (tick w)) (randomHex (S (tick w))));
    [now left |].
  match goal with
  | |- context [refresh ?w1] =>
      pose proof (refresh_toast_db None w1) as Hr; cbv [bind] in Hr;
      rewrite Hr
  end.
  cbn [db set_db].
  rewrite ?Hid, lookup_insert. case_decide as Hk; [| now left].
  intros [= <-]. right. split; [now rewrite Hid |].
  eexists _, _. split; [apply uid_nonempty | reflexivity].
Qed.

(** Whatever the form holds, a record that [confirmCreateSave] adds to
    the store satisfies the data model, provided the clock shows a
    positive time. *)
Lemma confirmCreateSave_valid (file : option Blob) (form : CreateForm)
    (w : World) :
  (forall n, 0 < dateNow n) ->
  forall k r,
    db (snd (confirmCreateSave file form w)) !! k = Some r ->
    db w !! k = Some r \/ (Outfit.id r = k /\ validRecord r).
Proof.
  intros Hclock k r. unfold confirmCreateSave.
  destruct file as [file |]; [| now left].
  rewrite db_catch_toast, bind_lift.
  destruct (safeName (VStr (createName form))) as [name |] eqn:Hname;
    [| now left].
  rewrite bind_lift, parseTags_str, bind_lift.
  destruct (trimmedText (VStr (createNotes form))) as [notes |] eqn:Hnotes;
    [| now left].
  rewrite bind_lift.
  destruct (fileToSafeJpegBlob file 1600 (9 # 10)) as [safeBlob |];
    [| now left].
  assert (Hfinal : forall finalBlob,
    db (snd ((u <- new_uid ;;
              now <- Date_now ;;
              dbAddOutfit
                (Outfit.mk u name
                   (clampRating (Js.or (createStarsValue form) (VNum (Fin 0))))
                   (createFav form) (num_of_Z now) finalBlob
                   (cleanTags (createTags form)) notes (Fin 0) (Fin 0)) ;;
              refresh ;;
              showToast None)%M w)) !! k = Some r ->
    db w !! k = Some r \/ (Outfit.id r = k /\ validRecord r)).
  { intros finalBlob Hk.
    apply (create_tail
             (fun u now =>
                Outfit.mk u name
                  (clampRating (Js.or (createStarsValue form) (VNum (Fin 0))))
                  (createFav form) (num_of_Z now) finalBlob
                  (cleanTags (createTags form)) notes (Fin 0) (Fin 0)))
      in Hk; [| reflexivity].
    destruct Hk as [Hold | (Hid & u & n & Hu & ->)]; [now left |].
    right. split; [exact Hid |].
    constructor; cbn.
    - exact Hu.
    - split; [now apply (safeName_nonempty _ _ Hname)
             | now apply (safeName_trimmed _ _ Hname)].
    - destruct (clampRating_cases
                  (Js.or (createStarsValue form) (VNum (Fin 0))))
        as (j & Hj & Hr). now exists j.
    - eexists. split; [apply Hclock | reflexivity].
    - split; [apply cleanTags_valid |].
      split; [apply cleanTags_NoDup | apply cleanTags_length].
    - now apply (trimmedText_trimmed _ _ Hnotes).
    - exists 0. split; [lia | reflexivity].
    - exists 0. split; [lia | reflexivity]. }
  destruct (createCropSquare form).
  - rewrite bind_lift.
    destruct (cropCenterSquareToJpeg safeBlob 1200 (9 # 10)) as [finalBlob |];
      [apply Hfinal | now left].
  - apply Hfinal.
Qed.

End CreateFacts.

(* ===================================================================== *)
(** * Further properties of the application code *)
(* ===================================================================== *)

(** ** Tag text of the detail form *)

Lemma trim_leading_space (s : string) : Str.trim (String " " s) = Str.trim s.
Proof. reflexivity. Qed.

Lemma split_head_other (c a : ascii) (s : string) :
  Ascii.eqb a c = false ->
  Str.split c (String a s)
  = match Str.split c s with
    | [] => [String a ""]
    | h :: t => String a h :: t
    end.
Proof. intros Ha. cbn [Str.split]. now rewrite Ha. Qed.

Lemma split_tagsToText (s : string) (rest : list string) :
  Forall (fun t => hasChar "," t = false) (s :: rest) ->
  Str.split "," (tagsToText (s :: rest)) = s :: List.map (String " ") rest.
Proof.
  unfold tagsToText. revert s. induction rest as [| s' rest' IH]; intros s Hall.
  - apply Forall_cons in Hall as [Hs _]. now apply split_no_sep.
  - apply Forall_cons in Hall as [Hs Hrest].
    change (joinStrings ", " (s :: s' :: rest'))
      with (s +:+ String "," (String " " (joinStrings ", " (s' :: rest')))).
    rewrite split_append by exact Hs.
    rewrite split_head_other by reflexivity.
    now rewrite (IH s' Hrest).
Qed.

Lemma cleanTags_tagsToText (l : list string) :
  Forall validTag l -> NoDup l -> (length l <= 20)%nat ->
  cleanTags (tagsToText l) = l.
Proof.
  intros Hall Hnd Hlen. unfold cleanTags.
  destruct l as [| s rest]; [reflexivity |].
  rewrite split_tagsToText.
  2: { eapply Forall_impl; [exact Hall |]. now intros t (_ & _ & _ & Hc). }
  assert (Hmap : List.map (fun x => Str.toLowerCase (Str.trim x))
                   (s :: List.map (String " ") rest) = s :: rest).
  { apply Forall_cons in Hall as [(_ & Hs & Hl & _) Hrest].
    cbn [List.map]. rewrite Hs, Hl. f_equal.
    clear -Hrest. induction Hrest as [| t l' (_ & Ht & Hl & _) _ IH];
      [reflexivity |].
    cbn [List.map]. now rewrite trim_leading_space, Ht, Hl, IH. }
  rewrite Hmap.
  assert (Hfilter : List.filter (fun x => negb (String.eqb x "")) (s :: rest)
                    = s :: rest).
  { clear Hnd Hlen Hmap. induction Hall as [| t l' (Hne & _) _ IH];
      [reflexivity |].
    cbn [List.filter]. destruct (String.eqb_spec t ""); [contradiction |].
    cbn [negb]. now rewrite IH. }
  rewrite Hfilter. unfold Str.uniq.
  rewrite uniq_from_NoDup_id; [| exact Hnd | intros; apply not_elem_of_nil].
  now apply take_ge.
Qed.

(** X1.  The text [tagsToText] puts in the tags input is read back by
    [parseTags] as the same list, for every list of at most 20 distinct
    tags that are non-empty, trimmed, in lower case and free of commas
    (what [parseTags] itself produces). *)
Theorem parseTags_tagsToText `{Host} (tags : list string) :
  Forall validTag tags -> NoDup tags -> (length tags <= 20)%nat ->
  parseTags (VStr (tagsToText tags)) = Ok tags.
Proof.
  intros Hall Hnd Hlen. rewrite parseTags_str.
  now rewrite cleanTags_tagsToText.
Qed.

Lemma parseTags_tagsToText_witness :
  tagsToText ["summer"; "work"; "linen"] = "summer, work, linen"
  /\ parseTags (VStr "summer, work, linen") = Ok ["summer"; "work"; "linen"].
Proof.
  split; [reflexivity |].
  apply (@parseTags_tagsToText demoHost ["summer"; "work"; "linen"]).
  - repeat constructor; discriminate.
  - repeat constructor; rewrite ?elem_of_cons, ?elem_of_nil;
      intros H; decompose [or] H; discriminate || assumption.
  - cbn. lia.
Defined.

(** ** Detail view *)

Section DetailFacts.
Context `{Host}.

Lemma safeName_str (s : string) :
  safeName (VStr s)
  = Ok (if negb (String.eqb (Str.trim s) "") then Str.trim s
        else "Outfit senza nome").
Proof. unfold safeName. now rewrite string_or_empty_str. Qed.

Lemma trimmedText_str (s : string) : trimmedText (VStr s) = Ok (Str.trim s).
Proof. unfold trimmedText. now rewrite string_or_empty_str. Qed.

Lemma saveDetail_none (form : DetailForm) (w : World) :
  match selectedId (app w) with
  | Some sid => sid = ""
  | None => True
  end ->
  saveDetail form w = (Ok tt, w).
Proof.
  unfold saveDetail. cbv [bind gets ret].
  destruct (selectedId (app w)) as [sid |]; [| reflexivity].
  now intros ->.
Qed.

Section Reliable.
Hypothesis Hstore : reliableStore.

Lemma saveDetail_run (form : DetailForm) (w : World) (sid : string)
    (o : Outfit.t) :
  selectedId (app w) = Some sid -> sid <> "" -> db w !! sid = Some o ->
  saveDetail form w
  = (Ok tt,
     set_toastAction None
       (snd (refresh
               (set_db (fun m => <[Outfit.id o := savedOutfit o form]> m)
                  (countedBy 2 w))))).
Proof.
  intros Hsel Hsid Ho. unfold saveDetail. cbv [bind gets]. rewrite Hsel.
  destruct (String.eqb_spec sid ""); [contradiction |].
  rewrite (dbGetOutfit_run Hstore), Ho.
  rewrite safeName_str, parseTags_str, trimmedText_str.
  cbv [lift]. rewrite (dbPutOutfit_run Hstore).
  cbn [Outfit.id editedOutfit].
  fold (savedOutfit o form).
  rewrite !(refresh_run Hstore). reflexivity.
Qed.

Lemma saveDetail_missing (form : DetailForm) (w : World) (sid : string) :
  selectedId (app w) = Some sid -> sid <> "" -> db w !! sid = None ->
  saveDetail form w = (Ok tt, counted w).
Proof.
  intros Hsel Hsid Ho. unfold saveDetail. cbv [bind gets ret]. rewrite Hsel.
  destruct (String.eqb_spec sid ""); [contradiction |].
  now rewrite (dbGetOutfit_run Hstore), Ho.
Qed.

End Reliable.

Lemma savedOutfit_fields (o : Outfit.t) (form : DetailForm) :
  let o' := savedOutfit o form in
  (Outfit.name o' <> "" /\ Str.trim (Outfit.name o') = Outfit.name o')
  /\ (exists j, 0 <= j <= 5 /\ Outfit.rating o' = num_of_Z j)
  /\ (Forall validTag (Outfit.tags o') /\ NoDup (Outfit.tags o')
      /\ (length (Outfit.tags o') <= 20)%nat)
  /\ Str.trim (Outfit.notes o') = Outfit.notes o'.
Proof.
  cbn [savedOutfit editedOutfit Outfit.name Outfit.rating Outfit.tags
         Outfit.notes].
  split; [| split; [| split]].
  - destruct (String.eqb_spec (Str.trim (detailName form)) "") as [He | Hne];
      cbn [negb].
    + split; [discriminate | reflexivity].
    + split; [exact Hne | apply trim_idem].
  - destruct (clampRating_cases
                (Js.or (detailStarsValue form) (VNum (Fin 0))))
      as (j & Hj & Hr). now exists j.
  - split; [apply cleanTags_valid |].
    split; [apply cleanTags_NoDup | apply cleanTags_length].
  - apply trim_idem.
Qed.

End DetailFacts.

(** X2.  On a host whose object store fails no request, [saveDetail]
    runs to its end.  When no record is selected it changes nothing, and
    when the selected record is no longer stored it does nothing but
    look it up.  Otherwise it replaces the selected record by one with
    the same id, creation time, image, wear count and last-worn time,
    whose name, rating, tags and notes are what [safeName],
    [clampRating], [parseTags] and [trim] make of the form's values and
    whose favorite flag is the form's checkbox; the stored name is non-empty and trimmed, the
    rating an integer from 0 to 5, the tags at most 20 distinct clean
    tags, the notes trimmed; every other record is left alone and the
    snapshot is reloaded. *)
Theorem saveDetail_edits `{Host} (form : DetailForm) (w : World) :
  reliableStore ->
  let w' := snd (saveDetail form w) in
  fst (saveDetail form w) = Ok tt
  /\ match selectedId (app w) with
     | None => w' = w
     | Some sid =>
         if String.eqb sid "" then w' = w
         else
           match db w !! sid with
           | None => w' = counted w
           | Some o =>
               exists o',
                 db w' = <[Outfit.id o := o']> (db w)
                 /\ (Outfit.id o' = Outfit.id o
                     /\ Outfit.createdAt o' = Outfit.createdAt o
                     /\ Outfit.imageBlob o' = Outfit.imageBlob o
                     /\ Outfit.wearCount o' = Outfit.wearCount o
                     /\ Outfit.lastWornAt o' = Outfit.lastWornAt o)
                 /\ (safeName (VStr (detailName form)) = Ok (Outfit.name o')
                     /\ parseTags (VStr (detailTags form))
                        = Ok (Outfit.tags o')
                     /\ Outfit.notes o' = Str.trim (detailNotes form)
                     /\ Outfit.favorite o' = detailFav form
                     /\ Outfit.rating o'
                        = clampRating
                            (Js.or (detailStarsValue form) (VNum (Fin 0))))
                 /\ (Outfit.name o' <> ""
                     /\ Str.trim (Outfit.name o') = Outfit.name o')
                 /\ (exists j, 0 <= j <= 5 /\ Outfit.rating o' = num_of_Z j)
                 /\ (Forall validTag (Outfit.tags o')
                     /\ NoDup (Outfit.tags o')
                     /\ (length (Outfit.tags o') <= 20)%nat)
                 /\ outfits (app w') = getAll (db w')
           end
     end.
Proof.
  intros Hstore w'. subst w'.
  destruct (selectedId (app w)) as [sid |] eqn:Hsel.
  2: { rewrite saveDetail_none by now rewrite Hsel. now split. }
  destruct (String.eqb_spec sid "") as [He | Hne].
  { rewrite saveDetail_none by now rewrite Hsel. now split. }
  destruct (db w !! sid) as [o |] eqn:Ho.
  2: { rewrite (saveDetail_missing Hstore form w sid Hsel Hne Ho).
       now split. }
  rewrite (saveDetail_run Hstore form w sid o Hsel Hne Ho),
    (refresh_run Hstore).
  cbn [fst snd db app set_db set_toastAction countedBy outfits set_filtered
         set_outfits].
  split; [reflexivity |].
  exists (savedOutfit o form).
  destruct (savedOutfit_fields o form) as (Hname & Hrating & Htags & _).
  split; [reflexivity |].
  split; [repeat split |].
  split;
    [| split; [exact Hname |];
       split; [exact Hrating |]; split; [exact Htags | reflexivity]].
  split; [apply safeName_str |].
  split; [apply parseTags_str |].
  split; [reflexivity | split; reflexivity].
Qed.

(** On the demonstration host, saving a new name and rating for the
    selected record. *)
Lemma saveDetail_edits_witness :
  let w := Sample.world [Sample.worn]
             (set_selectedId (Some (Outfit.id Sample.worn))
                (Sample.state [Sample.worn] Sample.noFilter)) 0 in
  let form := mkDetailForm " Linen suit, pressed " (VStr "5") false
                "Summer, work" "" in
  fst (@saveDetail demoHost form w) = Ok tt
  /\ Outfit.name <$> db (snd (@saveDetail demoHost form w))
                       !! Outfit.id Sample.worn
     = Some "Linen suit, pressed".
Proof.
  cbv zeta.
  split.
  - apply (@saveDetail_edits demoHost). intros n. reflexivity.
  - vm_compute. reflexivity.
Defined.

Section WearFacts.
Context `{Host}.

Lemma wearToday_none (w : World) :
  match selectedId (app w) with
  | Some sid => sid = ""
  | None => True
  end ->
  wearToday w = (Ok tt, w).
Proof.
  unfold wearToday. cbv [bind gets ret].
  destruct (selectedId (app w)) as [sid |]; [| reflexivity].
  now intros ->.
Qed.

Section Reliable.
Hypothesis Hstore : reliableStore.

Lemma wearToday_run (w : World) (sid : string) (o : Outfit.t) :
  selectedId (app w) = Some sid -> sid <> "" -> db w !! sid = Some o ->
  exists w',
    wearToday w = (Ok tt, w')
    /\ db w' = <[Outfit.id o := wornOutfit o (dateNow (tick w))]> (db w)
    /\ outfits (app w') = getAll (db w').
Proof.
  intros Hsel Hsid Ho. unfold wearToday. cbv [bind gets]. rewrite Hsel.
  destruct (String.eqb_spec sid ""); [contradiction |].
  rewrite (dbGetOutfit_run Hstore), Ho.
  cbv [Date_now]. rewrite (dbPutOutfit_run Hstore), (refresh_run Hstore).
  cbv [showToast modify].
  eexists. split; [reflexivity |]. cbn. split; reflexivity.
Qed.

Lemma wearToday_missing (w : World) (sid : string) :
  selectedId (app w) = Some sid -> sid <> "" -> db w !! sid = None ->
  wearToday w = (Ok tt, counted w).
Proof.
  intros Hsel Hsid Ho. unfold wearToday. cbv [bind gets ret]. rewrite Hsel.
  destruct (String.eqb_spec sid ""); [contradiction |].
  now rewrite (dbGetOutfit_run Hstore), Ho.
Qed.

End Reliable.

Lemma wearCount_succ (n : Z) :
  0 <= n < 2 ^ 53 ->
  Num.plus (Num.or (num_of_Z n) (Fin 0)) (Fin 1) = num_of_Z (n + 1).
Proof.
  intros Hn. unfold Num.or. rewrite truthy_num_of_Z.
  destruct (Z.eqb_spec n 0) as [-> | Hne]; [reflexivity |].
  cbn [negb]. unfold Num.plus, num_of_Z. cbn [Num.add].
  rewrite <- (round53_int (n + 1)) by lia.
  f_equal. unfold Num.round53.
  assert (E : (inject_Z n + 1 == inject_Z (n + 1))%Q)
    by (rewrite inject_Z_plus; reflexivity).
  assert (Hnum : Qnum (inject_Z n + 1)%Q = (n + 1)%Z).
  { unfold inject_Z, Qplus. cbn. lia. }
  assert (Hden : Qden (inject_Z n + 1)%Q = 1%positive) by reflexivity.
  destruct (inject_Z n + 1)%Q as [num den] eqn:Hq.
  cbn [Qnum Qden] in Hnum, Hden. subst num den. reflexivity.
Qed.

End WearFacts.

(** X3.  On a host whose object store fails no request, [wearToday]
    runs to its end.  When no record is selected it changes nothing, and
    when the selected record is no longer stored it does nothing but
    look it up.  Otherwise it replaces the selected record by one that
    differs from it only in its wear count and its last-worn time: the
    last-worn time is the clock reading taken, a wear count of [n]
    from 0 to 2^53 - 1 becomes [n + 1], and a wear count that is zero or
    not a number becomes 1.  Every other record is left alone and the
    snapshot is reloaded. *)
Theorem wearToday_counts `{Host} (w : World) :
  reliableStore ->
  let w' := snd (wearToday w) in
  fst (wearToday w) = Ok tt
  /\ match selectedId (app w) with
     | None => w' = w
     | Some sid =>
         if String.eqb sid "" then w' = w
         else
           match db w !! sid with
           | None => w' = counted w
           | Some o =>
               exists o',
                 db w' = <[Outfit.id o := o']> (db w)
                 /\ o' = Outfit.mk (Outfit.id o) (Outfit.name o)
                            (Outfit.rating o) (Outfit.favorite o)
                            (Outfit.createdAt o) (Outfit.imageBlob o)
                            (Outfit.tags o) (Outfit.notes o)
                            (Outfit.wearCount o') (Outfit.lastWornAt o')
                 /\ Outfit.lastWornAt o' = num_of_Z (dateNow (tick w))
                 /\ (forall n, 0 <= n < 2 ^ 53 ->
                       Outfit.wearCount o = num_of_Z n ->
                       Outfit.wearCount o' = num_of_Z (n + 1))
                 /\ (Num.truthy (Outfit.wearCount o) = false ->
                       Outfit.wearCount o' = num_of_Z 1)
                 /\ outfits (app w') = getAll (db w')
           end
     end.
Proof.
  intros Hstore w'. subst w'.
  destruct (selectedId (app w)) as [sid |] eqn:Hsel.
  2: { rewrite wearToday_none by now rewrite Hsel. now split. }
  destruct (String.eqb_spec sid "") as [He | Hne].
  { rewrite wearToday_none by now rewrite Hsel. now split. }
  destruct (db w !! sid) as [o |] eqn:Ho.
  2: { rewrite (wearToday_missing Hstore w sid Hsel Hne Ho). now split. }
  destruct (wearToday_run Hstore w sid o Hsel Hne Ho)
    as (w' & -> & Hdb & Hsnap).
  cbn [fst snd]. split; [reflexivity |].
  exists (wornOutfit o (dateNow (tick w))).
  split; [exact Hdb |]. split; [reflexivity |].
  split; [reflexivity |]. split; [| split; [| exact Hsnap]].
  - intros n Hrange Hn. cbn [wornOutfit Outfit.wearCount]. rewrite Hn.
    now apply wearCount_succ.
  - intros Hz. cbn [wornOutfit Outfit.wearCount]. unfold Num.or.
    now rewrite Hz.
Qed.

(** On the demonstration host, wearing the selected record once more. *)
Lemma wearToday_counts_witness :
  let w := Sample.world [Sample.worn]
             (set_selectedId (Some (Outfit.id Sample.worn))
                (Sample.state [Sample.worn] Sample.noFilter)) 0 in
  fst (@wearToday demoHost w) = Ok tt
  /\ Outfit.wearCount <$> db (snd (@wearToday demoHost w))
                            !! Outfit.id Sample.worn
     = Some (Fin 4).
Proof.
  cbv zeta.
  split.
  - apply (@wearToday_counts demoHost). intros n. reflexivity.
  - vm_compute. reflexivity.
Defined.

(** ** Bulk delete and its undo *)

Section BulkDeleteFacts.
Context `{Host}.
Hypothesis Hstore : reliableStore.

Lemma for_of_delete_run (l : list Outfit.t) (w : World) :
  for_of l (fun o => dbDeleteOutfit (Outfit.id o)) w
  = (Ok tt, set_db (deleteAll l) (countedBy (length l) w)).
Proof.
  revert w. induction l as [| a r IH]; intros w.
  - destruct w; reflexivity.
  - cbn [for_of]. cbv [bind]. rewrite (dbDeleteOutfit_run Hstore), IH.
    destruct w. cbv [set_db countedBy counted]. cbn. do 2 f_equal. lia.
Qed.

Lemma deleteAll_lookup (l : list Outfit.t) (m : gmap string Outfit.t)
    (k : string) :
  deleteAll l m !! k
  = if decide (k ∈ Outfit.id <$> l) then None else m !! k.
Proof.
  revert m. induction l as [| a r IH]; intros m.
  - cbn. case_decide as Hk; [| reflexivity]. now apply elem_of_nil in Hk.
  - cbn [deleteAll foldl]. fold (deleteAll r (delete (Outfit.id a) m)).
    rewrite IH. cbn [fmap list_fmap].
    destruct (decide (k ∈ Outfit.id <$> r)) as [Hr | Hr].
    + rewrite decide_True by now right. reflexivity.
    + rewrite lookup_delete.
      destruct (decide (Outfit.id a = k)) as [<- | Hne].
      * rewrite decide_True by left. reflexivity.
      * rewrite decide_False; [reflexivity |].
        rewrite elem_of_cons. intros [-> | Hin]; contradiction.
Qed.

Lemma enableSelectMode_off (w : World) :
  exists w',
    enableSelectMode false w = (Ok tt, w')
    /\ db w' = db w /\ toastAction w' = toastAction w
    /\ outfits (app w') = outfits (app w)
    /\ filter (app w') = filter (app w)
    /\ lastDeleted (app w') = lastDeleted (app w)
    /\ undoTimer (app w') = undoTimer (app w)
    /\ selectMode (app w') = false /\ selectedSet (app w') = ∅.
Proof.
  unfold enableSelectMode. cbv [bind modify renderGrid].
  rewrite applyFiltersAndSort_run. eexists. split; [reflexivity |].
  cbn. repeat split; reflexivity.
Qed.

Lemma bulkDeleteWithUndo_run (w : World) :
  selectedOutfits (app w) <> [] ->
  exists w1,
    bulkDeleteWithUndo w = (Ok tt, w1)
    /\ db w1 = deleteAll (selectedOutfits (app w)) (db w)
    /\ toastAction w1 = Some (UndoBulk (selectedOutfits (app w)))
    /\ outfits (app w1) = getAll (db w1)
    /\ selectMode (app w1) = false /\ selectedSet (app w1) = ∅.
Proof.
  intros Hsel. unfold bulkDeleteWithUndo. cbv [bind gets].
  destruct (decide (size (selectedSet (app w)) = 0%nat)) as [Hz | Hnz].
  { exfalso. apply size_empty_inv, leibniz_equiv in Hz.
    destruct (selectedOutfits (app w)) as [| o l] eqn:Hl; [congruence |].
    assert (Ho : o ∈ selectedOutfits (app w)) by (rewrite Hl; left).
    apply selectedOutfits_elem in Ho as [_ Ho]. rewrite Hz in Ho.
    now apply not_elem_of_empty in Ho. }
  destruct (selectedOutfits (app w)) as [| o l] eqn:Hl; [congruence |].
  rewrite for_of_delete_run.
  destruct (enableSelectMode_off
              (set_db (deleteAll (o :: l)) (countedBy (length (o :: l)) w)))
    as (w' & -> & Hdb & _ & _ & _ & _ & _ & Hmode & Hset).
  rewrite (refresh_run Hstore). cbv [showToast modify].
  eexists. split; [reflexivity |].
  cbn [db app set_db set_toastAction toastAction outfits set_filtered
         set_outfits selectMode selectedSet].
  rewrite Hdb. cbn [db set_db countedBy].
  repeat split; try reflexivity; assumption.
Qed.

Lemma undoBulk_run (deleted : list Outfit.t) (w : World) :
  exists w2,
    undoBulk deleted w = (Ok tt, w2)
    /\ db w2 = putAll (fun o => o) deleted (db w)
    /\ outfits (app w2) = getAll (db w2)
    /\ toastAction w2 = None.
Proof.
  unfold undoBulk. cbv [bind].
  change (for_of deleted dbPutOutfit)
    with (for_of deleted (fun o => dbPutOutfit ((fun a => a) o))).
  rewrite (for_of_put_run _ _ _ Hstore), (refresh_run Hstore).
  cbv [showToast modify].
  eexists. split; [reflexivity |]. cbn. repeat split; reflexivity.
Qed.

End BulkDeleteFacts.

(** X5.  On a host whose object store fails no request, and provided
    the snapshot has no two records with one id and the selected records
    are stored as the snapshot shows them, [bulkDeleteWithUndo] runs to
    its end.  When no selected id belongs to a record of the snapshot it
    changes nothing.  Otherwise it removes exactly the selected records
    from the store, leaves select mode with an empty selection and
    reloads the snapshot; and a click on the toast's Undo button then
    runs to its end and puts every removed record back, so that the
    store is exactly what it was before the deletion. *)
Theorem bulkDelete_then_undo_restores `{Host} (w : World) :
  reliableStore ->
  NoDup (Outfit.id <$> outfits (app w)) ->
  (forall o, o ∈ selectedOutfits (app w) -> db w !! Outfit.id o = Some o) ->
  let deleted := selectedOutfits (app w) in
  let w1 := snd (bulkDeleteWithUndo w) in
  let w2 := snd (clickToastAction w1) in
  fst (bulkDeleteWithUndo w) = Ok tt
  /\ (deleted = [] -> w1 = w)
  /\ (deleted <> [] ->
      (forall k, db w1 !! k
                 = if decide (k ∈ Outfit.id <$> deleted) then None
                   else db w !! k)
      /\ selectMode (app w1) = false
      /\ selectedSet (app w1) = ∅
      /\ outfits (app w1) = getAll (db w1)
      /\ fst (clickToastAction w1) = Ok tt
      /\ db w2 = db w
      /\ outfits (app w2) = getAll (db w)).
Proof.
  intros Hstore Hnd Hstored deleted w1 w2.
  destruct deleted as [| o l] eqn:Hdel.
  - assert (Hrun : bulkDeleteWithUndo w = (Ok tt, w)).
    { unfold bulkDeleteWithUndo. cbv [bind gets ret].
      destruct (decide (size (selectedSet (app w)) = 0%nat));
        [reflexivity |].
      subst deleted. now rewrite Hdel. }
    subst w1. rewrite Hrun. split; [reflexivity |].
    split; [reflexivity | congruence].
  - assert (Hne : selectedOutfits (app w) <> [])
      by (subst deleted; rewrite Hdel; discriminate).
    destruct (bulkDeleteWithUndo_run Hstore w Hne)
      as (w1' & Hrun & Hdb1 & Htoast & Hsnap1 & Hmode & Hset).
    assert (Hw1 : w1 = w1') by (subst w1; now rewrite Hrun).
    clearbody w1. subst w1'.
    destruct (undoBulk_run Hstore (selectedOutfits (app w)) w1)
      as (w2' & Hundo & Hdb2 & Hsnap2 & _).
    assert (Hclick : clickToastAction w1 = (Ok tt, w2')).
    { unfold clickToastAction. cbv [bind gets]. now rewrite Htoast. }
    assert (Hw2 : w2 = w2') by (subst w2; now rewrite Hclick).
    clearbody w2. subst w2'.
    rewrite Hrun. split; [reflexivity |]. split; [discriminate |].
    intros _.
    assert (Hdel' : selectedOutfits (app w) = o :: l)
      by (subst deleted; exact Hdel).
    assert (Hback : db w2 = db w).
    { apply map_eq. intros k. rewrite Hdb2, Hdb1.
      destruct (decide (k ∈ Outfit.id <$> selectedOutfits (app w)))
        as [Hin | Hout].
      - apply list_elem_of_fmap in Hin as (a & -> & Ha).
        rewrite (putAll_member (fun o => o)); [| reflexivity | | exact Ha].
        + symmetry. now apply Hstored.
        + unfold selectedOutfits. now apply NoDup_ids_filter.
      - rewrite putAll_other.
        + rewrite deleteAll_lookup. now rewrite decide_False.
        + intros a Ha Heq. apply Hout. rewrite <- Heq.
          now apply list_elem_of_fmap_2. }
    split; [| split; [exact Hmode |]; split; [exact Hset |];
              split; [exact Hsnap1 |]; split; [now rewrite Hclick |];
              split; [exact Hback | now rewrite Hsnap2, Hback]].
    intros k. rewrite Hdb1, <- Hdel'. apply deleteAll_lookup.
Qed.

Lemma bulkDelete_then_undo_restores_witness :
  let s := mkState [Sample.worn; Sample.fresh] [] "" "date_desc"
             Sample.noFilter None true {[Outfit.id Sample.worn]} None None in
  let w := Sample.world [Sample.worn; Sample.fresh] s 0 in
  let w1 := snd (@bulkDeleteWithUndo demoHost w) in
  let w2 := snd (@clickToastAction demoHost w1) in
  db w1 !! Outfit.id Sample.worn = None
  /\ db w1 !! Outfit.id Sample.fresh = Some Sample.fresh
  /\ selectMode (app w1) = false
  /\ db w2 = db w.
Proof.
  intros s w w1 w2.
  assert (Hnd : NoDup (Outfit.id <$> outfits (app w))).
  { cbn. apply NoDup_cons. split; [| apply NoDup_singleton].
    rewrite list_elem_of_singleton. discriminate. }
  assert (Hsel : selectedOutfits (app w) = [Sample.worn])
    by (vm_compute; reflexivity).
  assert (Hstored : forall o, o ∈ selectedOutfits (app w) ->
                      db w !! Outfit.id o = Some o).
  { intros o. rewrite Hsel, list_elem_of_singleton. intros ->.
    vm_compute. reflexivity. }
  destruct (@bulkDelete_then_undo_restores demoHost w
              (fun _ => eq_refl) Hnd Hstored)
    as (_ & _ & Hmain).
  destruct Hmain as (Hdb1 & Hmode & _ & _ & _ & Hback & _).
  { rewrite Hsel. discriminate. }
  rewrite Hsel in Hdb1.
  split; [| split; [| split; [exact Hmode | exact Hback]]].
  - rewrite Hdb1. reflexivity.
  - rewrite Hdb1. reflexivity.
Defined.

(** ** The undo window *)

Section UndoWindowFacts.
Context `{Host}.

(** The pending timers once [deleteDetailWithUndo] has run: the timer
    of an earlier deletion is cancelled, the new one is pending. *)
Lemma deleteDetailWithUndo_timers (w : World) (x : Outfit.t) :
  reliableStore ->
  selectedId (app w) = Some (Outfit.id x) ->
  Outfit.id x <> "" ->
  db w !! Outfit.id x = Some x ->
  timers (snd (deleteDetailWithUndo w))
  = {[nextTimer w]}
    ∪ match undoTimer (app w) with
      | Some t => timers w ∖ {[t]}
      | None => timers w
      end.
Proof.
  intros Hstore Hsel Hid Hx. unfold deleteDetailWithUndo.
  cbv [bind gets]. rewrite Hsel.
  destruct (String.eqb_spec (Outfit.id x) ""); [contradiction |].
  rewrite (dbGetOutfit_run Hstore). cbn [db counted]. rewrite Hx.
  destruct (undoTimer (app w)) as [t |];
    cbv [clearTimeout modify ret closeDetailModal showToast setUndoTimeout];
    rewrite (dbDeleteOutfit_run Hstore), (refresh_run Hstore); reflexivity.
Qed.

Lemma undoTimerFires_run (t : nat) (w : World) :
  t ∈ timers w ->
  exists w',
    undoTimerFires t w = (Ok tt, w')
    /\ db w' = db w /\ toastAction w' = toastAction w
    /\ outfits (app w') = outfits (app w)
    /\ lastDeleted (app w') = None /\ undoTimer (app w') = None
    /\ timers w' = timers w ∖ {[t]}.
Proof.
  intros Ht. unfold undoTimerFires. cbv [bind gets].
  rewrite decide_True by exact Ht.
  cbv [clearTimeout modify]. eexists. split; [reflexivity |].
  cbn. repeat split; reflexivity.
Qed.

Lemma undoTimerFires_cancelled (t : nat) (w : World) :
  t ∉ timers w -> undoTimerFires t w = (Ok tt, w).
Proof.
  intros Ht. unfold undoTimerFires. cbv [bind gets ret].
  now rewrite decide_False by exact Ht.
Qed.

End UndoWindowFacts.

(** X6.  On a host whose object store fails no request, let [x] be the
    stored record shown in the detail view.  Once [deleteDetailWithUndo]
    has run, the pending undo timers are those that were pending
    before, without the timer of an earlier deletion (if it fires it
    does nothing, so it cannot cut the new undo window short) and with
    one more timer, whose handle the state records.  When that timer fires
    before Undo is clicked, the deleted record is forgotten: a click on
    Undo then changes nothing and [x] stays out of the store. *)
Theorem undo_window_elapsed `{Host} (w : World) (x : Outfit.t) :
  reliableStore ->
  selectedId (app w) = Some (Outfit.id x) ->
  Outfit.id x <> "" ->
  db w !! Outfit.id x = Some x ->
  let w1 := snd (deleteDetailWithUndo w) in
  let w2 := snd (undoTimerFires (nextTimer w) w1) in
  timers w1 = {[nextTimer w]}
              ∪ match undoTimer (app w) with
                | Some t => timers w ∖ {[t]}
                | None => timers w
                end
  /\ undoTimer (app w1) = Some (nextTimer w)
  /\ (forall t, undoTimer (app w) = Some t -> t <> nextTimer w ->
        (t ∉ timers w1) /\ undoTimerFires t w1 = (Ok tt, w1))
  /\ lastDeleted (app w1) = Some x
  /\ fst (undoTimerFires (nextTimer w) w1) = Ok tt
  /\ (lastDeleted (app w2) = None /\ undoTimer (app w2) = None)
  /\ clickToastAction w2 = (Ok tt, w2)
  /\ (db w2 = delete (Outfit.id x) (db w) /\ db w2 !! Outfit.id x = None).
Proof.
  intros Hstore Hsel Hid Hx w1 w2.
  pose proof (deleteDetailWithUndo_timers w x Hstore Hsel Hid Hx)
    as Htimers.
  destruct (deleteDetailWithUndo_run Hstore w x Hsel Hid Hx)
    as (w1' & Hrun & Hdb1 & Hl1 & _ & Ht1 & Hu1 & Hin).
  assert (Hw1 : w1 = w1') by (subst w1; now rewrite Hrun).
  rewrite Hrun in Htimers. cbn [snd] in Htimers.
  clearbody w1. subst w1'.
  destruct (undoTimerFires_run (nextTimer w) w1 Hin)
    as (w2' & Hfire & Hdb2 & Htoast2 & _ & Hl2 & Hu2 & _).
  assert (Hw2 : w2 = w2') by (subst w2; now rewrite Hfire).
  clearbody w2. subst w2'.
  split; [exact Htimers |]. split; [exact Hu1 |].
  split; [| split; [exact Hl1 |];
            split; [now rewrite Hfire |]; split; [now split |]; split].
  - intros t Ht Hne.
    assert (Hout : t ∉ timers w1).
    { rewrite Htimers, Ht, elem_of_union, elem_of_singleton,
        elem_of_difference, elem_of_singleton.
      intros [Heq | [_ Hnot]]; [contradiction | now apply Hnot]. }
    split; [exact Hout | now apply undoTimerFires_cancelled].
  - unfold clickToastAction. cbv [bind gets]. rewrite Htoast2, Ht1.
    now apply undoDetail_nothing.
  - rewrite Hdb2, Hdb1. split; [reflexivity | apply lookup_delete_eq].
Qed.

Lemma undo_window_elapsed_witness :
  let s := set_selectedId (Some (Outfit.id Sample.worn))
             (Sample.state [Sample.fresh; Sample.worn] Sample.noFilter) in
  let w := Sample.world [Sample.fresh; Sample.worn] s 0 in
  let w1 := snd (@deleteDetailWithUndo demoHost w) in
  let w2 := snd (undoTimerFires (nextTimer w) w1) in
  timers w1 = {[1%nat]}
  /\ @clickToastAction demoHost w2 = (Ok tt, w2)
  /\ db w2 !! Outfit.id Sample.worn = None.
Proof.
  intros s w w1 w2.
  destruct (@undo_window_elapsed demoHost w Sample.worn (fun _ => eq_refl)
              eq_refl ltac:(discriminate) ltac:(reflexivity))
    as (Htimers & _ & _ & _ & _ & _ & Hclick & _ & Hgone).
  split; [| split; [exact Hclick | exact Hgone]].
  fold w1 in Htimers. rewrite Htimers. apply (right_id_L ∅ (∪)).
Defined.

(** ** Order and content of the catalog view *)

Lemma Array_sort_insert_perm {A : Type} (cmp : A -> A -> JsNum) (x : A)
    (l : list A) :
  insert_sorted cmp x l ≡ₚ x :: l.
Proof.
  induction l as [| y rest IH]; [reflexivity |].
  cbn [insert_sorted]. destruct (Num.gtb (cmp x y) (Fin 0)); [| reflexivity].
  rewrite IH. apply Permutation_swap.
Qed.

Lemma Array_sort_perm {A : Type} (cmp : A -> A -> JsNum) (l : list A) :
  Array_sort cmp l ≡ₚ l.
Proof.
  induction l as [| x rest IH]; [reflexivity |].
  cbn [Array_sort]. rewrite Array_sort_insert_perm. now rewrite IH.
Qed.

(** The sort puts the records in an order [R] as soon as the comparator
    and [R] agree: an element stays in front of one it is not greater
    than, moves behind one it is greater than, and [R] is transitive. *)
Lemma Array_sort_ordered {A : Type} (cmp : A -> A -> JsNum)
    (R : A -> A -> Prop) (l : list A) :
  (forall a b, Num.gtb (cmp a b) (Fin 0) = false -> R a b) ->
  (forall a b, Num.gtb (cmp a b) (Fin 0) = true -> R b a) ->
  (forall a b c, R a b -> R b c -> R a c) ->
  StronglySorted R (Array_sort cmp l).
Proof.
  intros Hstay Hmove Htrans.
  assert (Hins : forall x l, StronglySorted R l ->
                   StronglySorted R (insert_sorted cmp x l)).
  { intros x l0 Hl. induction Hl as [| y rest Hrest IH Hy].
    - repeat constructor.
    - cbn [insert_sorted].
      destruct (Num.gtb (cmp x y) (Fin 0)) eqn:Hxy.
      + constructor; [exact IH |].
        rewrite Array_sort_insert_perm. constructor; [| exact Hy].
        now apply Hmove.
      + constructor; [now constructor |].
        constructor; [now apply Hstay |].
        eapply Forall_impl; [exact Hy |].
        intros z Hz. apply (Htrans x y z); [now apply Hstay | exact Hz]. }
  induction l as [| x rest IH]; [constructor |].
  cbn [Array_sort]. now apply Hins.
Qed.

Lemma filter_filter_and {A : Type} (p q : A -> bool) (l : list A) :
  List.filter q (List.filter p l) = List.filter (fun x => p x && q x) l.
Proof.
  induction l as [| x rest IH]; [reflexivity |].
  cbn [List.filter]. destruct (p x); cbn [andb List.filter];
    [destruct (q x) |]; now rewrite IH.
Qed.

Lemma filter_sublist {A : Type} (p : A -> bool) (l : list A) :
  sublist (List.filter p l) l.
Proof.
  induction l as [| x rest IH]; [constructor |].
  cbn [List.filter]. destruct (p x);
    [now apply sublist_skip | now apply sublist_cons].
Qed.

Lemma filter_all {A : Type} (l : list A) :
  List.filter (fun _ => true) l = l.
Proof. induction l as [| x rest IH]; [reflexivity |]. cbn. now rewrite IH. Qed.

Lemma filter_when {A : Type} (c : bool) (p : A -> bool) (l : list A) :
  (if c then List.filter p l else l)
  = List.filter (fun x => if c then p x else true) l.
Proof. destruct c; [reflexivity | now rewrite filter_all]. Qed.

Section CatalogFacts.
Context `{Host}.

(** The chain of filters is one pass with the conjunction of the
    criteria, followed by the sort. *)
Lemma visibleOutfits_filter (now : Z) (s : State) :
  visibleOutfits now s
  = Array_sort (compareOutfits (sort s))
      (List.filter (passesFilters now s) (outfits s)).
Proof.
  unfold visibleOutfits. f_equal.
  rewrite !filter_when, !filter_filter_and.
  apply List.filter_ext. intros o. unfold passesFilters.
  now rewrite !andb_assoc.
Qed.

End CatalogFacts.

(** *** The order of numbers other than NaN *)

Lemma Qle_bool_ext (a b c d : Q) :
  (a <= b <-> c <= d)%Q -> Qle_bool a b = Qle_bool c d.
Proof.
  intros Hiff.
  destruct (Qle_bool a b) eqn:Hab, (Qle_bool c d) eqn:Hcd; try reflexivity.
  - apply Qle_bool_iff, Hiff, Qle_bool_iff in Hab. congruence.
  - apply Qle_bool_iff, Hiff, Qle_bool_iff in Hcd. congruence.
Qed.

Lemma or_zero_not_nan (x : JsNum) : Num.or x (Fin 0) <> NaN.
Proof. unfold Num.or. destruct x as [q | | |]; cbn; try discriminate.
  destruct (negb (Qeq_bool q 0)); discriminate. Qed.

(** [x - y > 0] exactly when [y < x]. *)
Lemma sub_positive (x y : JsNum) :
  x <> NaN -> y <> NaN ->
  Num.gtb (Num.sub x y) (Fin 0) = Num.ltb y x.
Proof.
  intros Hx Hy. destruct x as [p | | |], y as [q | | |];
    try contradiction; try reflexivity.
  unfold Num.gtb, Num.sub. cbn [Num.neg Num.add Num.ltb]. f_equal.
  apply Qle_bool_ext. split; intros Hle; lra.
Qed.

Lemma ltb_asym (x y : JsNum) : Num.ltb x y = true -> Num.ltb y x = false.
Proof.
  destruct x as [p | | |], y as [q | | |]; cbn; try discriminate;
    try reflexivity.
  intros Hlt. apply negb_true_iff in Hlt. apply negb_false_iff.
  apply Qle_bool_iff.
  destruct (Qle_bool q p) eqn:Hqp; [discriminate |].
  destruct (Qlt_le_dec p q) as [Hpq | Hpq]; [now apply Qlt_le_weak |].
  apply Qle_bool_iff in Hpq. congruence.
Qed.

(** "Not below" is transitive on numbers other than NaN. *)
Lemma not_below_trans (x y z : JsNum) :
  y <> NaN ->
  Num.ltb x y = false -> Num.ltb y z = false -> Num.ltb x z = false.
Proof.
  intros Hy. destruct x as [p | | |], y as [q | | |], z as [r | | |];
    cbn; try contradiction; try discriminate; try reflexivity.
  intros Hxy Hyz. apply negb_false_iff in Hxy, Hyz. apply negb_false_iff.
  apply Qle_bool_iff in Hxy, Hyz. apply Qle_bool_iff.
  now apply (Qle_trans r q p).
Qed.

Section OrderFacts.
Context `{Host}.

Lemma sorted_descending (f : Outfit.t -> JsNum) (l : list Outfit.t) :
  StronglySorted
    (fun a b => Num.ltb (sortKey f a) (sortKey f b) = false)
    (Array_sort (fun a b => Num.sub (sortKey f b) (sortKey f a)) l).
Proof.
  apply Array_sort_ordered.
  - intros a b. now rewrite sub_positive by apply or_zero_not_nan.
  - intros a b. rewrite sub_positive by apply or_zero_not_nan.
    apply ltb_asym.
  - intros a b c Hab Hbc.
    apply (not_below_trans _ (sortKey f b)); [apply or_zero_not_nan | |];
      assumption.
Qed.

Lemma sorted_ascending (f : Outfit.t -> JsNum) (l : list Outfit.t) :
  StronglySorted
    (fun a b => Num.ltb (sortKey f b) (sortKey f a) = false)
    (Array_sort (fun a b => Num.sub (sortKey f a) (sortKey f b)) l).
Proof.
  apply Array_sort_ordered.
  - intros a b. now rewrite sub_positive by apply or_zero_not_nan.
  - intros a b. rewrite sub_positive by apply or_zero_not_nan.
    apply ltb_asym.
  - intros a b c Hab Hbc.
    apply (not_below_trans _ (sortKey f b)); [apply or_zero_not_nan | |];
      assumption.
Qed.

Lemma favorites_first_sign (fa fb : bool) (x : JsNum) :
  Num.gtb (if negb (Num.eqb (bool_num fb) (bool_num fa))
           then Num.sub (bool_num fb) (bool_num fa) else x) (Fin 0)
  = if Bool.eqb fa fb then Num.gtb x (Fin 0) else negb fa.
Proof. destruct fa, fb; reflexivity. Qed.

Lemma sorted_favorites_first (l : list Outfit.t) :
  StronglySorted
    (fun a b =>
       (Outfit.favorite a = true \/ Outfit.favorite b = false)
       /\ (Outfit.favorite a = Outfit.favorite b ->
           Num.ltb (sortKey Outfit.createdAt a) (sortKey Outfit.createdAt b)
           = false))
    (Array_sort
       (fun a b =>
          if negb (Num.eqb (bool_num (Outfit.favorite b))
                     (bool_num (Outfit.favorite a)))
          then Num.sub (bool_num (Outfit.favorite b))
                 (bool_num (Outfit.favorite a))
          else Num.sub (sortKey Outfit.createdAt b)
                 (sortKey Outfit.createdAt a)) l).
Proof.
  apply Array_sort_ordered.
  - intros a b. rewrite favorites_first_sign.
    destruct (Outfit.favorite a), (Outfit.favorite b); cbn [Bool.eqb negb];
      rewrite ?sub_positive by apply or_zero_not_nan;
      intros Hc; try discriminate; (split; [tauto |]);
      intros; assumption || discriminate.
  - intros a b. rewrite favorites_first_sign.
    destruct (Outfit.favorite a), (Outfit.favorite b); cbn [Bool.eqb negb];
      rewrite ?sub_positive by apply or_zero_not_nan;
      intros Hc; try discriminate; (split; [tauto |]);
      intros; try discriminate; now apply ltb_asym.
  - intros a b c [Hab1 Hab2] [Hbc1 Hbc2].
    destruct (Outfit.favorite a), (Outfit.favorite b), (Outfit.favorite c);
      try (destruct Hab1; discriminate); try (destruct Hbc1; discriminate);
      (split; [tauto |]); intros; try discriminate;
      (apply (not_below_trans _ (sortKey Outfit.createdAt b));
       [apply or_zero_not_nan | now apply Hab2 | now apply Hbc2]).
Qed.

Lemma sorted_any {A : Type} (l : list A) :
  StronglySorted (fun _ _ => True) l.
Proof.
  induction l as [| x rest IH]; constructor; [exact IH |].
  now apply Forall_forall.
Qed.

End OrderFacts.

(** Decides the comparisons of two sort-mode names. *)
Ltac decide_modes :=
  repeat match goal with
         | |- context [String.eqb ?a ?b] =>
             let v := eval vm_compute in (String.eqb a b) in
             match v with
             | true => change (String.eqb a b) with true
             | false => change (String.eqb a b) with false
             end
         end;
  cbv beta iota zeta.

(** X7.  Whatever the snapshot, the criteria and the clock,
    [applyFiltersAndSort] leaves the visible records in the order of the
    sort mode: under [date_desc], [rating_desc], [wear_desc] and
    [lastworn_desc] no record is followed by one with a greater key,
    under the four ascending modes by one with a smaller key, and under
    [fav_first] no record that is not a favorite is followed by a
    favorite while records with the same flag are in descending order of
    creation time.  The key of a record is [(o.field || 0)]. *)
Theorem visibleOutfits_sorted `{Host} (now : Z) (s : State) :
  StronglySorted (shownBefore (sort s)) (visibleOutfits now s).
Proof.
  rewrite visibleOutfits_filter.
  generalize (List.filter (passesFilters now s) (outfits s)). intros l.
  generalize (sort s). intros m.
  unfold shownBefore, compareOutfits.
  repeat (match goal with
          | |- context [String.eqb m ?k] =>
              destruct (String.eqb_spec m k) as [-> | _]
          end;
          [decide_modes;
           first [ apply sorted_favorites_first
                 | apply sorted_descending
                 | apply sorted_ascending
                 | apply sorted_any ] |]).
  apply sorted_any.
Qed.

(** X8.  The visible records are, up to their order, exactly the records
    of the snapshot that pass every criterion switched on (quick filters,
    tag, search text, favorites-only mode): each such record is shown as
    often as the snapshot holds it and nothing else is shown.  With every
    criterion off, the view is a rearrangement of the whole snapshot. *)
Theorem visibleOutfits_content `{Host} (now : Z) (s : State) :
  visibleOutfits now s ≡ₚ List.filter (passesFilters now s) (outfits s)
  /\ visibleOutfits now s ⊆+ outfits s
  /\ (forall o, o ∈ visibleOutfits now s
                <-> o ∈ outfits s /\ passesFilters now s o = true)
  /\ (fav (filter s) = false ->
      Num.gtb (minRating (filter s)) (Fin 0) = false ->
      Num.gtb (staleDays (filter s)) (Fin 0) = false ->
      tag (filter s) = "" ->
      Str.trim (search s) = "" ->
      String.eqb (sort s) "fav_only" = false ->
      visibleOutfits now s ≡ₚ outfits s).
Proof.
  assert (Hperm : visibleOutfits now s
                  ≡ₚ List.filter (passesFilters now s) (outfits s)).
  { rewrite visibleOutfits_filter. apply Array_sort_perm. }
  split; [exact Hperm |]. split; [| split].
  - rewrite Hperm. apply sublist_submseteq, filter_sublist.
  - intros o. rewrite Hperm, !list_elem_of_In. apply filter_In.
  - intros Hfav Hmin Hstale Htag Hq Hsort. rewrite Hperm.
    assert (Hall : forall o, passesFilters now s o = true).
    { intros o. unfold passesFilters.
      now rewrite Hfav, Hmin, Hstale, Htag, Hq, Hsort. }
    rewrite (List.filter_ext _ (fun _ => true) Hall), filter_all.
    reflexivity.
Qed.

(** ** Thumbnail URL cache *)

Lemma thumbs_ok_empty : thumbs_ok (mkThumbs ∅ ∅ 0).
Proof.
  constructor; cbn.
  - intros id url Hk. rewrite lookup_empty in Hk. discriminate.
  - intros url Hu. now apply not_elem_of_empty in Hu.
  - intros id1 id2 url Hk. rewrite lookup_empty in Hk. discriminate.
  - intros url Hu. now apply not_elem_of_empty in Hu.
Qed.

Lemma getThumbURL_new (o : Outfit.t) (t : Thumbs) :
  Outfit.id o <> "" -> urlCache t !! Outfit.id o = None ->
  getThumbURL o t
  = (Some (nextURL t),
     mkThumbs (<[Outfit.id o := nextURL t]> (urlCache t))
       ({[nextURL t]} ∪ liveURLs t) (S (nextURL t))).
Proof.
  intros Hid Hnone. unfold getThumbURL.
  destruct (String.eqb_spec (Outfit.id o) ""); [contradiction |].
  now rewrite Hnone.
Qed.

Lemma getThumbURL_cached (o : Outfit.t) (t : Thumbs) (url : nat) :
  Outfit.id o <> "" -> urlCache t !! Outfit.id o = Some url ->
  getThumbURL o t = (Some url, t).
Proof.
  intros Hid Hsome. unfold getThumbURL.
  destruct (String.eqb_spec (Outfit.id o) ""); [contradiction |].
  now rewrite Hsome.
Qed.

Lemma getThumbURL_no_id (o : Outfit.t) (t : Thumbs) :
  Outfit.id o = "" -> getThumbURL o t = (None, t).
Proof. intros Hid. unfold getThumbURL. now rewrite Hid. Qed.

Lemma getThumbURL_ok (o : Outfit.t) (t : Thumbs) :
  thumbs_ok t -> thumbs_ok (snd (getThumbURL o t)).
Proof.
  intros [Hlive Hcached Honce Hold].
  destruct (String.eqb_spec (Outfit.id o) "") as [Hid | Hid].
  { rewrite getThumbURL_no_id by exact Hid. now constructor. }
  destruct (urlCache t !! Outfit.id o) as [url |] eqn:Hk.
  { rewrite (getThumbURL_cached o t url Hid Hk). now constructor. }
  rewrite (getThumbURL_new o t Hid Hk). constructor; cbn.
  - intros id url. rewrite lookup_insert. case_decide as Hd.
    + intros [= <-]. apply elem_of_union_l. now apply elem_of_singleton.
    + intros Hsome. apply elem_of_union_r. now apply (Hlive id).
  - intros url Hu. apply elem_of_union in Hu as [Hu | Hu].
    + apply elem_of_singleton in Hu as ->. exists (Outfit.id o).
      apply lookup_insert_eq.
    + destruct (Hcached url Hu) as (id & Hid').
      exists id. rewrite lookup_insert_ne; [exact Hid' |].
      intros <-. congruence.
  - intros id1 id2 url. rewrite !lookup_insert.
    repeat case_decide; subst.
    + reflexivity.
    + intros [= <-] Hsome. apply Hlive, Hold in Hsome. lia.
    + intros Hsome [= <-]. apply Hlive, Hold in Hsome. lia.
    + apply Honce.
  - intros url Hu. apply elem_of_union in Hu as [Hu | Hu].
    + apply elem_of_singleton in Hu as ->. lia.
    + apply Hold in Hu. lia.
Qed.

Lemma revokeThumbURL_lookup (id : string) (t : Thumbs) (k : string) :
  urlCache (revokeThumbURL id t) !! k
  = if decide (k = id) then None else urlCache t !! k.
Proof.
  unfold revokeThumbURL. destruct (urlCache t !! id) as [url |] eqn:Hk.
  - cbn. rewrite lookup_delete. repeat case_decide; congruence.
  - case_decide; congruence.
Qed.

Lemma revokeThumbURL_ok (id : string) (t : Thumbs) :
  thumbs_ok t -> thumbs_ok (revokeThumbURL id t).
Proof.
  intros [Hlive Hcached Honce Hold]. unfold revokeThumbURL.
  destruct (urlCache t !! id) as [url |] eqn:Hk; [| now constructor].
  constructor; cbn.
  - intros id' u. rewrite lookup_delete. case_decide; [discriminate |].
    intros Hsome. apply elem_of_difference. split; [now apply (Hlive id') |].
    rewrite elem_of_singleton. intros ->.
    pose proof (Honce id id' url Hk Hsome). congruence.
  - intros u Hu. apply elem_of_difference in Hu as [Hu Hne].
    rewrite elem_of_singleton in Hne.
    destruct (Hcached u Hu) as (id' & Hid').
    exists id'. rewrite lookup_delete_ne; [exact Hid' |].
    intros <-. congruence.
  - intros id1 id2 u. rewrite !lookup_delete.
    repeat case_decide; try discriminate. apply Honce.
  - intros u Hu. apply elem_of_difference in Hu as [Hu _]. now apply Hold.
Qed.

Lemma revokeThumbURL_next (id : string) (t : Thumbs) :
  nextURL (revokeThumbURL id t) = nextURL t.
Proof. unfold revokeThumbURL. now destruct (urlCache t !! id). Qed.

Lemma dropUnlessKept_revoke (ids : gset string) (t : Thumbs) (id : string)
    (url : nat) :
  urlCache t !! id = Some url ->
  dropUnlessKept ids t (id, url)
  = if decide (id ∈ ids) then t else revokeThumbURL id t.
Proof.
  intros Hk. unfold dropUnlessKept, revokeThumbURL. cbn [fst snd].
  now rewrite Hk.
Qed.

(** The loop of [keepOnlyThumbs] over entries [l] of the cache. *)
Lemma keepOnlyThumbs_loop (ids : gset string) (l : list (string * nat))
    (t : Thumbs) :
  NoDup l.*1 ->
  (forall id url, (id, url) ∈ l -> urlCache t !! id = Some url) ->
  thumbs_ok t ->
  let t' := foldl (dropUnlessKept ids) t l in
  thumbs_ok t'
  /\ nextURL t' = nextURL t
  /\ forall k, urlCache t' !! k
               = if decide (k ∈ l.*1 /\ k ∉ ids) then None
                 else urlCache t !! k.
Proof.
  revert t. induction l as [| [id url] rest IH]; intros t Hnd Hentries Hok.
  - cbn. split; [exact Hok |]. split; [reflexivity |].
    intros k. rewrite decide_False; [reflexivity |].
    intros [Hk _]. now apply elem_of_nil in Hk.
  - cbn [fmap list_fmap fst] in Hnd. apply NoDup_cons in Hnd as [Hid Hnd].
    cbn [foldl].
    rewrite dropUnlessKept_revoke by (apply Hentries; left).
    set (t1 := if decide (id ∈ ids) then t else revokeThumbURL id t).
    assert (Hok1 : thumbs_ok t1).
    { subst t1. case_decide; [exact Hok | now apply revokeThumbURL_ok]. }
    assert (Hlook1 : forall k, urlCache t1 !! k
                       = if decide (k = id /\ k ∉ ids) then None
                         else urlCache t !! k).
    { intros k. subst t1. destruct (decide (id ∈ ids)) as [Hin | Hout].
      - rewrite decide_False; [reflexivity |]. intros [-> Hk]. contradiction.
      - rewrite revokeThumbURL_lookup.
        destruct (decide (k = id)) as [-> | Hne].
        + now rewrite decide_True.
        + rewrite decide_False; [reflexivity |]. now intros [Hk _]. }
    assert (Hnext1 : nextURL t1 = nextURL t).
    { subst t1. case_decide; [reflexivity | apply revokeThumbURL_next]. }
    destruct (IH t1 Hnd) as (Hok' & Hnext' & Hlook'); [| exact Hok1 |].
    { intros id' url' Hin. rewrite Hlook1.
      rewrite decide_False.
      - apply Hentries. now right.
      - intros [-> _]. apply Hid.
        change id with (id, url').1. now apply list_elem_of_fmap_2. }
    split; [exact Hok' |]. split; [now rewrite Hnext' |].
    intros k. rewrite Hlook', Hlook1. cbn [fmap list_fmap fst].
    destruct (decide (k ∈ rest.*1 /\ k ∉ ids)) as [[Hr Hk] | Hn1].
    + rewrite decide_True; [reflexivity |]. split; [now right | exact Hk].
    + destruct (decide (k = id /\ k ∉ ids)) as [[-> Hk] | Hn2].
      * rewrite decide_True; [reflexivity |]. split; [left | exact Hk].
      * rewrite decide_False; [reflexivity |].
        intros [Hin Hk]. apply elem_of_cons in Hin as [-> | Hin]; tauto.
Qed.

Lemma keepOnlyThumbs_spec (ids : gset string) (t : Thumbs) :
  thumbs_ok t ->
  thumbs_ok (keepOnlyThumbs ids t)
  /\ nextURL (keepOnlyThumbs ids t) = nextURL t
  /\ forall k, urlCache (keepOnlyThumbs ids t) !! k
               = if decide (k ∈ ids) then urlCache t !! k else None.
Proof.
  intros Hok. unfold keepOnlyThumbs.
  destruct (keepOnlyThumbs_loop ids (map_to_list (urlCache t)) t)
    as (Hok' & Hnext & Hlook).
  - apply NoDup_fst_map_to_list.
  - intros id url Hin. now apply elem_of_map_to_list.
  - exact Hok.
  - split; [exact Hok' |]. split; [exact Hnext |].
    intros k. rewrite Hlook.
    destruct (decide (k ∈ ids)) as [Hin | Hout].
    + rewrite decide_False; [reflexivity | tauto].
    + destruct (urlCache t !! k) as [url |] eqn:Hk.
      * rewrite decide_True; [reflexivity |]. split; [| exact Hout].
        change k with (k, url).1. apply list_elem_of_fmap_2.
        now apply elem_of_map_to_list.
      * now case_decide.
Qed.

Lemma getThumbURL_step (o : Outfit.t) (t : Thumbs) :
  let url := fst (getThumbURL o t) in
  let t1 := snd (getThumbURL o t) in
  (forall k u, urlCache t !! k = Some u -> urlCache t1 !! k = Some u)
  /\ (forall k, is_Some (urlCache t1 !! k) ->
        is_Some (urlCache t !! k) \/ (k <> "" /\ k = Outfit.id o))
  /\ (if String.eqb (Outfit.id o) "" then url = None
      else is_Some url /\ url = urlCache t1 !! Outfit.id o).
Proof.
  destruct (String.eqb_spec (Outfit.id o) "") as [Hid | Hid].
  { rewrite getThumbURL_no_id by exact Hid. cbn. repeat split; auto. }
  destruct (urlCache t !! Outfit.id o) as [url |] eqn:Hk.
  { rewrite (getThumbURL_cached o t url Hid Hk). cbn.
    repeat split; auto. }
  rewrite (getThumbURL_new o t Hid Hk). cbn. split; [| split].
  - intros k u Hsome. rewrite lookup_insert_ne; [exact Hsome |].
    intros <-. congruence.
  - intros k. rewrite lookup_insert. case_decide as Hd.
    + intros _. right. now subst k.
    + now left.
  - split; [now eexists |]. now rewrite lookup_insert_eq.
Qed.

Lemma thumbsOf_spec (items : list Outfit.t) (t : Thumbs) :
  thumbs_ok t ->
  let urls := fst (thumbsOf items t) in
  let t' := snd (thumbsOf items t) in
  thumbs_ok t'
  /\ (forall k u, urlCache t !! k = Some u -> urlCache t' !! k = Some u)
  /\ (forall k, is_Some (urlCache t' !! k) ->
        is_Some (urlCache t !! k)
        \/ (k <> "" /\ k ∈ Outfit.id <$> items))
  /\ (forall k, k <> "" -> k ∈ Outfit.id <$> items ->
        is_Some (urlCache t' !! k))
  /\ Forall2 (fun o u => u = if String.eqb (Outfit.id o) "" then None
                           else urlCache t' !! Outfit.id o) items urls.
Proof.
  revert t. induction items as [| o rest IH]; intros t Hok.
  - cbn. split; [exact Hok |]. split; [auto |]. split; [auto |].
    split; [| constructor]. intros k _ Hk. now apply elem_of_nil in Hk.
  - cbn [thumbsOf].
    pose proof (getThumbURL_ok o t Hok) as Hok1.
    destruct (getThumbURL_step o t) as (Hkeep1 & Hnew1 & Hurl).
    destruct (getThumbURL o t) as [url t1]. cbn [fst snd] in *.
    destruct (IH t1 Hok1) as (Hok' & Hkeep & Hnew & Hall & Hurls).
    destruct (thumbsOf rest t1) as [urls t2]. cbn [fst snd] in *.
    split; [exact Hok' |]. split; [| split; [| split]].
    + intros k u Hsome. now apply Hkeep, Hkeep1.
    + intros k Hsome. cbn [fmap list_fmap].
      destruct (Hnew k Hsome) as [Hold | [Hne Hin]].
      * destruct (Hnew1 k Hold) as [Hold' | [Hne ->]]; [now left |].
        right. split; [exact Hne | left].
      * right. split; [exact Hne | now right].
    + intros k Hne Hin. cbn [fmap list_fmap] in Hin.
      apply elem_of_cons in Hin as [-> | Hin]; [| now apply Hall].
      destruct (String.eqb_spec (Outfit.id o) ""); [contradiction |].
      destruct Hurl as [[u Hu] Heq]. exists u. apply Hkeep.
      now rewrite <- Heq, Hu.
    + constructor; [| exact Hurls].
      destruct (String.eqb_spec (Outfit.id o) ""); [exact Hurl |].
      destruct Hurl as [[u Hu] Heq]. rewrite Hu in Heq |- *.
      symmetry. now apply Hkeep.
Qed.

(** X9.  The thumbnail cache and the object URLs it holds stay
    consistent: starting from a state in which every cached URL is live,
    every live URL is cached under exactly one id and no live URL will be
    handed out again, the same is true after [getThumbURL],
    [revokeThumbURL], [keepOnlyThumbs] and the cache handling of
    [renderGrid].  So no revoked URL is ever served and no URL that is
    not served stays alive.  A second [getThumbURL] for the same record
    returns the same URL and creates none. *)
Theorem thumb_cache_consistent (t : Thumbs) :
  thumbs_ok t ->
  (forall o, thumbs_ok (snd (getThumbURL o t)))
  /\ (forall id, thumbs_ok (revokeThumbURL id t))
  /\ (forall ids, thumbs_ok (keepOnlyThumbs ids t))
  /\ (forall items, thumbs_ok (snd (renderGridThumbs items t)))
  /\ (forall o, getThumbURL o (snd (getThumbURL o t)) = getThumbURL o t).
Proof.
  intros Hok. split; [| split; [| split; [| split]]].
  - intros o. now apply getThumbURL_ok.
  - intros id. now apply revokeThumbURL_ok.
  - intros ids. now apply keepOnlyThumbs_spec.
  - intros items. unfold renderGridThumbs.
    apply thumbsOf_spec. now apply keepOnlyThumbs_spec.
  - intros o.
    destruct (String.eqb_spec (Outfit.id o) "") as [Hid | Hid].
    { rewrite (getThumbURL_no_id o t Hid). cbn [snd].
      now apply getThumbURL_no_id. }
    destruct (urlCache t !! Outfit.id o) as [url |] eqn:Hk.
    { rewrite (getThumbURL_cached o t url Hid Hk). cbn [snd].
      now apply getThumbURL_cached. }
    rewrite (getThumbURL_new o t Hid Hk). cbn [snd].
    apply getThumbURL_cached; [exact Hid |]. cbn. apply lookup_insert_eq.
Qed.

Lemma thumb_cache_consistent_witness :
  let t0 := mkThumbs ∅ ∅ 0 in
  thumbs_ok (snd (getThumbURL Sample.worn t0))
  /\ thumbs_ok (snd (renderGridThumbs [Sample.worn; Sample.fresh] t0))
  /\ getThumbURL Sample.worn (snd (getThumbURL Sample.worn t0))
     = getThumbURL Sample.worn t0.
Proof.
  intros t0.
  destruct (thumb_cache_consistent t0 thumbs_ok_empty)
    as (Hget & _ & _ & Hrender & Hsame).
  split; [apply Hget |]. split; [apply Hrender | apply Hsame].
Defined.

(** X10.  Let the cache be consistent and hold no entry for the empty
    id.  After the cache handling of [renderGrid] for the visible
    [items], the cache holds an entry exactly for the non-empty ids of
    the visible records; a visible record that had a cached URL keeps it
    (no new URL is created for it); every card gets the URL cached for
    its id (and the empty string when its id is empty); and every live
    object URL is the thumbnail of a visible record. *)
Theorem renderGridThumbs_serves (items : list Outfit.t) (t : Thumbs) :
  thumbs_ok t ->
  urlCache t !! "" = None ->
  let urls := fst (renderGridThumbs items t) in
  let t' := snd (renderGridThumbs items t) in
  (forall k, is_Some (urlCache t' !! k)
             <-> k <> "" /\ k ∈ Outfit.id <$> items)
  /\ (forall k u, k ∈ Outfit.id <$> items ->
        urlCache t !! k = Some u -> urlCache t' !! k = Some u)
  /\ Forall2 (fun o u => u = if String.eqb (Outfit.id o) "" then None
                           else urlCache t' !! Outfit.id o) items urls
  /\ (forall u, u ∈ liveURLs t' ->
        exists o, o ∈ items /\ urlCache t' !! Outfit.id o = Some u).
Proof.
  intros Hok Hempty urls t'. subst urls t'. unfold renderGridThumbs.
  set (ids := list_to_set (Outfit.id <$> items) : gset string).
  destruct (keepOnlyThumbs_spec ids t Hok) as (Hok0 & _ & Hlook0).
  destruct (thumbsOf_spec items (keepOnlyThumbs ids t) Hok0)
    as (Hok' & Hkeep & Hnew & Hall & Hurls).
  assert (Hdom : forall k,
            is_Some (urlCache (snd (thumbsOf items (keepOnlyThumbs ids t)))
                       !! k)
            <-> k <> "" /\ k ∈ Outfit.id <$> items).
  { intros k. split.
    - intros Hsome. destruct (Hnew k Hsome) as [Hold | Hvis]; [| exact Hvis].
      rewrite Hlook0 in Hold. destruct (decide (k ∈ ids)) as [Hin | Hout].
      + split; [| now apply elem_of_list_to_set in Hin].
        intros ->. rewrite Hempty in Hold. now destruct Hold.
      + now destruct Hold.
    - intros [Hne Hin]. now apply Hall. }
  split; [exact Hdom |]. split; [| split; [exact Hurls |]].
  - intros k u Hin Hsome. apply Hkeep. rewrite Hlook0.
    rewrite decide_True; [exact Hsome |]. now apply elem_of_list_to_set.
  - intros u Hu. destruct (live_cached _ Hok' u Hu) as (k & Hk).
    assert (Hsome : is_Some (urlCache
                      (snd (thumbsOf items (keepOnlyThumbs ids t))) !! k))
      by now exists u.
    apply Hdom in Hsome as [_ Hin].
    apply list_elem_of_fmap in Hin as (o & -> & Ho). now exists o.
Qed.

Lemma renderGridThumbs_serves_witness :
  let t0 := mkThumbs ∅ ∅ 0 in
  let t1 := snd (renderGridThumbs [Sample.worn; Sample.fresh] t0) in
  let t2 := snd (renderGridThumbs [Sample.fresh] t1) in
  fst (renderGridThumbs [Sample.worn; Sample.fresh] t0) = [Some 0; Some 1]%nat
  /\ fst (renderGridThumbs [Sample.fresh] t1) = [Some 1%nat]
  /\ liveURLs t2 = {[1%nat]}
  /\ (forall k, is_Some (urlCache t2 !! k)
                <-> k <> "" /\ k ∈ Outfit.id <$> [Sample.fresh]).
Proof.
  intros t0 t1 t2.
  split; [vm_compute; reflexivity |]. split; [vm_compute; reflexivity |].
  split; [vm_compute; reflexivity |].
  assert (Hok1 : thumbs_ok t1).
  { subst t1. unfold renderGridThumbs.
    apply thumbsOf_spec, keepOnlyThumbs_spec, thumbs_ok_empty. }
  destruct (renderGridThumbs_serves [Sample.fresh] t1 Hok1)
    as (Hdom & _); [vm_compute; reflexivity | exact Hdom].
Defined.

(** ** Tag chips *)

Section TagChipFacts.
Context `{Host}.

Lemma uniq_NoDup (l : list string) : NoDup (Str.uniq l).
Proof. apply uniq_from_NoDup. Qed.

Lemma collectAllTags_sorted_tags (l : list Outfit.t) :
  Array_sort localeCompare (Str.uniq (concat (Outfit.tags <$> l)))
  ≡ₚ Str.uniq (concat (Outfit.tags <$> l)).
Proof. apply Array_sort_perm. Qed.

Lemma elem_of_all_tags (l : list Outfit.t) (t : string) :
  t ∈ Str.uniq (concat (Outfit.tags <$> l))
  <-> exists o, o ∈ l /\ t ∈ Outfit.tags o.
Proof.
  rewrite uniq_elem, list_elem_of_In, in_concat. split.
  - intros (tags & Htags & Ht).
    apply list_elem_of_In, list_elem_of_fmap in Htags as (o & -> & Ho).
    exists o. split; [exact Ho | now apply list_elem_of_In].
  - intros (o & Ho & Ht). exists (Outfit.tags o).
    split; [| now apply list_elem_of_In].
    now apply list_elem_of_In, list_elem_of_fmap_2.
Qed.

End TagChipFacts.

(** X11.  [collectAllTags] returns at most 40 tags without repetition,
    each of them a tag of some record of the list; when the records carry
    at most 40 distinct tags, every tag of every record is returned. *)
Theorem collectAllTags_complete `{Host} (l : list Outfit.t) :
  NoDup (collectAllTags l)
  /\ (length (collectAllTags l) <= 40)%nat
  /\ (forall t, t ∈ collectAllTags l -> exists o, o ∈ l /\ t ∈ Outfit.tags o)
  /\ ((length (Str.uniq (concat (Outfit.tags <$> l))) <= 40)%nat ->
      forall o t, o ∈ l -> t ∈ Outfit.tags o -> t ∈ collectAllTags l).
Proof.
  unfold collectAllTags. split; [| split; [| split]].
  - eapply sublist_NoDup; [| apply sublist_take].
    rewrite collectAllTags_sorted_tags. apply uniq_NoDup.
  - rewrite length_take. lia.
  - intros t Ht. apply elem_of_all_tags.
    rewrite <- collectAllTags_sorted_tags.
    eapply elem_of_sublist; [exact Ht | apply sublist_take].
  - intros Hfew o t Ho Ht. rewrite take_ge.
    + rewrite collectAllTags_sorted_tags. apply elem_of_all_tags.
      now exists o.
    + now rewrite collectAllTags_sorted_tags.
Qed.

(** X12.  On a host whose [localeCompare] never puts each of two strings
    after the other and whose "not after" relation is transitive,
    [collectAllTags] returns the tags in collation order: no tag of the
    result is after a later one. *)
Theorem collectAllTags_sorted `{Host} (l : list Outfit.t) :
  (forall a b, Num.gtb (localeCompare a b) (Fin 0) = true ->
               Num.gtb (localeCompare b a) (Fin 0) = false) ->
  (forall a b c, Num.gtb (localeCompare a b) (Fin 0) = false ->
                 Num.gtb (localeCompare b c) (Fin 0) = false ->
                 Num.gtb (localeCompare a c) (Fin 0) = false) ->
  StronglySorted (fun a b => Num.gtb (localeCompare a b) (Fin 0) = false)
    (collectAllTags l).
Proof.
  intros Hasym Htrans. unfold collectAllTags.
  set (all := Array_sort localeCompare
                (Str.uniq (concat (Outfit.tags <$> l)))).
  assert (Hsorted : StronglySorted
            (fun a b => Num.gtb (localeCompare a b) (Fin 0) = false) all).
  { subst all. apply Array_sort_ordered; [auto | exact Hasym | exact Htrans]. }
  rewrite <- (take_drop 40 all) in Hsorted.
  now apply StronglySorted_app_1_l in Hsorted.
Qed.

(** The demonstration hosts compare strings code unit by code unit; that
    comparison satisfies the two conditions. *)
Lemma compare_not_after_trans (a b c : string) :
  String.compare a b <> Gt -> String.compare b c <> Gt ->
  String.compare a c <> Gt.
Proof.
  revert b c. induction a as [| x a' IH]; intros [| y b'] [| z c'];
    cbn [String.compare]; try congruence.
  unfold Ascii.compare.
  destruct (N.compare_spec (N_of_ascii x) (N_of_ascii y)) as [Exy | Lxy | Gxy];
    destruct (N.compare_spec (N_of_ascii y) (N_of_ascii z))
      as [Eyz | Lyz | Gyz];
    destruct (N.compare_spec (N_of_ascii x) (N_of_ascii z))
      as [Exz | Lxz | Gxz];
    try congruence; try lia.
  apply IH.
Qed.

Lemma compareStrings_after (a b : string) :
  Num.gtb (Toy.compareStrings a b) (Fin 0) = true <-> String.compare a b = Gt.
Proof.
  unfold Toy.compareStrings. destruct (String.compare a b); vm_compute;
    split; congruence.
Qed.

Lemma compareStrings_not_after (a b : string) :
  Num.gtb (Toy.compareStrings a b) (Fin 0) = false
  <-> String.compare a b <> Gt.
Proof.
  rewrite <- compareStrings_after.
  destruct (Num.gtb (Toy.compareStrings a b) (Fin 0)); split; congruence.
Qed.

Lemma collectAllTags_sorted_witness :
  @collectAllTags demoHost [Sample.fresh; Sample.worn]
  = ["rain"; "summer"; "work"]
  /\ StronglySorted
       (fun a b => Num.gtb (Toy.compareStrings a b) (Fin 0) = false)
       (@collectAllTags demoHost [Sample.fresh; Sample.worn]).
Proof.
  split; [vm_compute; reflexivity |].
  apply (@collectAllTags_sorted demoHost).
  - intros a b Hab. apply compareStrings_after in Hab.
    apply compareStrings_not_after.
    rewrite String.compare_antisym, Hab. discriminate.
  - intros a b c Hab Hbc. apply compareStrings_not_after.
    apply compareStrings_not_after in Hab, Hbc.
    now apply (compare_not_after_trans a b c).
Defined.

(** ** The snapshot after a reload *)

Lemma key_le_total (a b : Outfit.t) : key_le a b \/ key_le b a.
Proof. apply String.leb_total. Qed.

Lemma getAll_length (m : gmap string Outfit.t) : length (getAll m) = size m.
Proof.
  unfold getAll.
  rewrite (Permutation_length (merge_sort_Permutation key_le _)).
  now rewrite length_fmap, length_map_to_list.
Qed.

Lemma getAll_sorted (m : gmap string Outfit.t) : Sorted key_le (getAll m).
Proof.
  unfold getAll. apply (@Sorted_merge_sort _ key_le _ key_le_total).
Qed.

(** X13.  [refresh] makes one request to the object store and does not
    write to it.  When the store fails the request, [refresh] throws
    and leaves the snapshot and the visible list as they were.  When the
    store serves it, [refresh] runs to its end, and the snapshot it
    loads lists every stored record exactly once (it has as many entries
    as the store, and each stored record is one of them), in ascending
    order of the keys; in a store that files records under their ids no
    two entries share an id.  The visible list it computes shows nothing
    but records of that snapshot, none more often than the snapshot
    holds it. *)
Theorem refresh_snapshot `{Host} (w : World) :
  let w' := snd (refresh w) in
  db w' = db w
  /\ requests w' = S (requests w)
  /\ (storeFails (requests w) = true ->
      fst (refresh w) = Throw StoreError /\ app w' = app w)
  /\ (storeFails (requests w) = false ->
      fst (refresh w) = Ok tt
      /\ (forall o, o ∈ outfits (app w') <-> exists k, db w !! k = Some o)
      /\ length (outfits (app w')) = size (db w)
      /\ Sorted key_le (outfits (app w'))
      /\ (keyed (db w) -> NoDup (Outfit.id <$> outfits (app w')))
      /\ filtered (app w') ⊆+ outfits (app w')).
Proof.
  intros w'. subst w'.
  destruct (storeFails (requests w)) eqn:Hreq.
  - rewrite (refresh_failed w Hreq). cbn [fst snd db app counted requests].
    split; [reflexivity |]. split; [reflexivity |].
    split; [now split | discriminate].
  - rewrite (refresh_served w Hreq).
    cbn [fst snd db app requests outfits filtered set_filtered set_outfits].
    split; [reflexivity |]. split; [reflexivity |].
    split; [discriminate |]. intros _.
    split; [reflexivity |].
    split; [intros o; apply elem_of_getAll |].
    split; [apply getAll_length |]. split; [apply getAll_sorted |].
    split; [apply NoDup_ids_getAll |].
    rewrite visibleOutfits_filter, Array_sort_perm.
    apply sublist_submseteq, filter_sublist.
Qed.

(** ** The stale filter, in days *)

Lemma msPerDay_days (d : Z) :
  msPerDay (num_of_Z d) = num_of_Z (d * 86400000).
Proof.
  unfold msPerDay, num_of_Z, inject_Z. cbn [Num.mul]. unfold Qmult. cbn.
  do 2 f_equal. lia.
Qed.

Lemma sub_inject (a b : Z) :
  Num.sub (num_of_Z a) (num_of_Z b) = num_of_Z (a - b).
Proof.
  unfold Num.sub, num_of_Z, inject_Z. cbn [Num.neg Num.add].
  unfold Qplus, Qopp. cbn. do 2 f_equal. lia.
Qed.

Lemma ltb_inject (a b : Z) :
  Num.ltb (num_of_Z a) (num_of_Z b) = (a <? b)%Z.
Proof.
  unfold Num.ltb, num_of_Z. rewrite Qle_bool_inject.
  destruct (Z.leb_spec b a), (Z.ltb_spec a b); try reflexivity; lia.
Qed.

Lemma or_inject (t : Z) : Num.or (num_of_Z t) (Fin 0) = num_of_Z t.
Proof.
  unfold Num.or. rewrite truthy_num_of_Z.
  destruct (Z.eqb_spec t 0) as [-> | _]; reflexivity.
Qed.

Lemma eqb_inject (a b : Z) :
  Num.eqb (num_of_Z a) (num_of_Z b) = (a =? b)%Z.
Proof.
  unfold Num.eqb, num_of_Z.
  destruct (Z.eqb_spec a b) as [-> | Hne].
  - apply Qeq_bool_iff. reflexivity.
  - destruct (Qeq_bool (inject_Z a) (inject_Z b)) eqn:Hq; [| reflexivity].
    apply Qeq_bool_iff in Hq. unfold Qeq, inject_Z in Hq. cbn in Hq. lia.
Qed.

Section StaleFacts.
Context `{Host}.

Lemma visibleOutfits_elem (now : Z) (s : State) (o : Outfit.t) :
  o ∈ visibleOutfits now s
  <-> o ∈ outfits s /\ passesFilters now s o = true.
Proof.
  rewrite visibleOutfits_filter, Array_sort_perm, !list_elem_of_In.
  apply filter_In.
Qed.

(** The test of the stale filter on a record last worn at time [t],
    for a threshold of [d] days. *)
Lemma stale_test (now d t : Z) (o : Outfit.t) :
  Outfit.lastWornAt o = num_of_Z t ->
  (let limit := Num.sub (num_of_Z now) (msPerDay (num_of_Z d)) in
   let lw := Num.or (Outfit.lastWornAt o) (Fin 0) in
   Num.eqb lw (Fin 0) || Num.ltb lw limit)
  = ((t =? 0) || (t <? now - d * 86400000))%Z.
Proof.
  intros Ht. cbv zeta.
  rewrite Ht, or_inject, msPerDay_days, sub_inject, ltb_inject.
  change (Num.eqb (num_of_Z t) (Fin 0))
    with (Num.eqb (num_of_Z t) (num_of_Z 0)).
  now rewrite eqb_inject.
Qed.

End StaleFacts.

(** X14.  Let the stale filter be set to [d] days, [d > 0].  Every
    record [applyFiltersAndSort] shows whose last-worn time is an integer
    [t] has never been worn ([t = 0]) or was last worn more than [d] days
    (of 86 400 000 ms) before the clock reading taken; and when no other
    criterion is on, every such record of the snapshot is shown. *)
Theorem stale_filter_days `{Host} (w : World) (d : Z) :
  staleDays (filter (app w)) = num_of_Z d ->
  0 < d ->
  let shown := filtered (app (snd (applyFiltersAndSort w))) in
  let limit := dateNow (tick w) - d * 86400000 in
  (forall o t, o ∈ shown -> Outfit.lastWornAt o = num_of_Z t ->
     t = 0 \/ t < limit)
  /\ (fav (filter (app w)) = false ->
      Num.gtb (minRating (filter (app w))) (Fin 0) = false ->
      tag (filter (app w)) = "" ->
      Str.trim (search (app w)) = "" ->
      String.eqb (sort (app w)) "fav_only" = false ->
      forall o t, o ∈ outfits (app w) ->
        Outfit.lastWornAt o = num_of_Z t ->
        t = 0 \/ t < limit -> o ∈ shown).
Proof.
  intros Hd Hpos shown limit. subst shown limit.
  rewrite applyFiltersAndSort_run.
  assert (Hon : Num.gtb (staleDays (filter (app w))) (Fin 0) = true).
  { rewrite Hd. change (Fin 0) with (num_of_Z 0). unfold Num.gtb.
    rewrite ltb_inject. now apply Z.ltb_lt. }
  rewrite Hon. cbn [snd app filtered set_filtered].
  split.
  - intros o t Hin Ht. apply visibleOutfits_elem in Hin as [_ Hpass].
    unfold passesFilters in Hpass. rewrite Hon, Hd in Hpass.
    rewrite (stale_test _ d t o Ht) in Hpass.
    repeat (apply andb_true_iff in Hpass as [Hpass ?]).
    match goal with
    | Hs : (_ || _)%bool = true |- _ =>
        apply orb_true_iff in Hs as [Hs | Hs]
    end.
    + left. now apply Z.eqb_eq.
    + right. now apply Z.ltb_lt.
  - intros Hfav Hmin Htag Hq Hsort o t Hin Ht Hstale.
    apply visibleOutfits_elem. split; [exact Hin |].
    unfold passesFilters. rewrite Hfav, Hmin, Hon, Htag, Hq, Hsort, Hd.
    rewrite (stale_test _ d t o Ht). cbn [andb negb String.eqb].
    rewrite !andb_true_r. apply orb_true_iff.
    destruct Hstale as [-> | Hlt]; [now left | right; now apply Z.ltb_lt].
Qed.

Lemma stale_filter_days_witness :
  let s := Sample.state [Sample.worn; Sample.fresh] Sample.staleFilter in
  let w := Sample.world [] s 1 in
  let shown := filtered (app (snd (@applyFiltersAndSort demoHost w))) in
  shown = [Sample.fresh; Sample.worn]
  /\ (forall o t, o ∈ shown -> Outfit.lastWornAt o = num_of_Z t ->
        t = 0 \/ t < 1700000000001 - 30 * 86400000).
Proof.
  intros s w shown. split; [vm_compute; reflexivity |].
  destruct (@stale_filter_days demoHost w 30 eq_refl ltac:(lia))
    as [Hsound _].
  exact Hsound.
Defined.

(** ** What holds between two events *)

Section ConsistencyFacts.
Context `{Host}.

(** A world whose visible list has just been computed is consistent as
    soon as its parts are. *)
Lemma consistent_rendered (m : gmap string Outfit.t) (s : State) (now : Z)
    (ta : option ToastAction) (tm : gset nat) (nt tk rq : nat) :
  keyed m ->
  (forall k r, m !! k = Some r -> checkedRecord r) ->
  (forall r, r ∈ outfits s -> checkedRecord r) ->
  NoDup (Outfit.id <$> outfits s) ->
  (forall r, lastDeleted s = Some r -> checkedRecord r) ->
  (forall l r, ta = Some (UndoBulk l) -> r ∈ l -> checkedRecord r) ->
  (selectMode s = false -> selectedSet s = ∅) ->
  (forall t, t ∈ tm -> undoTimer s = Some t) ->
  (forall t, undoTimer s = Some t -> (t < nt)%nat) ->
  (is_Some (lastDeleted s) -> exists t, undoTimer s = Some t /\ t ∈ tm) ->
  consistent
    (mkWorld m (set_filtered (visibleOutfits now s) s) ta tm nt tk rq).
Proof.
  intros Hk Hchecked Hsnap Hnd Hlast Hbulk Hsel Htm Hfresh Hexp.
  constructor; cbn [db app toastAction timers nextTimer outfits filtered
                      selectMode selectedSet lastDeleted undoTimer
                      set_filtered]; try assumption.
  - intros r. unfold heldRecords.
    cbn [app toastAction outfits lastDeleted set_filtered].
    rewrite !elem_of_app. intros [Hr | [Hr | Hr]].
    + now apply Hsnap.
    + destruct (lastDeleted s) as [o |] eqn:Hl;
        [| now apply elem_of_nil in Hr].
      apply list_elem_of_singleton in Hr as ->. now apply Hlast.
    + destruct ta as [[| l] |]; try (now apply elem_of_nil in Hr).
      now apply (Hbulk l).
  - exists now. reflexivity.
Qed.

(** The parts of a consistent world. *)
Lemma consistent_snapshot (w : World) (r : Outfit.t) :
  consistent w -> r ∈ outfits (app w) -> checkedRecord r.
Proof.
  intros Hc Hr. apply (held_checked _ Hc). unfold heldRecords.
  apply elem_of_app. now left.
Qed.

Lemma consistent_lastDeleted (w : World) (r : Outfit.t) :
  consistent w -> lastDeleted (app w) = Some r -> checkedRecord r.
Proof.
  intros Hc Hr. apply (held_checked _ Hc). unfold heldRecords.
  rewrite Hr, !elem_of_app. right. left. left.
Qed.

Lemma consistent_bulk (w : World) (l : list Outfit.t) (r : Outfit.t) :
  consistent w -> toastAction w = Some (UndoBulk l) -> r ∈ l ->
  checkedRecord r.
Proof.
  intros Hc Ht Hr. apply (held_checked _ Hc). unfold heldRecords.
  rewrite Ht, !elem_of_app. right. now right.
Qed.

(** The snapshot reloaded from a store of checked records. *)
Lemma getAll_checked (m : gmap string Outfit.t) (r : Outfit.t) :
  (forall k o, m !! k = Some o -> checkedRecord o) ->
  r ∈ getAll m -> checkedRecord r.
Proof. intros Hm Hr. apply elem_of_getAll in Hr as (k & Hk). eauto. Qed.

End ConsistencyFacts.

Section ViewHandlerFacts.
Context `{Host}.

(** Recomputing the visible list after a change of the criteria or of
    the selection keeps the world consistent. *)
Lemma consistent_view (w : World) (s : State) (now : Z)
    (ta : option ToastAction) (tk rq : nat) :
  consistent w ->
  outfits s = outfits (app w) ->
  lastDeleted s = lastDeleted (app w) ->
  undoTimer s = undoTimer (app w) ->
  (selectMode s = false -> selectedSet s = ∅) ->
  ta = toastAction w \/ ta = None ->
  consistent
    (mkWorld (db w) (set_filtered (visibleOutfits now s) s) ta (timers w)
       (nextTimer w) tk rq).
Proof.
  intros Hc Ho Hl Hu Hsel Hta.
  apply consistent_rendered.
  - apply (store_keyed _ Hc).
  - apply (store_checked _ Hc).
  - intros r. rewrite Ho. now apply (consistent_snapshot w).
  - rewrite Ho. apply (snapshot_ids _ Hc).
  - intros r. rewrite Hl. now apply (consistent_lastDeleted w).
  - intros l r Hb. destruct Hta as [-> | ->]; [| discriminate].
    now apply (consistent_bulk w l).
  - exact Hsel.
  - rewrite Hu. apply (timer_recorded _ Hc).
  - rewrite Hu. apply (timer_fresh _ Hc).
  - rewrite Hl, Hu. apply (undo_expires _ Hc).
Qed.

(** A step that leaves the store, the timers and every part of the
    state but the selected id alone keeps the world consistent. *)
Lemma consistent_frame (w w' : World) (sid : option string) :
  consistent w ->
  db w' = db w ->
  app w' = set_selectedId sid (app w) ->
  timers w' = timers w ->
  nextTimer w' = nextTimer w ->
  toastAction w' = toastAction w \/ toastAction w' = None ->
  consistent w'.
Proof.
  intros Hc Hdb Happ Htm Hnt Hta.
  constructor; rewrite ?Hdb, ?Happ, ?Htm, ?Hnt;
    cbn [set_selectedId outfits filtered selectMode selectedSet lastDeleted
           undoTimer].
  - apply (store_keyed _ Hc).
  - apply (store_checked _ Hc).
  - intros r. unfold heldRecords. rewrite Happ.
    cbn [set_selectedId outfits lastDeleted]. rewrite !elem_of_app.
    intros [Hr | [Hr | Hr]].
    + now apply (consistent_snapshot w).
    + destruct (lastDeleted (app w)) as [o |] eqn:Hl;
        [| now apply elem_of_nil in Hr].
      apply list_elem_of_singleton in Hr as ->.
      now apply (consistent_lastDeleted w).
    + destruct Hta as [Hta | Hta]; rewrite Hta in Hr.
      * destruct (toastAction w) as [[| l] |] eqn:Ht;
          try (now apply elem_of_nil in Hr).
        now apply (consistent_bulk w l).
      * now apply elem_of_nil in Hr.
  - apply (snapshot_ids _ Hc).
  - destruct (view_current _ Hc) as (now & Hnow). exists now.
    rewrite Hnow. now apply visibleOutfits_ext.
  - apply (selection_mode _ Hc).
  - apply (timer_recorded _ Hc).
  - apply (timer_fresh _ Hc).
  - apply (undo_expires _ Hc).
Qed.

Lemma set_selectedId_same (s : State) : s = set_selectedId (selectedId s) s.
Proof. now destruct s. Qed.

(** Applies [applyFiltersAndSort_run] to a listener that changes the
    criteria or the selection and renders, then [consistent_view]. *)
Ltac view_listener Hc :=
  cbv [bind modify gets ret renderGrid showToast];
  rewrite ?applyFiltersAndSort_run;
  cbn [snd set_app set_toastAction db app toastAction timers nextTimer tick
         requests];
  match type of Hc with
  | consistent ?w => apply (consistent_view w)
  end;
  [exact Hc | reflexivity | reflexivity | reflexivity | | auto].

Lemma onSearch_consistent (value : string) (w : World) :
  consistent w -> consistent (snd (onSearch value w)).
Proof.
  intros Hc. unfold onSearch. view_listener Hc.
  apply (selection_mode _ Hc).
Qed.

Lemma onSortChange_consistent (value : string) (w : World) :
  consistent w -> consistent (snd (onSortChange value w)).
Proof.
  intros Hc. unfold onSortChange. view_listener Hc.
  apply (selection_mode _ Hc).
Qed.

Lemma setTagFilter_consistent (t : string) (w : World) :
  consistent w -> consistent (snd (setTagFilter t w)).
Proof.
  intros Hc. unfold setTagFilter. view_listener Hc.
  apply (selection_mode _ Hc).
Qed.

Lemma setQuickFilter_consistent (f : bool) (minR stale : JsNum) (w : World) :
  consistent w -> consistent (snd (setQuickFilter f minR stale w)).
Proof.
  intros Hc. unfold setQuickFilter. view_listener Hc.
  apply (selection_mode _ Hc).
Qed.

Lemma clickFilterAll_consistent (w : World) :
  consistent w -> consistent (snd (clickFilterAll w)).
Proof.
  intros Hc. unfold clickFilterAll. view_listener Hc.
  apply (selection_mode _ Hc).
Qed.

Lemma enableSelectMode_consistent (on : bool) (w : World) :
  consistent w -> consistent (snd (enableSelectMode on w)).
Proof.
  intros Hc. unfold enableSelectMode. view_listener Hc.
  cbn. destruct on; [discriminate | reflexivity].
Qed.

Lemma toggleSelection_consistent (id : string) (w : World) :
  consistent w -> selectMode (app w) = true ->
  consistent (snd (toggleSelection id w)).
Proof.
  intros Hc Hmode. unfold toggleSelection. view_listener Hc.
  cbn. congruence.
Qed.

End ViewHandlerFacts.

Section FrameHandlerFacts.
Context `{Host}.

Lemma showToast_none_consistent (w : World) :
  consistent w -> consistent (snd (showToast None w)).
Proof.
  intros Hc. apply (consistent_frame w _ (selectedId (app w)));
    try reflexivity; [exact Hc | apply set_selectedId_same | now right].
Qed.

Lemma clickFilterFav_consistent (w : World) :
  consistent w -> consistent (snd (clickFilterFav w)).
Proof.
  intros Hc. unfold clickFilterFav. cbv [bind gets].
  now apply setQuickFilter_consistent.
Qed.

Lemma clickFilter4plus_consistent (w : World) :
  consistent w -> consistent (snd (clickFilter4plus w)).
Proof.
  intros Hc. unfold clickFilter4plus. cbv [bind gets].
  now apply setQuickFilter_consistent.
Qed.

Lemma clickFilterStale_consistent (w : World) :
  consistent w -> consistent (snd (clickFilterStale w)).
Proof.
  intros Hc. unfold clickFilterStale. cbv [bind gets].
  now apply setQuickFilter_consistent.
Qed.

Lemma enableSelectMode_ok (on : bool) (w : World) :
  fst (enableSelectMode on w) = Ok tt
  /\ selectMode (app (snd (enableSelectMode on w))) = on.
Proof.
  unfold enableSelectMode. cbv [bind modify renderGrid].
  rewrite applyFiltersAndSort_run. split; reflexivity.
Qed.

Lemma toggleSelectMode_consistent (w : World) :
  consistent w -> consistent (snd (toggleSelectMode w)).
Proof.
  intros Hc. unfold toggleSelectMode. cbv [bind gets].
  pose proof (enableSelectMode_consistent (negb (selectMode (app w))) w Hc)
    as Hc1.
  destruct (enableSelectMode_ok (negb (selectMode (app w))) w) as [Hok _].
  destruct (enableSelectMode (negb (selectMode (app w))) w) as [r w1].
  cbn [fst snd] in *. subst r.
  destruct (selectMode (app w1)); [| exact Hc1].
  now apply showToast_none_consistent.
Qed.

Hypothesis Hstore : reliableStore.

(** The form [openDetail] shows for the record [o]. *)
Lemma openDetail_run (w : World) (id : string) (o : Outfit.t) :
  db w !! id = Some o ->
  exists w1,
    openDetail id w
    = (Ok (Some (mkDetailForm (Outfit.name o)
                   (VStr (NumberToString
                            (clampRating (Js.or (VNum (Outfit.rating o))
                                            (VNum (Fin 0))))))
                   (Outfit.favorite o) (tagsToText (Outfit.tags o))
                   (Outfit.notes o))), w1)
    /\ db w1 = db w
    /\ app w1 = set_selectedId (Some id) (app w)
    /\ toastAction w1 = toastAction w
    /\ timers w1 = timers w
    /\ nextTimer w1 = nextTimer w.
Proof.
  intros Ho. unfold openDetail. cbv [bind].
  rewrite (dbGetOutfit_run Hstore), Ho.
  cbv [modify]. destruct (Num.truthy (Outfit.createdAt o));
    cbv [ret Date_now]; eexists; (split; [reflexivity |]);
    cbn; repeat split; reflexivity.
Qed.

Lemma openDetail_missing (w : World) (id : string) :
  db w !! id = None -> openDetail id w = (Ok None, counted w).
Proof.
  intros Ho. unfold openDetail. cbv [bind ret].
  now rewrite (dbGetOutfit_run Hstore), Ho.
Qed.

Lemma counted_consistent (w : World) : consistent w -> consistent (counted w).
Proof.
  intros Hc. apply (consistent_frame w _ (selectedId (app w)));
    try reflexivity; [exact Hc | apply set_selectedId_same | now left].
Qed.

Lemma openDetail_consistent (id : string) (w : World) :
  consistent w -> consistent (snd (openDetail id w)).
Proof.
  intros Hc. destruct (db w !! id) as [o |] eqn:Ho.
  - destruct (openDetail_run w id o Ho)
      as (w1 & -> & Hdb & Happ & Hta & Htm & Hnt).
    cbn [snd].
    apply (consistent_frame w w1 (Some id)); try assumption. now left.
  - rewrite openDetail_missing by exact Ho. now apply counted_consistent.
Qed.

Lemma cardClick_consistent (id : string) (w : World) :
  consistent w -> consistent (snd (cardClick id w)).
Proof.
  intros Hc. unfold cardClick. cbv [bind gets].
  destruct (selectMode (app w)) eqn:Hmode.
  - now apply toggleSelection_consistent.
  - pose proof (openDetail_consistent id w Hc) as Hc1.
    destruct (openDetail id w) as [[r | e] w1]; exact Hc1.
Qed.

Lemma cardLongPress_consistent (id : string) (w : World) :
  consistent w -> consistent (snd (cardLongPress id w)).
Proof.
  intros Hc. unfold cardLongPress. cbv [bind].
  pose proof (enableSelectMode_consistent true w Hc) as Hc1.
  destruct (enableSelectMode_ok true w) as [Hok Hmode].
  destruct (enableSelectMode true w) as [r w1].
  cbn [fst snd] in *. subst r.
  cbv [modify renderGrid showToast].
  rewrite applyFiltersAndSort_run.
  cbn [snd set_app set_toastAction db app toastAction timers nextTimer tick].
  apply (consistent_view w1); try reflexivity; [exact Hc1 | | now right].
  cbn. congruence.
Qed.

Lemma closeDetailModal_consistent (w : World) :
  consistent w -> consistent (snd (closeDetailModal w)).
Proof.
  intros Hc. apply (consistent_frame w _ None); try reflexivity;
    [exact Hc | now left].
Qed.

Lemma exportOutfits_consistent (l : list Outfit.t) (w : World) :
  consistent w -> consistent (snd (exportOutfits l w)).
Proof.
  intros Hc. unfold exportOutfits. cbv [bind Date_now].
  set (w0 := mkWorld (db w) (app w) (toastAction w) (timers w)
               (nextTimer w) (S (tick w)) (requests w)).
  pose proof (exportEntries_frame l w0) as Hframe.
  destruct (exportEntries l w0) as [[entries | e] w1];
    cbn [snd] in Hframe; subst w1; cbv [showToast modify ret]; cbn [snd].
  - apply (consistent_frame w _ (selectedId (app w))); try reflexivity;
      [exact Hc | apply set_selectedId_same | now right].
  - apply (consistent_frame w _ (selectedId (app w))); try reflexivity;
      [exact Hc | apply set_selectedId_same | now left].
Qed.

Lemma bulkExportSelected_consistent (w : World) :
  consistent w -> consistent (snd (bulkExportSelected w)).
Proof.
  intros Hc. unfold bulkExportSelected. cbv [bind gets ret].
  destruct (decide (size (selectedSet (app w)) = 0%nat)); [exact Hc |].
  pose proof (exportOutfits_consistent (selectedOutfits (app w)) w Hc)
    as Hc1.
  destruct (exportOutfits (selectedOutfits (app w)) w) as [[text | e] w1];
    exact Hc1.
Qed.

Lemma exportAll_consistent (w : World) :
  consistent w -> consistent (snd (exportAll w)).
Proof.
  intros Hc. unfold exportAll. cbv [bind].
  rewrite (dbGetAllOutfits_run Hstore).
  now apply exportOutfits_consistent, counted_consistent.
Qed.

Lemma undoTimerFires_consistent (t : nat) (w : World) :
  consistent w -> consistent (snd (undoTimerFires t w)).
Proof.
  intros Hc. destruct (decide (t ∈ timers w)) as [Hin | Hout].
  2: { now rewrite undoTimerFires_cancelled. }
  unfold undoTimerFires. cbv [bind gets]. rewrite decide_True by exact Hin.
  cbv [clearTimeout modify set_app set_lastDeleted set_undoTimer].
  cbn [snd db app toastAction timers nextTimer tick outfits filtered search
    sort filter selectedId selectMode selectedSet lastDeleted undoTimer].
  constructor; cbn [db app toastAction timers nextTimer outfits filtered
                      selectMode selectedSet lastDeleted undoTimer].
  - apply (store_keyed _ Hc).
  - apply (store_checked _ Hc).
  - intros r. unfold heldRecords.
    cbn [app toastAction outfits lastDeleted]. rewrite !elem_of_app.
    intros [Hr | [Hr | Hr]].
    + now apply (consistent_snapshot w).
    + now apply elem_of_nil in Hr.
    + destruct (toastAction w) as [[| l] |] eqn:Ht;
        try (now apply elem_of_nil in Hr).
      now apply (consistent_bulk w l).
  - apply (snapshot_ids _ Hc).
  - destruct (view_current _ Hc) as (now & Hnow). exists now.
    rewrite Hnow. now apply visibleOutfits_ext.
  - apply (selection_mode _ Hc).
  - intros t' Ht'. apply elem_of_difference in Ht' as [Ht' Hne].
    pose proof (timer_recorded _ Hc t' Ht') as H1.
    pose proof (timer_recorded _ Hc t Hin) as H2.
    rewrite elem_of_singleton in Hne. congruence.
  - discriminate.
  - intros [x Hx]. discriminate.
Qed.

End FrameHandlerFacts.

Section StoreHandlerFacts.
Context `{Host}.

(** A world whose snapshot has just been reloaded from a store of
    checked records. *)
Lemma consistent_reloaded (m : gmap string Outfit.t) (s : State) (now : Z)
    (ta : option ToastAction) (tm : gset nat) (nt tk rq : nat) :
  keyed m ->
  (forall k r, m !! k = Some r -> checkedRecord r) ->
  (forall r, lastDeleted s = Some r -> checkedRecord r) ->
  (forall l r, ta = Some (UndoBulk l) -> r ∈ l -> checkedRecord r) ->
  (selectMode s = false -> selectedSet s = ∅) ->
  (forall t, t ∈ tm -> undoTimer s = Some t) ->
  (forall t, undoTimer s = Some t -> (t < nt)%nat) ->
  (is_Some (lastDeleted s) -> exists t, undoTimer s = Some t /\ t ∈ tm) ->
  consistent
    (mkWorld m
       (set_filtered (visibleOutfits now (set_outfits (getAll m) s))
          (set_outfits (getAll m) s)) ta tm nt tk rq).
Proof.
  intros Hk Hchecked Hlast Hbulk Hsel Htm Hfresh Hexp.
  apply consistent_rendered; cbn [set_outfits outfits lastDeleted undoTimer
    selectMode selectedSet]; try assumption.
  - intros r. now apply getAll_checked.
  - now apply NoDup_ids_getAll.
Qed.

(** The same, when the timers are those of a consistent world [w] and
    the remembered deletion is that of [w] or none. *)
Lemma consistent_stored (w : World) (m : gmap string Outfit.t) (s : State)
    (now : Z) (ta : option ToastAction) (tk rq : nat) :
  consistent w ->
  keyed m ->
  (forall k r, m !! k = Some r -> checkedRecord r) ->
  lastDeleted s = lastDeleted (app w) \/ lastDeleted s = None ->
  undoTimer s = undoTimer (app w) ->
  (selectMode s = false -> selectedSet s = ∅) ->
  (forall l r, ta = Some (UndoBulk l) -> r ∈ l -> checkedRecord r) ->
  consistent
    (mkWorld m
       (set_filtered (visibleOutfits now (set_outfits (getAll m) s))
          (set_outfits (getAll m) s)) ta (timers w) (nextTimer w) tk rq).
Proof.
  intros Hc Hk Hchecked Hl Hu Hsel Hbulk.
  apply consistent_reloaded; try assumption.
  - intros r Hr. destruct Hl as [Hl | Hl]; rewrite Hl in Hr;
      [| discriminate]. now apply (consistent_lastDeleted w).
  - rewrite Hu. apply (timer_recorded _ Hc).
  - rewrite Hu. apply (timer_fresh _ Hc).
  - rewrite Hu. intros Hsome. apply (undo_expires _ Hc).
    destruct Hl as [Hl | Hl]; rewrite Hl in Hsome; [exact Hsome |].
    now destruct Hsome.
Qed.

Lemma checked_insert (m : gmap string Outfit.t) (o : Outfit.t) :
  (forall k r, m !! k = Some r -> checkedRecord r) ->
  checkedRecord o ->
  forall k r, <[Outfit.id o := o]> m !! k = Some r -> checkedRecord r.
Proof.
  intros Hm Ho k r. rewrite lookup_insert.
  case_decide; [now intros [= <-] | apply Hm].
Qed.

Lemma checked_delete (m : gmap string Outfit.t) (id : string) :
  (forall k r, m !! k = Some r -> checkedRecord r) ->
  forall k r, delete id m !! k = Some r -> checkedRecord r.
Proof.
  intros Hm k r. rewrite lookup_delete.
  case_decide; [discriminate | apply Hm].
Qed.

Lemma putAll_keyed (f : Outfit.t -> Outfit.t) (l : list Outfit.t)
    (m : gmap string Outfit.t) :
  keyed m -> keyed (putAll f l m).
Proof.
  revert m. induction l as [| a r IH]; intros m Hm; [exact Hm |].
  cbn [putAll foldl]. fold (putAll f r (<[Outfit.id (f a) := f a]> m)).
  now apply IH, keyed_insert.
Qed.

Lemma putAll_checked (f : Outfit.t -> Outfit.t) (l : list Outfit.t)
    (m : gmap string Outfit.t) :
  (forall k r, m !! k = Some r -> checkedRecord r) ->
  (forall o, o ∈ l -> checkedRecord (f o)) ->
  forall k r, putAll f l m !! k = Some r -> checkedRecord r.
Proof.
  revert m. induction l as [| a rest IH]; intros m Hm Hl; [exact Hm |].
  cbn [putAll foldl]. fold (putAll f rest (<[Outfit.id (f a) := f a]> m)).
  apply IH.
  - apply checked_insert; [exact Hm | apply Hl; left].
  - intros o Ho. apply Hl. now right.
Qed.

Lemma deleteAll_keyed (l : list Outfit.t) (m : gmap string Outfit.t) :
  keyed m -> keyed (deleteAll l m).
Proof.
  revert m. induction l as [| a r IH]; intros m Hm; [exact Hm |].
  cbn [deleteAll foldl]. fold (deleteAll r (delete (Outfit.id a) m)).
  now apply IH, keyed_delete.
Qed.

Lemma deleteAll_checked (l : list Outfit.t) (m : gmap string Outfit.t) :
  (forall k r, m !! k = Some r -> checkedRecord r) ->
  forall k r, deleteAll l m !! k = Some r -> checkedRecord r.
Proof.
  revert m. induction l as [| a rest IH]; intros m Hm; [exact Hm |].
  cbn [deleteAll foldl]. fold (deleteAll rest (delete (Outfit.id a) m)).
  now apply IH, checked_delete.
Qed.

Hypothesis Hstore : reliableStore.

Lemma refresh_consistent (w : World) :
  consistent w -> consistent (snd (refresh w)).
Proof.
  intros Hc. rewrite (refresh_run Hstore). cbn [snd].
  apply (consistent_stored w); try reflexivity.
  - exact Hc.
  - apply (store_keyed _ Hc).
  - apply (store_checked _ Hc).
  - now left.
  - apply (selection_mode _ Hc).
  - intros l r. now apply consistent_bulk.
Qed.

Lemma savedOutfit_checked (o : Outfit.t) (form : DetailForm) :
  checkedRecord o -> checkedRecord (savedOutfit o form).
Proof.
  intros Ho. destruct (savedOutfit_fields o form) as (Hn & Hr & Ht & Hnotes).
  constructor; try assumption. apply (checked_id _ Ho).
Qed.

Lemma saveDetail_consistent (form : DetailForm) (w : World) :
  consistent w -> consistent (snd (saveDetail form w)).
Proof.
  intros Hc.
  destruct (selectedId (app w)) as [sid |] eqn:Hsel.
  2: { rewrite saveDetail_none; [exact Hc | now rewrite Hsel]. }
  destruct (String.eqb_spec sid "") as [He | Hne].
  { rewrite saveDetail_none; [exact Hc | now rewrite Hsel]. }
  destruct (db w !! sid) as [o |] eqn:Ho.
  2: { rewrite (saveDetail_missing Hstore form w sid Hsel Hne Ho).
       now apply counted_consistent. }
  rewrite (saveDetail_run Hstore form w sid o Hsel Hne Ho),
    (refresh_run Hstore).
  cbn [snd set_toastAction set_db countedBy db app toastAction timers
         nextTimer tick requests].
  apply (consistent_stored w); try reflexivity; try discriminate.
  - exact Hc.
  - apply (keyed_insert (db w) (savedOutfit o form)), (store_keyed _ Hc).
  - apply (checked_insert (db w) (savedOutfit o form)).
    + apply (store_checked _ Hc).
    + apply savedOutfit_checked, (store_checked _ Hc sid o Ho).
  - now left.
  - apply (selection_mode _ Hc).
Qed.

Lemma wornOutfit_checked (o : Outfit.t) (now : Z) :
  checkedRecord o -> checkedRecord (wornOutfit o now).
Proof. intros [Hid Hn Hr Ht Hnotes]. now constructor. Qed.

Lemma wearToday_consistent (w : World) :
  consistent w -> consistent (snd (wearToday w)).
Proof.
  intros Hc.
  destruct (selectedId (app w)) as [sid |] eqn:Hsel.
  2: { rewrite wearToday_none; [exact Hc | now rewrite Hsel]. }
  destruct (String.eqb_spec sid "") as [He | Hne].
  { rewrite wearToday_none; [exact Hc | now rewrite Hsel]. }
  destruct (db w !! sid) as [o |] eqn:Ho.
  2: { rewrite (wearToday_missing Hstore w sid Hsel Hne Ho).
       now apply counted_consistent. }
  unfold wearToday. cbv [bind gets]. rewrite Hsel.
  destruct (String.eqb_spec sid ""); [contradiction |].
  rewrite (dbGetOutfit_run Hstore), Ho.
  cbv [Date_now]. rewrite (dbPutOutfit_run Hstore), (refresh_run Hstore).
  cbv [showToast modify].
  cbn [snd set_toastAction set_db counted db app toastAction timers
         nextTimer tick requests].
  apply (consistent_stored w); try reflexivity; try discriminate.
  - exact Hc.
  - apply (keyed_insert (db w) (wornOutfit o (dateNow (tick w)))),
      (store_keyed _ Hc).
  - apply (checked_insert (db w) (wornOutfit o (dateNow (tick w)))).
    + apply (store_checked _ Hc).
    + apply wornOutfit_checked, (store_checked _ Hc sid o Ho).
  - now left.
  - apply (selection_mode _ Hc).
Qed.

End StoreHandlerFacts.

Section UndoHandlerFacts.
Context `{Host}.

Lemma deleteDetailWithUndo_none (w : World) :
  match selectedId (app w) with
  | Some sid => sid = ""
  | None => True
  end ->
  deleteDetailWithUndo w = (Ok tt, w).
Proof.
  unfold deleteDetailWithUndo. cbv [bind gets ret].
  destruct (selectedId (app w)) as [sid |]; [| reflexivity].
  now intros ->.
Qed.

Hypothesis Hstore : reliableStore.

Lemma deleteDetailWithUndo_missing (w : World) (sid : string) :
  selectedId (app w) = Some sid -> sid <> "" -> db w !! sid = None ->
  deleteDetailWithUndo w = (Ok tt, counted w).
Proof.
  intros Hsel Hsid Ho. unfold deleteDetailWithUndo. cbv [bind gets ret].
  rewrite Hsel.
  destruct (String.eqb_spec sid ""); [contradiction |].
  now rewrite (dbGetOutfit_run Hstore), Ho.
Qed.

(** The world [deleteDetailWithUndo] leaves when it deletes the stored
    record [o]. *)
Lemma deleteDetailWithUndo_world (w : World) (sid : string) (o : Outfit.t) :
  selectedId (app w) = Some sid -> sid <> "" -> db w !! sid = Some o ->
  let stale := Num.gtb (staleDays (filter (app w))) (Fin 0) in
  let m := delete (Outfit.id o) (db w) in
  let s := mkState (getAll m) [] (search (app w)) (sort (app w))
             (filter (app w)) None (selectMode (app w))
             (selectedSet (app w)) (Some o) (Some (nextTimer w)) in
  deleteDetailWithUndo w
  = (Ok tt,
     mkWorld m
       (set_filtered
          (visibleOutfits (if stale then dateNow (tick w) else 0) s) s)
       (Some UndoDetail)
       ({[nextTimer w]}
        ∪ match undoTimer (app w) with
          | Some t => timers w ∖ {[t]}
          | None => timers w
          end)
       (S (nextTimer w))
       (if stale then S (tick w) else tick w)
       (3 + requests w)).
Proof.
  intros Hsel Hne Ho. unfold deleteDetailWithUndo.
  cbv [bind gets]. rewrite Hsel.
  destruct (String.eqb_spec sid ""); [contradiction |].
  rewrite (dbGetOutfit_run Hstore). cbn [db counted]. rewrite Ho.
  destruct (undoTimer (app w)) as [t |];
    cbv [clearTimeout modify ret closeDetailModal showToast setUndoTimeout];
    rewrite (dbDeleteOutfit_run Hstore), (refresh_run Hstore); reflexivity.
Qed.

Lemma deleteDetailWithUndo_consistent (w : World) :
  consistent w -> consistent (snd (deleteDetailWithUndo w)).
Proof.
  intros Hc.
  destruct (selectedId (app w)) as [sid |] eqn:Hsel.
  2: { rewrite deleteDetailWithUndo_none; [exact Hc | now rewrite Hsel]. }
  destruct (String.eqb_spec sid "") as [He | Hne].
  { rewrite deleteDetailWithUndo_none; [exact Hc | now rewrite Hsel]. }
  destruct (db w !! sid) as [o |] eqn:Ho.
  2: { rewrite (deleteDetailWithUndo_missing w sid Hsel Hne Ho).
       now apply counted_consistent. }
  rewrite (deleteDetailWithUndo_world w sid o Hsel Hne Ho). cbn [snd].
  apply consistent_rendered;
    cbn [outfits lastDeleted undoTimer selectMode selectedSet];
    try discriminate.
  - apply keyed_delete, (store_keyed _ Hc).
  - apply checked_delete, (store_checked _ Hc).
  - intros r. apply getAll_checked, checked_delete, (store_checked _ Hc).
  - apply NoDup_ids_getAll, keyed_delete, (store_keyed _ Hc).
  - intros r [= <-]. apply (store_checked _ Hc sid o Ho).
  - apply (selection_mode _ Hc).
  - intros t Ht. apply elem_of_union in Ht as [Ht | Ht].
    + apply elem_of_singleton in Ht. now subst t.
    + pose proof (timer_recorded _ Hc t) as Hrec.
      destruct (undoTimer (app w)) as [t0 |].
      * apply elem_of_difference in Ht as [Ht Hne'].
        rewrite elem_of_singleton in Hne'.
        specialize (Hrec Ht). congruence.
      * specialize (Hrec Ht). discriminate.
  - intros t [= <-]. lia.
  - intros _. exists (nextTimer w). split; [reflexivity |].
    apply elem_of_union_l. now apply elem_of_singleton.
Qed.

End UndoHandlerFacts.

Section BulkHandlerFacts.
Context `{Host}.
Hypothesis Hstore : reliableStore.

Lemma undoDetail_consistent (w : World) :
  consistent w -> consistent (snd (undoDetail w)).
Proof.
  intros Hc. destruct (lastDeleted (app w)) as [x |] eqn:Hl.
  2: { now rewrite undoDetail_nothing. }
  unfold undoDetail. cbv [bind gets]. rewrite Hl.
  rewrite (dbPutOutfit_run Hstore). cbv [modify showToast].
  rewrite (refresh_run Hstore).
  cbn [snd set_toastAction set_db set_app counted db app toastAction timers
         nextTimer tick requests].
  apply (consistent_stored w); try reflexivity; try discriminate.
  - exact Hc.
  - apply keyed_insert, (store_keyed _ Hc).
  - apply checked_insert; [apply (store_checked _ Hc) |].
    now apply (consistent_lastDeleted w).
  - now right.
  - apply (selection_mode _ Hc).
Qed.

Lemma undoBulk_consistent (deleted : list Outfit.t) (w : World) :
  consistent w -> toastAction w = Some (UndoBulk deleted) ->
  consistent (snd (undoBulk deleted w)).
Proof.
  intros Hc Hta. unfold undoBulk. cbv [bind].
  change (for_of deleted dbPutOutfit)
    with (for_of deleted (fun o => dbPutOutfit ((fun a => a) o))).
  rewrite (for_of_put_run _ _ _ Hstore), (refresh_run Hstore).
  cbv [showToast modify].
  cbn [snd set_toastAction set_db countedBy db app toastAction timers
         nextTimer tick requests].
  apply (consistent_stored w); try reflexivity; try discriminate.
  - exact Hc.
  - apply putAll_keyed, (store_keyed _ Hc).
  - apply putAll_checked; [apply (store_checked _ Hc) |].
    intros o Ho. now apply (consistent_bulk w deleted).
  - now left.
  - apply (selection_mode _ Hc).
Qed.

Lemma clickToastAction_consistent (w : World) :
  consistent w -> consistent (snd (clickToastAction w)).
Proof.
  intros Hc. unfold clickToastAction. cbv [bind gets].
  destruct (toastAction w) as [[| deleted] |] eqn:Hta.
  - now apply undoDetail_consistent.
  - now apply undoBulk_consistent.
  - exact Hc.
Qed.

Lemma with_favorite_checked (o : Outfit.t) (f : bool) :
  checkedRecord o -> checkedRecord (Outfit.with_favorite o f).
Proof. intros [Hid Hn Hr Ht Hnotes]. now constructor. Qed.

Lemma bulkToggleFavorite_consistent (w : World) :
  consistent w -> consistent (snd (bulkToggleFavorite w)).
Proof.
  intros Hc. unfold bulkToggleFavorite. cbv [bind gets].
  destruct (decide (size (selectedSet (app w)) = 0%nat)); [exact Hc |].
  rewrite (for_of_put_run _ _ _ Hstore), (refresh_run Hstore).
  cbv [showToast modify].
  cbn [snd set_toastAction set_db countedBy db app toastAction timers
         nextTimer tick requests].
  apply (consistent_stored w); try reflexivity; try discriminate.
  - exact Hc.
  - apply putAll_keyed, (store_keyed _ Hc).
  - apply putAll_checked; [apply (store_checked _ Hc) |].
    intros o Ho. apply with_favorite_checked.
    apply selectedOutfits_elem in Ho as [Ho _].
    now apply (consistent_snapshot w).
  - now left.
  - apply (selection_mode _ Hc).
Qed.

(** The world [bulkDeleteWithUndo] leaves when something is selected. *)
Lemma bulkDeleteWithUndo_world (w : World) (o : Outfit.t)
    (l : list Outfit.t) :
  size (selectedSet (app w)) <> 0%nat ->
  selectedOutfits (app w) = o :: l ->
  let m := deleteAll (o :: l) (db w) in
  let s := mkState (getAll m) [] (search (app w)) (sort (app w))
             (filter (app w)) (selectedId (app w)) false ∅
             (lastDeleted (app w)) (undoTimer (app w)) in
  exists now tk rq,
    bulkDeleteWithUndo w
    = (Ok tt,
       mkWorld m (set_filtered (visibleOutfits now s) s)
         (Some (UndoBulk (o :: l))) (timers w) (nextTimer w) tk rq).
Proof.
  intros Hnz Hsel. unfold bulkDeleteWithUndo. cbv [bind gets].
  destruct (decide (size (selectedSet (app w)) = 0%nat)); [contradiction |].
  rewrite Hsel, (for_of_delete_run Hstore).
  unfold enableSelectMode. cbv [bind modify renderGrid].
  rewrite applyFiltersAndSort_run, (refresh_run Hstore).
  cbv [showToast modify].
  eexists _, _, _. reflexivity.
Qed.

Lemma bulkDeleteWithUndo_consistent (w : World) :
  consistent w -> consistent (snd (bulkDeleteWithUndo w)).
Proof.
  intros Hc.
  destruct (decide (size (selectedSet (app w)) = 0%nat)) as [Hz | Hnz].
  { unfold bulkDeleteWithUndo. cbv [bind gets].
    rewrite decide_True by exact Hz. exact Hc. }
  destruct (selectedOutfits (app w)) as [| o l] eqn:Hsel.
  { unfold bulkDeleteWithUndo. cbv [bind gets].
    rewrite decide_False by exact Hnz. rewrite Hsel. exact Hc. }
  destruct (bulkDeleteWithUndo_world w o l Hnz Hsel) as (now & tk & rq & ->).
  cbn [snd].
  apply consistent_rendered;
    cbn [outfits lastDeleted undoTimer selectMode selectedSet].
  - apply deleteAll_keyed, (store_keyed _ Hc).
  - apply deleteAll_checked, (store_checked _ Hc).
  - intros r. apply getAll_checked, deleteAll_checked, (store_checked _ Hc).
  - apply NoDup_ids_getAll, deleteAll_keyed, (store_keyed _ Hc).
  - intros r. apply (consistent_lastDeleted w _ Hc).
  - intros l' r [= <-] Hr. rewrite <- Hsel in Hr.
    apply selectedOutfits_elem in Hr as [Hr _].
    now apply (consistent_snapshot w).
  - reflexivity.
  - apply (timer_recorded _ Hc).
  - apply (timer_fresh _ Hc).
  - apply (undo_expires _ Hc).
Qed.

End BulkHandlerFacts.

Section CreateHandlerFacts.
Context `{Host}.
Hypothesis Hstore : reliableStore.

Lemma savedOutfit_checked_id (o : Outfit.t) (form : DetailForm) :
  Outfit.id o <> "" -> checkedRecord (savedOutfit o form).
Proof.
  intros Hid. destruct (savedOutfit_fields o form) as (Hn & Hr & Ht & Hnotes).
  now constructor.
Qed.

Lemma catch_lift {A B : Type} (r : Res A) (k : A -> M B) (h : Exn -> M B)
    (w : World) :
  catch (bind (lift r) k) h w
  = match r with
    | Ok a => catch (k a) h w
    | Throw e => h e w
    end.
Proof. destruct r; reflexivity. Qed.

(** The last steps of [confirmCreateSave] inside its [try]. *)
Lemma create_tail_consistent (mk : string -> Z -> Outfit.t) (w : World) :
  (forall u now, Outfit.id (mk u now) = u) ->
  (forall u now, u <> "" -> checkedRecord (mk u now)) ->
  consistent w ->
  consistent
    (snd (catch (bind new_uid (fun u =>
                 bind Date_now (fun now =>
                 bind (dbAddOutfit (mk u now)) (fun _ =>
                 bind refresh (fun _ => showToast None)))))
            (fun _ => showToast None) w)).
Proof.
  intros Hid Hmk Hc.
  cbv [catch new_uid bind Date_now Math_random_hex ret dbAddOutfit
         storeRequest].
  cbn [db app tick toastAction timers nextTimer requests counted].
  rewrite (Hstore (requests w)), Hid.
  destruct (db w !! uid (dateNow (tick w)) (randomHex (S (tick w))))
    as [old |] eqn:Hold.
  - cbv [showToast modify]. cbn [snd].
    apply (consistent_frame w _ (selectedId (app w))); try reflexivity;
      [exact Hc | apply set_selectedId_same | now right].
  - rewrite (refresh_run Hstore). cbv [showToast modify].
    cbn [snd set_toastAction set_db db app toastAction timers nextTimer
           tick requests].
    apply (consistent_stored w); try reflexivity; try discriminate.
    + exact Hc.
    + rewrite <- (Hid (uid (dateNow (tick w)) (randomHex (S (tick w))))
                     (dateNow (S (S (tick w))))) at 1.
      apply keyed_insert, (store_keyed _ Hc).
    + intros k r.
      rewrite <- (Hid (uid (dateNow (tick w)) (randomHex (S (tick w))))
                     (dateNow (S (S (tick w))))) at 1.
      apply checked_insert; [apply (store_checked _ Hc) |].
      apply Hmk, uid_nonempty.
    + now left.
    + apply (selection_mode _ Hc).
Qed.

Lemma confirmCreateSave_consistent (file : option Blob) (form : CreateForm)
    (w : World) :
  consistent w -> consistent (snd (confirmCreateSave file form w)).
Proof.
  intros Hc. unfold confirmCreateSave.
  destruct file as [file |]; [| exact Hc].
  rewrite catch_lift, safeName_str, catch_lift, parseTags_str, catch_lift,
    trimmedText_str, catch_lift.
  destruct (fileToSafeJpegBlob file 1600 (9 # 10)) as [safeBlob | e].
  2: { now apply showToast_none_consistent. }
  assert (Htail : forall finalBlob,
    consistent
      (snd (catch (bind new_uid (fun u =>
                   bind Date_now (fun now =>
                   bind (dbAddOutfit
                           (savedOutfit
                              (Outfit.mk u "" (Fin 0) false (num_of_Z now)
                                 finalBlob [] "" (Fin 0) (Fin 0))
                              (mkDetailForm (createName form)
                                 (createStarsValue form) (createFav form)
                                 (createTags form) (createNotes form))))
                        (fun _ => bind refresh (fun _ => showToast None)))))
              (fun _ => showToast None) w))).
  { intros finalBlob.
    apply (create_tail_consistent
             (fun u now =>
                savedOutfit
                  (Outfit.mk u "" (Fin 0) false (num_of_Z now) finalBlob []
                     "" (Fin 0) (Fin 0))
                  (mkDetailForm (createName form) (createStarsValue form)
                     (createFav form) (createTags form)
                     (createNotes form)))); [reflexivity | | exact Hc].
    intros u now Hu. now apply savedOutfit_checked_id. }
  destruct (createCropSquare form).
  - rewrite catch_lift.
    destruct (cropCenterSquareToJpeg safeBlob 1200 (9 # 10))
      as [finalBlob | e]; [apply Htail |].
    now apply showToast_none_consistent.
  - apply Htail.
Qed.

End CreateHandlerFacts.

(** ** What holds between any two events *)

Section ReachableFacts.
Context `{Host}.

Lemma bind_ret_world {A : Type} (c : M A) (w : World) :
  snd (bind c (fun _ => ret tt) w) = snd (c w).
Proof. cbv [bind ret]. now destruct (c w) as [[a | e] w']. Qed.

(** The script starts in a consistent world when the store it finds
    holds checked records under their ids. *)
Lemma startWorld_consistent (m : gmap string Outfit.t) (n : nat) :
  keyed m ->
  (forall k r, m !! k = Some r -> checkedRecord r) ->
  consistent (startWorld m n).
Proof.
  intros Hk Hm. unfold startWorld.
  change (mkState [] [] "" "date_desc" (mkFilter false (Fin 0) (Fin 0) "")
            None false ∅ None None)
    with (set_filtered
            (visibleOutfits 0
               (mkState [] [] "" "date_desc"
                  (mkFilter false (Fin 0) (Fin 0) "") None false ∅ None None))
            (mkState [] [] "" "date_desc"
               (mkFilter false (Fin 0) (Fin 0) "") None false ∅ None None)).
  apply consistent_rendered;
    cbn [outfits lastDeleted undoTimer selectMode selectedSet];
    try assumption; try discriminate.
  - intros r Hr. now apply elem_of_nil in Hr.
  - constructor.
  - reflexivity.
  - intros [x Hx]. discriminate.
Qed.

Hypothesis Hstore : reliableStore.

(** Every listener but the import keeps the world consistent. *)
Lemma handle_consistent (e : Event) (w : World) :
  isImport e = false -> consistent w -> consistent (snd (handle e w)).
Proof.
  intros He Hc. destruct e; cbn [handle]; try discriminate He.
  - now apply refresh_consistent.
  - now apply confirmCreateSave_consistent.
  - now apply onSearch_consistent.
  - now apply onSortChange_consistent.
  - now apply clickFilterAll_consistent.
  - now apply clickFilterFav_consistent.
  - now apply clickFilter4plus_consistent.
  - now apply clickFilterStale_consistent.
  - now apply setTagFilter_consistent.
  - now apply setTagFilter_consistent.
  - now apply toggleSelectMode_consistent.
  - now apply enableSelectMode_consistent.
  - now apply bulkToggleFavorite_consistent.
  - now apply bulkDeleteWithUndo_consistent.
  - rewrite bind_ret_world. now apply bulkExportSelected_consistent.
  - now apply cardClick_consistent.
  - now apply cardLongPress_consistent.
  - now apply closeDetailModal_consistent.
  - now apply saveDetail_consistent.
  - now apply wearToday_consistent.
  - now apply deleteDetailWithUndo_consistent.
  - now apply clickToastAction_consistent.
  - now apply undoTimerFires_consistent.
  - rewrite bind_ret_world. now apply exportAll_consistent.
  - now apply showToast_none_consistent.
Qed.

Lemma run_consistent (events : list Event) (w : World) :
  forallb (fun e => negb (isImport e)) events = true ->
  consistent w -> consistent (run events w).
Proof.
  revert w. induction events as [| e rest IH]; intros w Hev Hc; [exact Hc |].
  cbn [forallb] in Hev. apply andb_true_iff in Hev as [He Hrest].
  unfold run. cbn [foldl]. apply IH; [exact Hrest |].
  apply handle_consistent; [| exact Hc]. now destruct (isImport e).
Qed.

Lemma reachable_consistent (m : gmap string Outfit.t) (n : nat)
    (events : list Event) :
  forallb (fun e => negb (isImport e)) events = true ->
  keyed m ->
  (forall k r, m !! k = Some r -> checkedRecord r) ->
  consistent (run events (startWorld m n)).
Proof.
  intros Hev Hk Hm. now apply run_consistent, startWorld_consistent.
Qed.

End ReachableFacts.

(** A store a previous session may have left: one checked record under
    its id. *)
Lemma sample_store_keyed :
  keyed ({[Outfit.id Sample.worn := Sample.worn]} : gmap string Outfit.t).
Proof. intros k o [<- <-]%lookup_singleton_Some. reflexivity. Qed.

Lemma sample_store_checked (k : string) (r : Outfit.t) :
  ({[Outfit.id Sample.worn := Sample.worn]} : gmap string Outfit.t) !! k
  = Some r ->
  checkedRecord r.
Proof.
  intros [_ <-]%lookup_singleton_Some. constructor.
  - discriminate.
  - split; [discriminate | reflexivity].
  - exists 4. split; [lia | reflexivity].
  - split; [| split].
    + repeat constructor; discriminate.
    + apply (bool_decide_unpack _). reflexivity.
    + cbn. lia.
  - reflexivity.
Qed.

(** X15.  On a host whose object store fails no request, and as long as
    no backup is imported, the store keeps every record under the
    record's own id, and every record - in the store, in the snapshot the
    grid is drawn from, or remembered for an undo - has the fields all
    writers validate: a non-empty id, a non-empty trimmed name, an
    integral rating from 0 to 5, at most 20 distinct clean tags and
    trimmed notes.  This holds after any sequence of runs of the other
    listeners, provided the store found at start-up was like that. *)
Theorem records_stay_checked `{Host} (m : gmap string Outfit.t) (n : nat)
    (events : list Event) :
  reliableStore ->
  forallb (fun e => negb (isImport e)) events = true ->
  keyed m ->
  (forall k r, m !! k = Some r -> checkedRecord r) ->
  keyed (db (run events (startWorld m n)))
  /\ (forall k r,
        db (run events (startWorld m n)) !! k = Some r -> checkedRecord r)
  /\ (forall r,
        r ∈ heldRecords (run events (startWorld m n)) -> checkedRecord r).
Proof.
  intros Hstore Hev Hk Hm.
  pose proof (reachable_consistent Hstore m n events Hev Hk Hm) as Hc.
  split; [apply (store_keyed _ Hc) |].
  split; [apply (store_checked _ Hc) | apply (held_checked _ Hc)].
Qed.

Lemma records_stay_checked_witness :
  let m : gmap string Outfit.t :=
    {[Outfit.id Sample.worn := Sample.worn]} in
  let w := @run demoHost
             [EvLoad; EvCardClick (Outfit.id Sample.worn); EvWearToday;
              EvDeleteDetail; EvToastAction]
             (startWorld m 0) in
  keyed (db w)
  /\ (forall k r, db w !! k = Some r -> checkedRecord r)
  /\ (forall r, r ∈ heldRecords w -> checkedRecord r).
Proof.
  cbv zeta.
  apply (@records_stay_checked demoHost);
    [intros n; reflexivity | reflexivity
     | exact sample_store_keyed | exact sample_store_checked].
Defined.

(** X16.  On a host whose object store fails no request, and as long as
    no backup is imported, after any sequence of runs of the other
    listeners the list the grid shows is the view of the current
    snapshot under the current search text, sort mode and filters (for
    some reading of the clock), and the snapshot holds no two records
    with the same id: no listener changes the snapshot or a criterion
    without drawing the grid again.  The store found at start-up is
    assumed to file checked records under their ids. *)
Theorem grid_shows_current_view `{Host} (m : gmap string Outfit.t) (n : nat)
    (events : list Event) :
  reliableStore ->
  forallb (fun e => negb (isImport e)) events = true ->
  keyed m ->
  (forall k r, m !! k = Some r -> checkedRecord r) ->
  NoDup (Outfit.id <$> outfits (app (run events (startWorld m n))))
  /\ exists now,
       filtered (app (run events (startWorld m n)))
       = visibleOutfits now (app (run events (startWorld m n))).
Proof.
  intros Hstore Hev Hk Hm.
  pose proof (reachable_consistent Hstore m n events Hev Hk Hm) as Hc.
  split; [apply (snapshot_ids _ Hc) | apply (view_current _ Hc)].
Qed.

Lemma grid_shows_current_view_witness :
  let m : gmap string Outfit.t :=
    {[Outfit.id Sample.worn := Sample.worn]} in
  let w := @run demoHost
             [EvLoad; EvSearch "linen"; EvSort "rating_desc"; EvFilterFav;
              EvTag "work"]
             (startWorld m 0) in
  NoDup (Outfit.id <$> outfits (app w))
  /\ exists now, filtered (app w) = @visibleOutfits demoHost now (app w).
Proof.
  cbv zeta.
  apply (@grid_shows_current_view demoHost);
    [intros n; reflexivity | reflexivity
     | exact sample_store_keyed | exact sample_store_checked].
Defined.

(** ** The selection, whatever the store does *)

Section SelectionReach.
Context `{Host}.

Lemma enableSelectMode_selection (on : bool) :
  preserves selectionInMode (enableSelectMode on).
Proof.
  unfold enableSelectMode. frame; try assumption.
  unfold selectionInMode in *. cbn. now destruct on.
Qed.

Lemma refresh_selection : preserves selectionInMode refresh.
Proof. frame; assumption. Qed.

Lemma selected_mode_kept {A : Type} (c : M A) (w : World) :
  preserves (fun w' => selectMode (app w') = true) c ->
  selectMode (app w) = true -> selectionInMode (snd (c w)).
Proof. intros Hc Hw Hoff. rewrite (Hc w Hw) in Hoff. discriminate. Qed.

(** Every listener leaves the selection empty outside select mode,
    also when the store fails it. *)
Lemma handle_selection (e : Event) : preserves selectionInMode (handle e).
Proof.
  destruct e; cbn [handle].
  - apply refresh_selection.
  - unfold confirmCreateSave. frame; assumption.
  - unfold onSearch. frame; assumption.
  - unfold onSortChange. frame; assumption.
  - unfold clickFilterAll. frame; assumption.
  - unfold clickFilterFav, setQuickFilter. frame; assumption.
  - unfold clickFilter4plus, setQuickFilter. frame; assumption.
  - unfold clickFilterStale, setQuickFilter. frame; assumption.
  - unfold setTagFilter. frame; assumption.
  - unfold clearTagFilter, setTagFilter. frame; assumption.
  - unfold toggleSelectMode.
    apply preserves_bind; [frame |]. intros state.
    apply preserves_bind; [apply enableSelectMode_selection |].
    intros _. frame; assumption.
  - apply enableSelectMode_selection.
  - unfold bulkToggleFavorite. frame; assumption.
  - unfold bulkDeleteWithUndo.
    apply preserves_bind; [frame |]. intros state.
    destruct (decide (size (selectedSet state) = 0%nat)); [frame |].
    destruct (selectedOutfits state); [frame |].
    apply preserves_bind; [frame; assumption |]. intros _.
    apply preserves_bind; [apply enableSelectMode_selection |].
    intros _. frame; assumption.
  - unfold bulkExportSelected, exportOutfits. frame; assumption.
  - intros w Hw. unfold cardClick. cbv [bind gets].
    destruct (selectMode (app w)) eqn:Hmode.
    + apply selected_mode_kept; [| exact Hmode].
      unfold toggleSelection. frame; assumption.
    + assert (Hopen : preserves selectionInMode
                        (bind (openDetail id) (fun _ => ret tt))).
      { unfold openDetail. frame; assumption. }
      now apply Hopen.
  - intros w Hw Hoff. exfalso. revert Hoff.
    unfold cardLongPress, enableSelectMode. cbv [bind modify renderGrid].
    rewrite !applyFiltersAndSort_run. cbv [showToast modify]. cbn.
    discriminate.
  - frame; assumption.
  - unfold saveDetail. frame; assumption.
  - unfold wearToday. frame; assumption.
  - unfold deleteDetailWithUndo. frame; assumption.
  - unfold clickToastAction, undoDetail, undoBulk. frame; assumption.
  - unfold undoTimerFires. frame; assumption.
  - unfold exportAll, exportOutfits. frame; assumption.
  - unfold onImportFile, importOutfitsFromFile. frame; try assumption.
    unfold importEntry, entryId, numberOrNow. frame; assumption.
  - frame; assumption.
Qed.

Lemma run_selection (events : list Event) (w : World) :
  selectionInMode w -> selectionInMode (run events w).
Proof.
  revert w. induction events as [| e rest IH]; intros w Hw; [exact Hw |].
  unfold run. cbn [foldl]. apply IH. now apply handle_selection.
Qed.

End SelectionReach.

(** X17.  After any sequence of listener runs, nothing is selected
    unless select mode is on: leaving select mode (the toggle, the Done
    button, a bulk delete) always empties the selection. *)
Theorem selection_only_in_select_mode `{Host} (m : gmap string Outfit.t)
    (n : nat) (events : list Event) :
  keyed m ->
  (forall k r, m !! k = Some r -> checkedRecord r) ->
  selectMode (app (run events (startWorld m n))) = false ->
  selectedSet (app (run events (startWorld m n))) = ∅.
Proof.
  intros _ _. apply (run_selection events (startWorld m n)).
  intros _. reflexivity.
Qed.

Lemma selection_only_in_select_mode_witness :
  let m : gmap string Outfit.t :=
    {[Outfit.id Sample.worn := Sample.worn]} in
  let w := @run demoHost
             [EvLoad; EvCardLongPress (Outfit.id Sample.worn);
              EvToggleSelectMode]
             (startWorld m 0) in
  selectMode (app w) = false /\ selectedSet (app w) = ∅.
Proof.
  cbv zeta.
  assert (Hoff :
    selectMode
      (app (@run demoHost
              [EvLoad; EvCardLongPress (Outfit.id Sample.worn);
               EvToggleSelectMode]
              (startWorld {[Outfit.id Sample.worn := Sample.worn]} 0)))
    = false) by (vm_compute; reflexivity).
  split; [exact Hoff |].
  apply (@selection_only_in_select_mode demoHost);
    [exact sample_store_keyed | exact sample_store_checked | exact Hoff].
Defined.

(** X18.  On a host whose object store fails no request, and as long as
    no backup is imported, after any sequence of runs of the other
    listeners at most one undo timer is pending, and it is the one whose
    handle the state records (a new deletion cancels the timer of the
    previous one, so an old timer never wipes a newer remembered
    deletion); that handle is never handed out again; and whenever a
    deleted record is remembered a timer is pending that will forget it.
    The store found at start-up is assumed to file checked records under
    their ids. *)
Theorem undo_timer_recorded `{Host} (m : gmap string Outfit.t) (n : nat)
    (events : list Event) :
  reliableStore ->
  forallb (fun e => negb (isImport e)) events = true ->
  keyed m ->
  (forall k r, m !! k = Some r -> checkedRecord r) ->
  (forall t, t ∈ timers (run events (startWorld m n)) ->
     undoTimer (app (run events (startWorld m n))) = Some t)
  /\ (forall t, undoTimer (app (run events (startWorld m n))) = Some t ->
        (t < nextTimer (run events (startWorld m n)))%nat)
  /\ (is_Some (lastDeleted (app (run events (startWorld m n)))) ->
      exists t, undoTimer (app (run events (startWorld m n))) = Some t
                /\ t ∈ timers (run events (startWorld m n))).
Proof.
  intros Hstore Hev Hk Hm.
  pose proof (reachable_consistent Hstore m n events Hev Hk Hm) as Hc.
  split; [apply (timer_recorded _ Hc) |].
  split; [apply (timer_fresh _ Hc) | apply (undo_expires _ Hc)].
Qed.

Lemma undo_timer_recorded_witness :
  let m : gmap string Outfit.t :=
    {[Outfit.id Sample.worn := Sample.worn]} in
  let w := @run demoHost
             [EvLoad; EvCardClick (Outfit.id Sample.worn); EvDeleteDetail]
             (startWorld m 0) in
  (forall t, t ∈ timers w -> undoTimer (app w) = Some t)
  /\ (forall t, undoTimer (app w) = Some t -> (t < nextTimer w)%nat)
  /\ (is_Some (lastDeleted (app w)) ->
      exists t, undoTimer (app w) = Some t /\ t ∈ timers w).
Proof.
  cbv zeta.
  apply (@undo_timer_recorded demoHost);
    [intros n; reflexivity | reflexivity
     | exact sample_store_keyed | exact sample_store_checked].
Defined.

(** ** Long press, export and the guards of the detail actions *)

Section SelectionFacts.
Context `{Host}.

Lemma cardLongPress_run (id : string) (w : World) :
  exists w',
    cardLongPress id w = (Ok tt, w')
    /\ db w' = db w
    /\ outfits (app w') = outfits (app w)
    /\ selectMode (app w') = true
    /\ selectedSet (app w') = {[id]} ∪ selectedSet (app w).
Proof.
  unfold cardLongPress, enableSelectMode. cbv [bind modify renderGrid].
  rewrite !applyFiltersAndSort_run. cbv [showToast modify].
  eexists. split; [reflexivity |]. cbn. repeat split; reflexivity.
Qed.

Lemma exportOutfits_frame (l : list Outfit.t) (w : World) :
  db (snd (exportOutfits l w)) = db w
  /\ app (snd (exportOutfits l w)) = app w
  /\ timers (snd (exportOutfits l w)) = timers w
  /\ nextTimer (snd (exportOutfits l w)) = nextTimer w.
Proof.
  unfold exportOutfits. cbv [bind Date_now].
  set (w0 := mkWorld (db w) (app w) (toastAction w) (timers w)
               (nextTimer w) (S (tick w)) (requests w)).
  pose proof (exportEntries_frame l w0) as Hframe.
  destruct (exportEntries l w0) as [[entries | e] w1];
    cbn [snd] in Hframe; subst w1; cbv [showToast modify ret];
    repeat split; reflexivity.
Qed.

End SelectionFacts.

(** X19.  In any state the listeners can reach in which select mode is
    off, the long-press timer of a card turns select mode on with exactly
    that card selected - no selection of an earlier round survives - and
    it leaves the store and the snapshot as they were. *)
Theorem long_press_selects_one `{Host} (m : gmap string Outfit.t) (n : nat)
    (events : list Event) (id : string) :
  keyed m ->
  (forall k r, m !! k = Some r -> checkedRecord r) ->
  selectMode (app (run events (startWorld m n))) = false ->
  exists w',
    cardLongPress id (run events (startWorld m n)) = (Ok tt, w')
    /\ selectMode (app w') = true
    /\ selectedSet (app w') = {[id]}
    /\ db w' = db (run events (startWorld m n))
    /\ outfits (app w') = outfits (app (run events (startWorld m n))).
Proof.
  intros Hk Hm Hoff.
  assert (Hsel : selectionInMode (run events (startWorld m n))).
  { apply run_selection. intros _. reflexivity. }
  destruct (cardLongPress_run id (run events (startWorld m n)))
    as (w' & Hrun & Hdb & Hsnap & Hmode & Hset).
  exists w'. split; [exact Hrun |]. split; [exact Hmode |].
  split; [| split; assumption].
  rewrite Hset, (Hsel Hoff). apply (right_id_L ∅ (∪)).
Qed.

Lemma long_press_selects_one_witness :
  let w := @run demoHost
             [EvLoad; EvToggleSelectMode;
              EvCardClick (Outfit.id Sample.worn); EvBulkDone]
             (startWorld {[Outfit.id Sample.worn := Sample.worn]} 0) in
  selectMode (app w) = false
  /\ exists w',
       @cardLongPress demoHost "o_1690000000001_b2" w = (Ok tt, w')
       /\ selectMode (app w') = true
       /\ selectedSet (app w') = {["o_1690000000001_b2"]}
       /\ db w' = db w
       /\ outfits (app w') = outfits (app w).
Proof.
  cbv zeta.
  assert (Hoff :
    selectMode
      (app (@run demoHost
              [EvLoad; EvToggleSelectMode;
               EvCardClick (Outfit.id Sample.worn); EvBulkDone]
              (startWorld {[Outfit.id Sample.worn := Sample.worn]} 0)))
    = false) by (vm_compute; reflexivity).
  split; [exact Hoff |].
  apply (@long_press_selects_one demoHost);
    [exact sample_store_keyed | exact sample_store_checked | exact Hoff].
Defined.

(** X20.  Exporting is read-only: whether it succeeds or throws, neither
    the export of everything nor the export of the selection changes the
    store, the application state (snapshot, criteria, selection,
    remembered deletion) or the pending timers. *)
Theorem export_read_only `{Host} (w : World) :
  (db (snd (exportAll w)) = db w
   /\ app (snd (exportAll w)) = app w
   /\ timers (snd (exportAll w)) = timers w
   /\ nextTimer (snd (exportAll w)) = nextTimer w)
  /\ (db (snd (bulkExportSelected w)) = db w
      /\ app (snd (bulkExportSelected w)) = app w
      /\ timers (snd (bulkExportSelected w)) = timers w
      /\ nextTimer (snd (bulkExportSelected w)) = nextTimer w).
Proof.
  split.
  - unfold exportAll. cbv [bind dbGetAllOutfits storeRequest gets].
    destruct (storeFails (requests w)); [repeat split; reflexivity |].
    exact (exportOutfits_frame (getAll (db w)) (counted w)).
  - unfold bulkExportSelected. cbv [bind gets ret].
    destruct (decide (size (selectedSet (app w)) = 0%nat));
      [repeat split; reflexivity |].
    pose proof (exportOutfits_frame (selectedOutfits (app w)) w) as Hfr.
    destruct (exportOutfits (selectedOutfits (app w)) w)
      as [[text | e] w1]; exact Hfr.
Qed.

(** X21.  The Save, "worn today" and Delete buttons of the detail view do
    nothing at all - no request to the store, no write, no toast, no
    timer, no exception - when no record is selected or when the
    selected id is empty.  When the selected record is no longer in the
    store, each of them looks it up and, if the store serves that
    request, does nothing else; if the store fails the request, each of
    them throws and has done nothing else. *)
Theorem detail_actions_need_record `{Host} (form : DetailForm) (w : World) :
  (match selectedId (app w) with
   | Some sid => sid = ""
   | None => True
   end ->
   saveDetail form w = (Ok tt, w)
   /\ wearToday w = (Ok tt, w)
   /\ deleteDetailWithUndo w = (Ok tt, w))
  /\ (forall sid,
        selectedId (app w) = Some sid -> sid <> "" -> db w !! sid = None ->
        let outcome := if storeFails (requests w) then Throw StoreError
                       else Ok tt in
        saveDetail form w = (outcome, counted w)
        /\ wearToday w = (outcome, counted w)
        /\ deleteDetailWithUndo w = (outcome, counted w)).
Proof.
  split.
  - intros Hnone.
    split; [now apply saveDetail_none |].
    split; [now apply wearToday_none | now apply deleteDetailWithUndo_none].
  - intros sid Hsel Hsid Hgone. cbv zeta.
    unfold saveDetail, wearToday, deleteDetailWithUndo.
    cbv [bind gets ret dbGetOutfit storeRequest]. rewrite Hsel.
    destruct (String.eqb_spec sid ""); [contradiction |].
    destruct (storeFails (requests w)); [repeat split; reflexivity |].
    cbn [db counted]. rewrite Hgone. repeat split; reflexivity.
Qed.

(** ** The quick-filter chips *)

Section FilterFrame.
Context `{Host}.

Lemma keepsFilter_ret {A : Type} (a : A) : keepsFilter (ret a).
Proof. now intros w. Qed.

Lemma keepsFilter_lift {A : Type} (r : Res A) : keepsFilter (lift r).
Proof. now intros w. Qed.

Lemma keepsFilter_throw {A : Type} (e : Exn) : keepsFilter (@throw A e).
Proof. now intros w. Qed.

Lemma keepsFilter_gets {A : Type} (f : World -> A) : keepsFilter (gets f).
Proof. now intros w. Qed.

Lemma keepsFilter_modify (f : World -> World) :
  (forall w, filter (app (f w)) = filter (app w)) -> keepsFilter (modify f).
Proof. intros Hf w. apply Hf. Qed.

Lemma keepsFilter_bind {A B : Type} (c : M A) (k : A -> M B) :
  keepsFilter c -> (forall a, keepsFilter (k a)) -> keepsFilter (bind c k).
Proof.
  intros Hc Hk w. cbv [bind]. specialize (Hc w).
  destruct (c w) as [[a | e] w1]; cbn [snd] in *; [| exact Hc].
  now rewrite Hk.
Qed.

Lemma keepsFilter_catch {A : Type} (c : M A) (h : Exn -> M A) :
  keepsFilter c -> (forall e, keepsFilter (h e)) -> keepsFilter (catch c h).
Proof.
  intros Hc Hh w. cbv [catch]. specialize (Hc w).
  destruct (c w) as [[a | e] w1]; cbn [snd] in *; [exact Hc |].
  now rewrite Hh.
Qed.

Lemma keepsFilter_for_of {A : Type} (l : list A) (body : A -> M unit) :
  (forall x, keepsFilter (body x)) -> keepsFilter (for_of l body).
Proof.
  intros Hbody. induction l as [| x rest IH]; [apply keepsFilter_ret |].
  cbn [for_of]. apply keepsFilter_bind; [apply Hbody | intros _; exact IH].
Qed.

Lemma keepsFilter_for_of_with {A S : Type} (l : list A) (acc : S)
    (body : A -> S -> M S) :
  (forall x a, keepsFilter (body x a)) -> keepsFilter (for_of_with l acc body).
Proof.
  intros Hbody. revert acc.
  induction l as [| x rest IH]; intros acc; [apply keepsFilter_ret |].
  cbn [for_of_with]. apply keepsFilter_bind; [apply Hbody | intros a; apply IH].
Qed.

Lemma keepsFilter_Date_now : keepsFilter Date_now.
Proof. now intros w. Qed.

Lemma keepsFilter_Math_random_hex : keepsFilter Math_random_hex.
Proof. now intros w. Qed.

Lemma keepsFilter_setUndoTimeout : keepsFilter setUndoTimeout.
Proof. now intros w. Qed.

Lemma keepsFilter_storeRequest {A : Type} (op : M A) :
  keepsFilter op -> keepsFilter (storeRequest op).
Proof.
  intros Hop w. unfold storeRequest.
  destruct (storeFails (requests w)); [reflexivity | apply (Hop (counted w))].
Qed.

Lemma keepsFilter_dbAddOutfit (o : Outfit.t) : keepsFilter (dbAddOutfit o).
Proof.
  apply keepsFilter_storeRequest. intros w.
  now destruct (db w !! Outfit.id o).
Qed.

Lemma keepsFilter_applyFiltersAndSort : keepsFilter applyFiltersAndSort.
Proof. intros w. now rewrite applyFiltersAndSort_run. Qed.

Lemma keepsFilter_refresh : keepsFilter refresh.
Proof.
  intros w.
  assert (Hkeeps : preserves (fun w' => filter (app w') = filter (app w))
                     refresh) by (frame; assumption).
  now apply Hkeeps.
Qed.

Lemma keepsFilter_exportEntries (l : list Outfit.t) :
  keepsFilter (exportEntries l).
Proof. intros w. now rewrite exportEntries_frame. Qed.

End FilterFrame.

Create HintDb keeps.

#[local] Hint Resolve keepsFilter_ret keepsFilter_lift keepsFilter_throw
  keepsFilter_gets keepsFilter_Date_now keepsFilter_Math_random_hex
  keepsFilter_setUndoTimeout keepsFilter_dbAddOutfit
  keepsFilter_applyFiltersAndSort keepsFilter_refresh
  keepsFilter_exportEntries : keeps.

(** One step of a proof that a computation keeps the filter: through a
    sequence, a handler, a loop, a write that does not name the filter,
    or a branch. *)
Ltac keeps_step :=
  first
    [ apply keepsFilter_bind; [| intros ?]
    | apply keepsFilter_catch; [| intros ?]
    | apply keepsFilter_for_of; intros ?
    | apply keepsFilter_for_of_with; intros ? ?
    | apply keepsFilter_modify; intros ?; reflexivity
    | solve [auto with keeps]
    | apply keepsFilter_storeRequest
    | match goal with
      | |- keepsFilter (if ?b then _ else _) => destruct b
      | |- keepsFilter (match ?x with _ => _ end) => destruct x
      end ].

Ltac keeps := repeat keeps_step.

Section ListenerFilterFacts.
Context `{Host}.

Lemma keepsFilter_confirmCreateSave (file : option Blob) (form : CreateForm) :
  keepsFilter (confirmCreateSave file form).
Proof. unfold confirmCreateSave, new_uid, showToast. keeps. Qed.

Lemma keepsFilter_onSearch (value : string) : keepsFilter (onSearch value).
Proof. unfold onSearch, renderGrid. keeps. Qed.

Lemma keepsFilter_onSortChange (value : string) :
  keepsFilter (onSortChange value).
Proof. unfold onSortChange, renderGrid. keeps. Qed.

Lemma keepsFilter_enableSelectMode (on : bool) :
  keepsFilter (enableSelectMode on).
Proof. unfold enableSelectMode, renderGrid. keeps. Qed.

Lemma keepsFilter_toggleSelectMode : keepsFilter toggleSelectMode.
Proof.
  unfold toggleSelectMode, showToast. keeps.
Qed.

Lemma keepsFilter_toggleSelection (id : string) :
  keepsFilter (toggleSelection id).
Proof. unfold toggleSelection, renderGrid. keeps. Qed.

Lemma keepsFilter_openDetail (id : string) : keepsFilter (openDetail id).
Proof. unfold openDetail. keeps. Qed.

Lemma keepsFilter_cardClick (id : string) : keepsFilter (cardClick id).
Proof. unfold cardClick. keeps. Qed.

Lemma keepsFilter_cardLongPress (id : string) :
  keepsFilter (cardLongPress id).
Proof. unfold cardLongPress, showToast. keeps. Qed.

Lemma keepsFilter_saveDetail (form : DetailForm) :
  keepsFilter (saveDetail form).
Proof. unfold saveDetail, showToast. keeps. Qed.

Lemma keepsFilter_wearToday : keepsFilter wearToday.
Proof. unfold wearToday, showToast. keeps. Qed.

Lemma keepsFilter_deleteDetailWithUndo : keepsFilter deleteDetailWithUndo.
Proof. unfold deleteDetailWithUndo, showToast. keeps. Qed.

Lemma keepsFilter_clickToastAction : keepsFilter clickToastAction.
Proof. unfold clickToastAction, undoDetail, undoBulk, showToast. keeps. Qed.

Lemma keepsFilter_undoTimerFires (t : nat) : keepsFilter (undoTimerFires t).
Proof. unfold undoTimerFires. keeps. Qed.

Lemma keepsFilter_bulkToggleFavorite : keepsFilter bulkToggleFavorite.
Proof. unfold bulkToggleFavorite, showToast. keeps. Qed.

Lemma keepsFilter_bulkDeleteWithUndo : keepsFilter bulkDeleteWithUndo.
Proof. unfold bulkDeleteWithUndo, showToast. keeps. Qed.

Lemma keepsFilter_exportOutfits (l : list Outfit.t) :
  keepsFilter (exportOutfits l).
Proof. unfold exportOutfits, showToast. keeps. Qed.

Lemma keepsFilter_bulkExportSelected : keepsFilter bulkExportSelected.
Proof. unfold bulkExportSelected. keeps; apply keepsFilter_exportOutfits. Qed.

Lemma keepsFilter_exportAll : keepsFilter exportAll.
Proof. unfold exportAll. keeps; apply keepsFilter_exportOutfits. Qed.

Lemma keepsFilter_onImportFile (file : option FileText) :
  keepsFilter (onImportFile file).
Proof.
  unfold onImportFile, importOutfitsFromFile, importEntry, entryId,
    numberOrNow, showToast.
  keeps.
Qed.

End ListenerFilterFacts.

Section ChipFacts.
Context `{Host}.

Lemma setTagFilter_filter (t : string) (w : World) :
  filter (app (snd (setTagFilter t w)))
  = mkFilter (fav (filter (app w))) (minRating (filter (app w)))
      (staleDays (filter (app w))) t.
Proof.
  unfold setTagFilter, renderGrid. cbv [bind modify].
  now rewrite applyFiltersAndSort_run.
Qed.

Lemma setQuickFilter_filter (f : bool) (minR stale : JsNum) (w : World) :
  filter (app (snd (setQuickFilter f minR stale w)))
  = mkFilter f (Num.or minR (Fin 0)) (Num.or stale (Fin 0))
      (tag (filter (app w))).
Proof.
  unfold setQuickFilter, renderGrid. cbv [bind modify].
  now rewrite applyFiltersAndSort_run.
Qed.

Lemma clickFilterAll_filter (w : World) :
  filter (app (snd (clickFilterAll w))) = mkFilter false (Fin 0) (Fin 0) "".
Proof.
  unfold clickFilterAll, renderGrid. cbv [bind modify].
  now rewrite applyFiltersAndSort_run.
Qed.

(** On the values the chips set, [Number(x || 0)] is [x]. *)
Lemma chipValues_or (f : Filter) :
  chipValues f ->
  Num.or (minRating f) (Fin 0) = minRating f
  /\ Num.or (staleDays f) (Fin 0) = staleDays f.
Proof.
  intros [[-> | ->] [-> | ->]]; split; reflexivity.
Qed.

Lemma clickFilterFav_filter (w : World) :
  chipValues (filter (app w)) ->
  filter (app (snd (clickFilterFav w)))
  = mkFilter (negb (fav (filter (app w)))) (minRating (filter (app w)))
      (staleDays (filter (app w))) (tag (filter (app w))).
Proof.
  intros [Hm Hs]%chipValues_or. unfold clickFilterFav. cbv [bind gets].
  now rewrite setQuickFilter_filter, Hm, Hs.
Qed.

Lemma clickFilter4plus_filter (w : World) :
  chipValues (filter (app w)) ->
  filter (app (snd (clickFilter4plus w)))
  = mkFilter (fav (filter (app w)))
      (if Num.eqb (minRating (filter (app w))) (Fin 4) then Fin 0 else Fin 4)
      (staleDays (filter (app w))) (tag (filter (app w))).
Proof.
  intros [_ Hs]%chipValues_or. unfold clickFilter4plus. cbv [bind gets].
  rewrite setQuickFilter_filter, Hs.
  now destruct (Num.eqb (minRating (filter (app w))) (Fin 4)).
Qed.

Lemma clickFilterStale_filter (w : World) :
  chipValues (filter (app w)) ->
  filter (app (snd (clickFilterStale w)))
  = mkFilter (fav (filter (app w))) (minRating (filter (app w)))
      (if Num.eqb (staleDays (filter (app w))) (Fin 30)
       then Fin 0 else Fin 30)
      (tag (filter (app w))).
Proof.
  intros [Hm _]%chipValues_or. unfold clickFilterStale. cbv [bind gets].
  rewrite setQuickFilter_filter, Hm.
  now destruct (Num.eqb (staleDays (filter (app w))) (Fin 30)).
Qed.

(** Every listener keeps the numeric criteria among the chips' values. *)
Lemma handle_chipValues (e : Event) (w : World) :
  chipValues (filter (app w)) ->
  chipValues (filter (app (snd (handle e w)))).
Proof.
  intros Hf. pose proof Hf as [Hm Hs].
  destruct e; cbn [handle].
  - now rewrite keepsFilter_refresh.
  - now rewrite keepsFilter_confirmCreateSave.
  - now rewrite keepsFilter_onSearch.
  - now rewrite keepsFilter_onSortChange.
  - rewrite clickFilterAll_filter. split; now left.
  - rewrite clickFilterFav_filter by exact Hf. now split.
  - rewrite clickFilter4plus_filter by exact Hf. split; [| exact Hs].
    cbn. destruct (Num.eqb (minRating (filter (app w))) (Fin 4));
      [now left | now right].
  - rewrite clickFilterStale_filter by exact Hf. split; [exact Hm |].
    cbn. destruct (Num.eqb (staleDays (filter (app w))) (Fin 30));
      [now left | now right].
  - rewrite setTagFilter_filter. now split.
  - unfold clearTagFilter. rewrite setTagFilter_filter. now split.
  - now rewrite keepsFilter_toggleSelectMode.
  - now rewrite keepsFilter_enableSelectMode.
  - now rewrite keepsFilter_bulkToggleFavorite.
  - now rewrite keepsFilter_bulkDeleteWithUndo.
  - rewrite bind_ret_world. now rewrite keepsFilter_bulkExportSelected.
  - now rewrite keepsFilter_cardClick.
  - now rewrite keepsFilter_cardLongPress.
  - exact Hf.
  - now rewrite keepsFilter_saveDetail.
  - now rewrite keepsFilter_wearToday.
  - now rewrite keepsFilter_deleteDetailWithUndo.
  - now rewrite keepsFilter_clickToastAction.
  - now rewrite keepsFilter_undoTimerFires.
  - rewrite bind_ret_world. now rewrite keepsFilter_exportAll.
  - now rewrite keepsFilter_onImportFile.
  - exact Hf.
Qed.

Lemma run_chipValues (events : list Event) (w : World) :
  chipValues (filter (app w)) ->
  chipValues (filter (app (run events w))).
Proof.
  revert w. induction events as [| e rest IH]; intros w Hf; [exact Hf |].
  unfold run. cbn [foldl]. apply IH. now apply handle_chipValues.
Qed.

Lemma toggle_4plus (x : JsNum) :
  x = Fin 0 \/ x = Fin 4 ->
  (if Num.eqb (if Num.eqb x (Fin 4) then Fin 0 else Fin 4) (Fin 4)
   then Fin 0 else Fin 4) = x.
Proof. now intros [-> | ->]. Qed.

Lemma toggle_stale (x : JsNum) :
  x = Fin 0 \/ x = Fin 30 ->
  (if Num.eqb (if Num.eqb x (Fin 30) then Fin 0 else Fin 30) (Fin 30)
   then Fin 0 else Fin 30) = x.
Proof. now intros [-> | ->]. Qed.

End ChipFacts.

(** X22.  In every state the listeners can reach, the minimum rating of
    the filter is 0 or 4 and its stale days are 0 or 30.  Hence each of
    the three quick-filter chips flips its own criterion and leaves the
    two others and the tag filter as they are, and a second click on the
    same chip restores the filter. *)
Theorem quick_filters_toggle `{Host} (m : gmap string Outfit.t) (n : nat)
    (events : list Event) :
  let w := run events (startWorld m n) in
  let f := filter (app w) in
  ((minRating f = Fin 0 \/ minRating f = Fin 4)
   /\ (staleDays f = Fin 0 \/ staleDays f = Fin 30))
  /\ filter (app (snd (clickFilterFav w)))
     = mkFilter (negb (fav f)) (minRating f) (staleDays f) (tag f)
  /\ filter (app (snd (clickFilter4plus w)))
     = mkFilter (fav f)
         (if Num.eqb (minRating f) (Fin 4) then Fin 0 else Fin 4)
         (staleDays f) (tag f)
  /\ filter (app (snd (clickFilterStale w)))
     = mkFilter (fav f) (minRating f)
         (if Num.eqb (staleDays f) (Fin 30) then Fin 0 else Fin 30) (tag f)
  /\ filter (app (snd (clickFilterFav (snd (clickFilterFav w))))) = f
  /\ filter (app (snd (clickFilter4plus (snd (clickFilter4plus w))))) = f
  /\ filter (app (snd (clickFilterStale (snd (clickFilterStale w))))) = f.
Proof.
  intros w f.
  assert (Hf : chipValues (filter (app w))).
  { apply run_chipValues. split; now left. }
  pose proof Hf as [Hm Hs].
  split; [exact Hf |].
  split; [now apply clickFilterFav_filter |].
  split; [now apply clickFilter4plus_filter |].
  split; [now apply clickFilterStale_filter |].
  split; [| split].
  - rewrite clickFilterFav_filter
      by apply (handle_chipValues EvFilterFav w Hf).
    rewrite clickFilterFav_filter by exact Hf.
    cbn [fav minRating staleDays tag]. rewrite negb_involutive.
    subst f. now destruct (filter (app w)).
  - rewrite clickFilter4plus_filter
      by apply (handle_chipValues EvFilter4plus w Hf).
    rewrite clickFilter4plus_filter by exact Hf.
    cbn [fav minRating staleDays tag]. rewrite toggle_4plus by exact Hm.
    subst f. now destruct (filter (app w)).
  - rewrite clickFilterStale_filter
      by apply (handle_chipValues EvFilterStale w Hf).
    rewrite clickFilterStale_filter by exact Hf.
    cbn [fav minRating staleDays tag]. rewrite toggle_stale by exact Hs.
    subst f. now destruct (filter (app w)).
Qed.

(** ** The snapshot follows the store *)

Section DataFrame.
Context `{Host}.

Lemma keepsData_ret {A : Type} (a : A) : keepsData (ret a).
Proof. now intros w. Qed.

Lemma keepsData_lift {A : Type} (r : Res A) : keepsData (lift r).
Proof. now intros w. Qed.

Lemma keepsData_gets {A : Type} (f : World -> A) : keepsData (gets f).
Proof. now intros w. Qed.

Lemma keepsData_modify (f : World -> World) :
  (forall w, db (f w) = db w /\ outfits (app (f w)) = outfits (app w)) ->
  keepsData (modify f).
Proof. intros Hf w. apply Hf. Qed.

Lemma keepsData_bind {A B : Type} (c : M A) (k : A -> M B) :
  keepsData c -> (forall a, keepsData (k a)) -> keepsData (bind c k).
Proof.
  intros Hc Hk w. cbv [bind]. specialize (Hc w).
  destruct (c w) as [[a | e] w1]; cbn [snd] in *; [| exact Hc].
  destruct (Hk a w1) as [Hdb Hsnap], Hc as [Hdb1 Hsnap1].
  split; congruence.
Qed.

Lemma keepsData_Date_now : keepsData Date_now.
Proof. now intros w. Qed.

Lemma keepsData_Math_random_hex : keepsData Math_random_hex.
Proof. now intros w. Qed.

Lemma keepsData_setUndoTimeout : keepsData setUndoTimeout.
Proof. now intros w. Qed.

Lemma keepsData_applyFiltersAndSort : keepsData applyFiltersAndSort.
Proof. intros w. now rewrite applyFiltersAndSort_run. Qed.

Lemma keepsData_exportEntries (l : list Outfit.t) :
  keepsData (exportEntries l).
Proof. intros w. now rewrite exportEntries_frame. Qed.

Lemma keepsData_storeRequest {A : Type} (op : M A) :
  keepsData op -> keepsData (storeRequest op).
Proof.
  intros Hop w. unfold storeRequest.
  destruct (storeFails (requests w)); [now split | apply (Hop (counted w))].
Qed.

Lemma neverThrows_ret {A : Type} (a : A) : neverThrows (ret a).
Proof. intros w. now exists a. Qed.

Lemma neverThrows_gets {A : Type} (f : World -> A) : neverThrows (gets f).
Proof. intros w. now exists (f w). Qed.

Lemma neverThrows_modify (f : World -> World) : neverThrows (modify f).
Proof. intros w. now exists tt. Qed.

Lemma neverThrows_bind {A B : Type} (c : M A) (k : A -> M B) :
  neverThrows c -> (forall a, neverThrows (k a)) -> neverThrows (bind c k).
Proof.
  intros Hc Hk w. cbv [bind]. destruct (Hc w) as [a Ha].
  destruct (c w) as [[a' | e] w1]; cbn [fst] in Ha; [| discriminate].
  apply Hk.
Qed.

Lemma neverThrows_for_of {A : Type} (l : list A) (body : A -> M unit) :
  (forall x, neverThrows (body x)) -> neverThrows (for_of l body).
Proof.
  intros Hbody. induction l as [| x rest IH]; [apply neverThrows_ret |].
  cbn [for_of]. apply neverThrows_bind; [apply Hbody | intros _; exact IH].
Qed.

Lemma neverThrows_applyFiltersAndSort : neverThrows applyFiltersAndSort.
Proof. intros w. rewrite applyFiltersAndSort_run. now exists tt. Qed.

(** A request to a store that fails none throws only if its operation
    does. *)
Lemma neverThrows_storeRequest {A : Type} (op : M A) :
  reliableStore -> neverThrows op -> neverThrows (storeRequest op).
Proof.
  intros Hstore Hop w. rewrite storeRequest_ok by apply Hstore. apply Hop.
Qed.

Lemma syncs_of_keepsData {A : Type} (c : M A) : keepsData c -> syncs c.
Proof.
  intros Hc w Hw. destruct (Hc w) as [Hdb Hsnap].
  unfold synced in *. congruence.
Qed.

Lemma syncs_of_resyncs {A : Type} (c : M A) : resyncs c -> syncs c.
Proof. intros Hc w _. apply Hc. Qed.

Lemma syncs_bind {A B : Type} (c : M A) (k : A -> M B) :
  syncs c -> (forall a, syncs (k a)) -> syncs (bind c k).
Proof.
  intros Hc Hk w Hw. cbv [bind]. specialize (Hc w Hw).
  destruct (c w) as [[a | e] w1]; cbn [snd] in *; [| exact Hc].
  now apply Hk.
Qed.

Lemma syncs_catch {A : Type} (c : M A) (h : Exn -> M A) :
  syncs c -> (forall e, syncs (h e)) -> syncs (catch c h).
Proof.
  intros Hc Hh w Hw. cbv [catch]. specialize (Hc w Hw).
  destruct (c w) as [[a | e] w1]; cbn [snd] in *; [exact Hc |].
  now apply Hh.
Qed.

(** [add] either throws without writing or writes; what follows a
    successful write must bring the snapshot in step again. *)
Lemma syncs_add {B : Type} (o : Outfit.t) (k : unit -> M B) :
  (forall a, resyncs (k a)) -> syncs (bind (dbAddOutfit o) k).
Proof.
  intros Hk w Hw. cbv [bind dbAddOutfit storeRequest].
  destruct (storeFails (requests w)); [exact Hw |].
  cbn [db counted].
  destruct (db w !! Outfit.id o); [exact Hw | apply Hk].
Qed.

Lemma resyncs_refresh : reliableStore -> resyncs refresh.
Proof. intros Hstore w. now rewrite (refresh_run Hstore). Qed.

(** After a step that brings the snapshot in step, the rest only has to
    keep it there. *)
Lemma resyncs_seq_l {A B : Type} (c : M A) (k : A -> M B) :
  resyncs c -> (forall a, syncs (k a)) -> resyncs (bind c k).
Proof.
  intros Hc Hk w. cbv [bind]. specialize (Hc w).
  destruct (c w) as [[a | e] w1]; cbn [snd] in *; [| exact Hc].
  now apply Hk.
Qed.

(** A step that cannot throw may do anything when the rest brings the
    snapshot in step. *)
Lemma resyncs_seq_r {A B : Type} (c : M A) (k : A -> M B) :
  neverThrows c -> (forall a, resyncs (k a)) -> resyncs (bind c k).
Proof.
  intros Hc Hk w. cbv [bind]. destruct (Hc w) as [a Ha].
  destruct (c w) as [[a' | e] w1]; cbn [fst] in Ha; [| discriminate].
  apply Hk.
Qed.

End DataFrame.

Create HintDb keepsdata.
Create HintDb nothrow.

#[local] Hint Resolve keepsData_ret keepsData_lift keepsData_gets
  keepsData_Date_now keepsData_Math_random_hex keepsData_setUndoTimeout
  keepsData_applyFiltersAndSort keepsData_exportEntries : keepsdata.

#[local] Hint Resolve neverThrows_ret neverThrows_gets neverThrows_modify
  neverThrows_applyFiltersAndSort : nothrow.

Ltac keepsdata :=
  repeat first
    [ apply keepsData_bind; [| intros ?]
    | apply keepsData_modify; intros ?; split; reflexivity
    | solve [auto with keepsdata]
    | apply keepsData_storeRequest
    | match goal with
      | |- keepsData (if ?b then _ else _) => destruct b
      | |- keepsData (match ?x with _ => _ end) => destruct x
      end ].

Ltac nothrow :=
  repeat first
    [ apply neverThrows_bind; [| intros ?]
    | apply neverThrows_for_of; intros ?
    | solve [auto with nothrow]
    | apply neverThrows_modify
    | apply neverThrows_gets
    | apply neverThrows_storeRequest; [assumption |]
    | match goal with
      | |- neverThrows (if ?b then _ else _) => destruct b
      | |- neverThrows (match ?x with _ => _ end) => destruct x
      end ].

(** One step through a listener that may write to the store: up to the
    first write everything keeps store and snapshot; from the write to
    [refresh] nothing throws; after [refresh] everything keeps them
    again. *)
Ltac sync_step :=
  cbv beta;
  match goal with
  | |- syncs (bind (dbAddOutfit _) _) => apply syncs_add; intros ?
  | |- syncs (bind _ _) =>
      first [ apply syncs_bind;
                [solve [apply syncs_of_keepsData; keepsdata] | intros ?]
            | apply syncs_of_resyncs ]
  | |- syncs (catch _ _) => apply syncs_catch; [| intros ?]
  | |- syncs (if ?b then _ else _) => destruct b
  | |- syncs (match ?x with _ => _ end) => destruct x
  | |- syncs _ =>
      first [ solve [apply syncs_of_keepsData; keepsdata]
            | apply syncs_of_resyncs ]
  | |- resyncs (bind refresh _) =>
      apply resyncs_seq_l; [apply resyncs_refresh; assumption | intros ?]
  | |- resyncs (bind _ _) => apply resyncs_seq_r; [solve [nothrow] | intros ?]
  | |- resyncs (if ?b then _ else _) => destruct b
  | |- resyncs (match ?x with _ => _ end) => destruct x
  | |- resyncs refresh => apply resyncs_refresh; assumption
  end.

Ltac sync := repeat sync_step.

Section SyncFacts.
Context `{Host}.
Hypothesis Hstore : reliableStore.

Lemma syncs_confirmCreateSave (file : option Blob) (form : CreateForm) :
  syncs (confirmCreateSave file form).
Proof. unfold confirmCreateSave. sync. Qed.

Lemma syncs_saveDetail (form : DetailForm) : syncs (saveDetail form).
Proof. unfold saveDetail. sync. Qed.

Lemma syncs_wearToday : syncs wearToday.
Proof. unfold wearToday. sync. Qed.

Lemma syncs_deleteDetailWithUndo : syncs deleteDetailWithUndo.
Proof. unfold deleteDetailWithUndo. sync. Qed.

Lemma syncs_clickToastAction : syncs clickToastAction.
Proof. unfold clickToastAction, undoDetail, undoBulk. sync. Qed.

Lemma syncs_bulkToggleFavorite : syncs bulkToggleFavorite.
Proof. unfold bulkToggleFavorite. sync. Qed.

Lemma syncs_bulkDeleteWithUndo : syncs bulkDeleteWithUndo.
Proof. unfold bulkDeleteWithUndo. sync. Qed.

End SyncFacts.

Section SnapshotFacts.
Context `{Host}.
Hypothesis Hstore : reliableStore.

(** Every listener but the import keeps the snapshot in step with the
    store. *)
Lemma handle_syncs (e : Event) : isImport e = false -> syncs (handle e).
Proof.
  intros He. destruct e; try discriminate He; cbn [handle];
    try (apply syncs_of_keepsData; solve [keepsdata]).
  - now apply syncs_of_resyncs, resyncs_refresh.
  - now apply syncs_confirmCreateSave.
  - now apply syncs_bulkToggleFavorite.
  - now apply syncs_bulkDeleteWithUndo.
  - now apply syncs_saveDetail.
  - now apply syncs_wearToday.
  - now apply syncs_deleteDetailWithUndo.
  - now apply syncs_clickToastAction.
Qed.

Lemma run_synced (events : list Event) (w : World) :
  forallb (fun e => negb (isImport e)) events = true ->
  synced w -> synced (run events w).
Proof.
  revert w. induction events as [| e rest IH]; intros w Hev Hw; [exact Hw |].
  cbn [forallb] in Hev. apply andb_prop in Hev as [He Hrest].
  unfold run. cbn [foldl]. apply IH; [exact Hrest |].
  apply handle_syncs; [| exact Hw]. now apply negb_true_iff.
Qed.

End SnapshotFacts.

(** X23.  On a host whose object store fails no request: once the
    initial [refresh] has run, and as long as no backup is imported, the
    snapshot [state.outfits] is exactly the content of the store in key
    order after every listener; each listener that writes to the store
    reloads the snapshot before it ends. *)
Theorem snapshot_tracks_store `{Host} (m : gmap string Outfit.t) (n : nat)
    (events : list Event) :
  reliableStore ->
  forallb (fun e => negb (isImport e)) events = true ->
  outfits (app (run (EvLoad :: events) (startWorld m n)))
  = getAll (db (run (EvLoad :: events) (startWorld m n))).
Proof.
  intros Hstore Hev. unfold run. cbn [foldl].
  apply (run_synced Hstore events); [exact Hev |].
  now apply resyncs_refresh.
Qed.

Lemma snapshot_tracks_store_witness :
  let events :=
    [EvCardClick (Outfit.id Sample.worn); EvWearToday; EvDeleteDetail;
     EvToastAction; EvToggleSelectMode;
     EvCardClick (Outfit.id Sample.worn); EvBulkFav; EvBulkDelete] in
  let w := @run demoHost (EvLoad :: events)
             (startWorld {[Outfit.id Sample.worn := Sample.worn]} 0) in
  outfits (app w) = getAll (db w).
Proof.
  cbv zeta. apply (@snapshot_tracks_store demoHost);
    [intros n; reflexivity | reflexivity].
Defined.

(** ** What the create form saves *)

Section CreateOutcomeFacts.
Context `{Host}.

(** The last steps of [confirmCreateSave] inside its [try], whatever
    the store does. *)
Lemma create_tail_run (mk : string -> Z -> Outfit.t) (w : World) :
  (forall u now, Outfit.id (mk u now) = u) ->
  let r := mk (uid (dateNow (tick w)) (randomHex (S (tick w))))
             (dateNow (S (S (tick w)))) in
  exists w',
    catch (bind new_uid (fun u =>
           bind Date_now (fun now =>
           bind (dbAddOutfit (mk u now)) (fun _ =>
           bind refresh (fun _ => showToast None)))))
      (fun _ => showToast None) w
    = (Ok tt, w')
    /\ (db w' = db w
        \/ (db w !! Outfit.id r = None
            /\ db w' = <[Outfit.id r := r]> (db w))).
Proof.
  intros Hid r.
  cbv [catch new_uid bind Date_now Math_random_hex ret dbAddOutfit
         storeRequest].
  cbn [db app tick toastAction timers nextTimer requests counted].
  destruct (storeFails (requests w)).
  { cbv [showToast modify]. eexists. split; [reflexivity |]. now left. }
  rewrite Hid.
  destruct (db w !! uid (dateNow (tick w)) (randomHex (S (tick w))))
    as [old |] eqn:Hold.
  { cbv [showToast modify]. eexists. split; [reflexivity |]. now left. }
  match goal with
  | |- context [refresh ?w1] =>
      pose proof (refresh_db w1) as Hr; destruct (refresh w1) as [[u | e] w2]
  end;
    cbv [showToast modify]; (eexists; split; [reflexivity |]); right;
    subst r; rewrite Hid; cbn [snd set_toastAction db] in *;
    (split; [exact Hold | exact Hr]).
Qed.

(** The same on a host whose store fails no request. *)
Lemma create_tail_reliable (mk : string -> Z -> Outfit.t) (w : World) :
  reliableStore ->
  (forall u now, Outfit.id (mk u now) = u) ->
  let r := mk (uid (dateNow (tick w)) (randomHex (S (tick w))))
             (dateNow (S (S (tick w)))) in
  exists w',
    catch (bind new_uid (fun u =>
           bind Date_now (fun now =>
           bind (dbAddOutfit (mk u now)) (fun _ =>
           bind refresh (fun _ => showToast None)))))
      (fun _ => showToast None) w
    = (Ok tt, w')
    /\ match db w !! Outfit.id r with
       | Some _ => db w' = db w
       | None =>
           db w' = <[Outfit.id r := r]> (db w)
           /\ outfits (app w') = getAll (db w')
       end.
Proof.
  intros Hstore Hid r.
  cbv [catch new_uid bind Date_now Math_random_hex ret dbAddOutfit
         storeRequest].
  cbn [db app tick toastAction timers nextTimer requests counted].
  rewrite (Hstore (requests w)). subst r. rewrite !Hid.
  destruct (db w !! uid (dateNow (tick w)) (randomHex (S (tick w))))
    as [old |] eqn:Hold.
  - cbv [showToast modify]. eexists. split; reflexivity.
  - rewrite (refresh_run Hstore). cbv [showToast modify].
    eexists. split; [reflexivity |].
    cbn [snd set_toastAction set_db db app outfits set_filtered
           set_outfits].
    split; reflexivity.
Qed.

End CreateOutcomeFacts.

(** X24.  On a host whose object store fails no request, with a file
    chosen, [confirmCreateSave] runs to its end.  It leaves the store as
    it was when the image cannot be processed or cropped and when the
    new id is taken.  Otherwise it adds exactly one record, under the id
    [uid()] made: with the name, rating, favourite flag, tags and notes
    the validators make of the form, the image from
    [fileToSafeJpegBlob] (cropped when the box is ticked), the creation
    time read after the id was made, and zero wears; the snapshot is
    then reloaded from the store. *)
Theorem confirmCreateSave_outcome `{Host} (file : Blob) (form : CreateForm)
    (w : World) :
  reliableStore ->
  exists w',
    confirmCreateSave (Some file) form w = (Ok tt, w')
    /\ match fileToSafeJpegBlob file 1600 (9 # 10) with
       | Throw _ => db w' = db w
       | Ok safeBlob =>
           match (if createCropSquare form
                  then cropCenterSquareToJpeg safeBlob 1200 (9 # 10)
                  else Ok safeBlob) with
           | Throw _ => db w' = db w
           | Ok finalBlob =>
               let r :=
                 Outfit.mk
                   (uid (dateNow (tick w)) (randomHex (S (tick w))))
                   (if negb (String.eqb (Str.trim (createName form)) "")
                    then Str.trim (createName form)
                    else "Outfit senza nome")
                   (clampRating
                      (Js.or (createStarsValue form) (VNum (Fin 0))))
                   (createFav form)
                   (num_of_Z (dateNow (S (S (tick w)))))
                   finalBlob
                   (cleanTags (createTags form))
                   (Str.trim (createNotes form))
                   (Fin 0) (Fin 0) in
               match db w !! Outfit.id r with
               | Some _ => db w' = db w
               | None =>
                   db w' = <[Outfit.id r := r]> (db w)
                   /\ outfits (app w') = getAll (db w')
               end
           end
       end.
Proof.
  intros Hstore. unfold confirmCreateSave.
  rewrite catch_lift, safeName_str, catch_lift, parseTags_str, catch_lift,
    trimmedText_str, catch_lift.
  destruct (fileToSafeJpegBlob file 1600 (9 # 10)) as [safeBlob | e]
    eqn:Hsafe.
  2: { cbv [showToast modify]. eexists. split; reflexivity. }
  set (mk := fun finalBlob u now =>
         Outfit.mk u
           (if negb (String.eqb (Str.trim (createName form)) "")
            then Str.trim (createName form) else "Outfit senza nome")
           (clampRating (Js.or (createStarsValue form) (VNum (Fin 0))))
           (createFav form) (num_of_Z now) finalBlob
           (cleanTags (createTags form)) (Str.trim (createNotes form))
           (Fin 0) (Fin 0)).
  destruct (createCropSquare form).
  - rewrite catch_lift.
    destruct (cropCenterSquareToJpeg safeBlob 1200 (9 # 10))
      as [finalBlob | e] eqn:Hcrop.
    2: { cbv [showToast modify]. eexists. split; reflexivity. }
    destruct (create_tail_reliable (mk finalBlob) w Hstore
                ltac:(reflexivity))
      as (w' & Hrun & Hcase).
    exists w'. split; [exact Hrun | exact Hcase].
  - destruct (create_tail_reliable (mk safeBlob) w Hstore
                ltac:(reflexivity))
      as (w' & Hrun & Hcase).
    exists w'. split; [exact Hrun | exact Hcase].
Qed.

(** On the demonstration host, a photo saved from the create form. *)
Lemma confirmCreateSave_outcome_witness :
  let w := Sample.world [Sample.worn]
             (Sample.state [Sample.worn] Sample.noFilter) 0 in
  let form := mkCreateForm " Beach " (VStr "4") true "Sea, sea" " hat "
                false in
  fst (@confirmCreateSave demoHost (Some (Toy.image 2000 800)) form w)
  = Ok tt
  /\ Outfit.name
       <$> getAll
             (db (snd (@confirmCreateSave demoHost
                         (Some (Toy.image 2000 800)) form w)))
     = ["Linen suit"; "Beach"].
Proof.
  cbv zeta.
  split.
  - destruct (@confirmCreateSave_outcome demoHost (Toy.image 2000 800)
                (mkCreateForm " Beach " (VStr "4") true "Sea, sea" " hat "
                   false)
                (Sample.world [Sample.worn]
                   (Sample.state [Sample.worn] Sample.noFilter) 0)
                (fun n => eq_refl))
      as (w' & Hrun & _).
    now rewrite Hrun.
  - vm_compute. reflexivity.
Defined.

(** ** The name the create form proposes *)

Lemma allExtChars_dot (b ext : string) :
  allExtChars (b +:+ String "." ext) = false.
Proof.
  induction b as [| c b IH]; [reflexivity |].
  change (allExtChars (String c b +:+ String "." ext))
    with (extChar c && allExtChars (b +:+ String "." ext)).
  rewrite IH. apply andb_false_r.
Qed.

Lemma isExtension_dot (b ext : string) :
  isExtension (b +:+ String "." ext) = false.
Proof. unfold isExtension. rewrite allExtChars_dot. apply andb_false_r. Qed.

Lemma stripExtension_cut (base ext : string) :
  isExtension ext = true ->
  stripExtension (base +:+ String "." ext) = base.
Proof.
  intros Hext. induction base as [| c b IH].
  - change (stripExtension ("" +:+ String "." ext))
      with (if Ascii.eqb "." "." && isExtension ext then ""
            else String "." (stripExtension ext)).
    now rewrite Hext.
  - change (stripExtension (String c b +:+ String "." ext))
      with (if Ascii.eqb c "." && isExtension (b +:+ String "." ext) then ""
            else String c (stripExtension (b +:+ String "." ext))).
    rewrite isExtension_dot, andb_false_r. now rewrite IH.
Qed.

Lemma stripExtension_keep (s : string) :
  (forall base ext, s = base +:+ String "." ext -> isExtension ext = false) ->
  stripExtension s = s.
Proof.
  induction s as [| c r IH]; intros Hno; [reflexivity |].
  cbn [stripExtension].
  destruct (Ascii.eqb_spec c ".") as [-> | Hc].
  - rewrite (Hno "" r eq_refl). cbn [andb]. f_equal. apply IH.
    intros base ext ->. apply (Hno (String "." base) ext). reflexivity.
  - cbn [andb]. f_equal. apply IH.
    intros base ext ->. apply (Hno (String c base) ext). reflexivity.
Qed.

(** X25.  [startCreateFromFile] proposes as name the file name without
    its last extension - a final dot followed by one or more characters
    other than a dot and a slash - whatever the part before that dot is;
    a file name that does not end like that (no dot, a dot at the very
    end, a slash after the last dot) is proposed unchanged.  The form is
    otherwise reset: rating ["0"], not a favourite, no tags, no notes,
    square crop ticked. *)
Theorem startCreateFromFile_name :
  (forall base ext,
     isExtension ext = true ->
     createName (startCreateFromFile (base +:+ String "." ext)) = base)
  /\ (forall name,
        (forall base ext,
           name = base +:+ String "." ext -> isExtension ext = false) ->
        createName (startCreateFromFile name) = name)
  /\ (forall name,
        createStarsValue (startCreateFromFile name) = VStr "0"
        /\ createFav (startCreateFromFile name) = false
        /\ createTags (startCreateFromFile name) = ""
        /\ createNotes (startCreateFromFile name) = ""
        /\ createCropSquare (startCreateFromFile name) = true).
Proof.
  split; [| split].
  - intros base ext Hext. unfold startCreateFromFile. cbn [createName].
    destruct (String.eqb_spec (base +:+ String "." ext) "") as [He | _].
    + destruct base; discriminate He.
    + cbn [negb]. now apply stripExtension_cut.
  - intros name Hno. unfold startCreateFromFile. cbn [createName].
    destruct (String.eqb_spec name "") as [-> | _]; [reflexivity |].
    cbn [negb]. now apply stripExtension_keep.
  - intros name. repeat split.
Qed.

(** X26.  Choosing a photo called [base.ext] and pressing Save without
    touching the form never throws and, unless the image cannot be
    processed or the id is taken (then the store is unchanged), adds one
    record under a free id, named after the trimmed base name ("Outfit
    senza nome" when that is blank), with rating 0, not a favourite, no
    tags, no notes and no wears.  This needs a host on which the text
    ["0"] is the number 0. *)
Theorem create_from_file_defaults `{Host} (file : Blob) (base ext : string)
    (w : World) :
  StringToNumber "0" = Fin 0 ->
  isExtension ext = true ->
  exists w',
    confirmCreateSave (Some file)
      (startCreateFromFile (base +:+ String "." ext)) w = (Ok tt, w')
    /\ (db w' = db w
        \/ exists r,
             db w !! Outfit.id r = None
             /\ db w' = <[Outfit.id r := r]> (db w)
             /\ Outfit.name r
                = (if negb (String.eqb (Str.trim base) "")
                   then Str.trim base else "Outfit senza nome")
             /\ Outfit.rating r = Fin 0
             /\ Outfit.favorite r = false
             /\ Outfit.tags r = []
             /\ Outfit.notes r = ""
             /\ Outfit.wearCount r = Fin 0
             /\ Outfit.lastWornAt r = Fin 0).
Proof.
  intros Hzero Hext.
  assert (Hname : createName (startCreateFromFile (base +:+ String "." ext))
                  = base).
  { unfold startCreateFromFile. cbn [createName].
    destruct (String.eqb_spec (base +:+ String "." ext) "") as [He | _];
      [destruct base; discriminate He |].
    cbn [negb]. now apply stripExtension_cut. }
  assert (Hrating : clampRating (Js.or (VStr "0") (VNum (Fin 0))) = Fin 0).
  { unfold clampRating. cbn [Js.or Js.truthy Js.Number String.eqb negb].
    change (Js.or (VStr "0") (VNum (Fin 0))) with (VStr "0").
    cbn [Js.Number]. now rewrite Hzero. }
  unfold confirmCreateSave.
  rewrite catch_lift, safeName_str, catch_lift, parseTags_str, catch_lift,
    trimmedText_str, catch_lift, Hname.
  cbn [createStarsValue createFav createTags createNotes createCropSquare
         startCreateFromFile].
  rewrite Hrating.
  destruct (fileToSafeJpegBlob file 1600 (9 # 10)) as [safeBlob | e].
  2: { cbv [showToast modify]. eexists. split; [reflexivity |]. now left. }
  rewrite catch_lift.
  destruct (cropCenterSquareToJpeg safeBlob 1200 (9 # 10))
    as [finalBlob | e].
  2: { cbv [showToast modify]. eexists. split; [reflexivity |]. now left. }
  destruct (create_tail_run
              (fun u now =>
                 Outfit.mk u
                   (if negb (String.eqb (Str.trim base) "")
                    then Str.trim base else "Outfit senza nome")
                   (Fin 0) false (num_of_Z now) finalBlob (cleanTags "")
                   (Str.trim "") (Fin 0) (Fin 0))
              w ltac:(reflexivity))
    as (w' & Hrun & Hcase).
  exists w'. split; [exact Hrun |].
  destruct Hcase as [Hsame | (Hfree & Hadd)]; [now left | right].
  eexists. split; [exact Hfree |]. split; [exact Hadd |].
  repeat split.
Qed.

Lemma create_from_file_defaults_witness :
  exists w',
    @confirmCreateSave demoHost (Some (Toy.image 2000 800))
      (startCreateFromFile "beach day.jpeg") (startWorld ∅ 0) = (Ok tt, w')
    /\ (db w' = db (startWorld ∅ 0)
        \/ exists r,
             db (startWorld ∅ 0) !! Outfit.id r = None
             /\ db w' = <[Outfit.id r := r]> (db (startWorld ∅ 0))
             /\ Outfit.name r
                = (if negb (String.eqb (Str.trim "beach day") "")
                   then Str.trim "beach day" else "Outfit senza nome")
             /\ Outfit.rating r = Fin 0
             /\ Outfit.favorite r = false
             /\ Outfit.tags r = []
             /\ Outfit.notes r = ""
             /\ Outfit.wearCount r = Fin 0
             /\ Outfit.lastWornAt r = Fin 0).
Proof.
  apply (@create_from_file_defaults demoHost (Toy.image 2000 800)
           "beach day" "jpeg" (startWorld ∅ 0)); reflexivity.
Defined.

(** ** The first revision: favourite, delete, add *)

Section V1Facts.
Context `{Host}.

Lemma v1_refresh_db (w : V1.World) : V1.db (V1.refresh w) = V1.db w.
Proof. reflexivity. Qed.


End V1Facts.





(** X30.  First revision: the files chosen together are added one after
    the other, and the first photo that cannot be converted ends the
    listener with that error: the files before it have been added, the
    files after it are not looked at. *)
Theorem onFilesChosen_v1_stops `{Host} (done rest : list (string * Blob))
    (fileName : string) (file : Blob) (e : Exn) (w : V1.World) :
  fst (V1.onFilesChosen done w) = Ok tt ->
  fileToSafeJpegBlob file 1600 (9 # 10) = Throw e ->
  V1.onFilesChosen (done ++ (fileName, file) :: rest) w
  = (Throw e, snd (V1.onFilesChosen done w)).
Proof.
  revert w. induction done as [| [n f] more IH]; intros w Hdone Hbad.
  - cbn [List.app V1.onFilesChosen]. unfold V1.addOutfitFromFile.
    now rewrite Hbad.
  - cbn [List.app V1.onFilesChosen] in *.
    destruct (V1.addOutfitFromFile n f w) as [[u | e'] w1];
      [| discriminate Hdone].
    now apply IH.
Qed.

Lemma onFilesChosen_v1_stops_witness :
  let w := V1.mkWorld ∅ (V1.mkState [] [] None "" "date_desc") 0 in
  let good := [("beach.jpg", Toy.image 2000 800)] in
  let bad := mkBlob [] "text/plain" in
  @V1.onFilesChosen demoHost
    (good ++ ("notes.txt", bad) :: [("city.png", Toy.image 640 480)]) w
  = (Throw ImageError, snd (@V1.onFilesChosen demoHost good w)).
Proof.
  cbv zeta.
  apply (@onFilesChosen_v1_stops demoHost); reflexivity.
Defined.
